(** * MiniTel-Lite v3.0 client: frame codec and protocol client

    A shallow embedding of [src/protocol/constants.js], [src/protocol/frame.js]
    and [src/protocol/client.js], with the pieces of the Node.js runtime the
    code relies on ([Buffer] reads and writes, Base64, UTF-8, SHA-256, the
    event emitter), followed by the properties of the codec, of the stream
    reassembly loop and of the client state machine.

    Conventions.
    - A [Buffer] is a [list byte]; a JavaScript number is a [Z]; lengths and
      offsets are [nat].
    - A function that can throw returns a [result]; the thrown [Error] is
      classified by the [error] type.
    - The client is a record of the fields of [MiniTelClient]; every method
      and every socket callback is a function from client to client that
      also returns the list of [Effect]s it caused, in order. *)

From Stdlib Require Import String.
From Stdlib Require Import ZArith List Lia Bool Ascii.
From Stdlib.Strings Require Import Byte.
Import ListNotations.
Open Scope Z_scope.

(* ================================================================== *)
(** ** Errors and results *)

(** [PROTOCOL_ERRORS] of constants.js. *)
Inductive ProtocolError : Type :=
| INVALID_NONCE
| UNKNOWN_COMMAND
| MALFORMED_FRAME
| HASH_VALIDATION_FAILURE
| INVALID_BASE64
| CONNECTION_TIMEOUT
| UNEXPECTED_DISCONNECTION.

(** The [Error] values that the modelled code can throw or pass around.
    [Protocol e] is [new Error(PROTOCOL_ERRORS.e)]; the others are errors
    with a message outside [PROTOCOL_ERRORS]. *)
Inductive error : Type :=
| Protocol (e : ProtocolError)
| PayloadTooLarge          (* 'Payload size exceeds maximum: ...' *)
| RangeError               (* ERR_OUT_OF_RANGE of a Buffer write *)
| TypeError                (* property access on null *)
| NotConnected             (* 'Not connected to server' *)
| HelloRequired            (* 'HELLO command must be sent before DUMP' *)
| TransportError (code : Z). (* an error reported by the socket *)

Inductive result (A : Type) : Type :=
| Ok (a : A)
| Err (e : error).
Arguments Ok {A} a.
Arguments Err {A} e.

Definition bind {A B} (r : result A) (k : A -> result B) : result B :=
  match r with
  | Ok a => k a
  | Err e => Err e
  end.

Notation "x <- r ;; k" := (bind r (fun x => k))
  (at level 61, r at next level, right associativity).
Notation "'check' b 'else_throw' e ;; k" := (if b then k else Err e)
  (at level 61, b at next level, e at next level, right associativity).

(** [Object.values(PROTOCOL_ERRORS).includes(error.message)] *)
Definition is_protocol_error (e : error) : bool :=
  match e with
  | Protocol _ => true
  | _ => false
  end.

(* ================================================================== *)
(** ** constants.js *)

Module COMMANDS.
Definition HELLO : Z := 0x01.
Definition DUMP : Z := 0x02.
Definition STOP_CMD : Z := 0x03.
End COMMANDS.

Module RESPONSES.
Definition HELLO_ACK : Z := 0x81.
Definition DUMP_FAILED : Z := 0x82.
Definition DUMP_OK : Z := 0x83.
Definition STOP_OK : Z := 0x84.
End RESPONSES.

Module PROTOCOL_CONSTANTS.
Definition HASH_LENGTH : nat := 32.
Definition NONCE_LENGTH : nat := 4.
Definition CMD_LENGTH : nat := 1.
Definition LENGTH_PREFIX_SIZE : nat := 2.
Definition CONNECTION_TIMEOUT : Z := 2000.
Definition MAX_PAYLOAD_SIZE : Z := 65535.
End PROTOCOL_CONSTANTS.

(* ================================================================== *)
(** ** Node.js [Buffer] *)

Definition Buffer : Type := list byte.

Definition byte_to_Z (b : byte) : Z := Z.of_N (Byte.to_N b).

(** The byte holding the low 8 bits of [z]. *)
Definition byte_of_Z (z : Z) : byte :=
  match Byte.of_N (Z.to_N (z mod 256)) with
  | Some b => b
  | None => x00
  end.

(** [Buffer.alloc(n)] *)
Definition alloc (n : nat) : Buffer := repeat x00 n.

(** Overwrite [buf] from [offset] on with [bs] (which fits). *)
Definition set_bytes (bs : list byte) (offset : nat) (buf : Buffer) : Buffer :=
  firstn offset buf ++ bs ++ skipn (offset + length bs) buf.

(** [source.copy(target, targetStart)]: copies as much of [source] as fits. *)
Definition copy (source target : Buffer) (targetStart : nat) : Buffer :=
  set_bytes (firstn (length target - targetStart) source) targetStart target.

(** [buf.subarray(start, end)] and [buf.subarray(start)] *)
Definition subarray (buf : Buffer) (start stop : nat) : Buffer :=
  firstn (stop - start) (skipn start buf).

Definition subarray_from (buf : Buffer) (start : nat) : Buffer :=
  skipn start buf.

Definition in_range (lo v hi : Z) : bool := (lo <=? v) && (v <=? hi).

(** [buf.writeUInt8(value, offset)]; throws when the value or the offset
    is out of range. *)
Definition writeUInt8 (value : Z) (offset : nat) (buf : Buffer) : result Buffer :=
  if negb (in_range 0 value 255) then Err RangeError
  else if (length buf <? offset + 1)%nat then Err RangeError
  else Ok (set_bytes [byte_of_Z value] offset buf).

(** [buf.writeUInt16BE(value, offset)] *)
Definition writeUInt16BE (value : Z) (offset : nat) (buf : Buffer) : result Buffer :=
  if negb (in_range 0 value 65535) then Err RangeError
  else if (length buf <? offset + 2)%nat then Err RangeError
  else Ok (set_bytes [byte_of_Z (Z.shiftr value 8); byte_of_Z value] offset buf).

(** [buf.writeUInt32BE(value, offset)] *)
Definition writeUInt32BE (value : Z) (offset : nat) (buf : Buffer) : result Buffer :=
  if negb (in_range 0 value 4294967295) then Err RangeError
  else if (length buf <? offset + 4)%nat then Err RangeError
  else Ok (set_bytes [byte_of_Z (Z.shiftr value 24); byte_of_Z (Z.shiftr value 16);
                      byte_of_Z (Z.shiftr value 8); byte_of_Z value] offset buf).

(** [buf.readUInt8(offset)], [buf.readUInt16BE(offset)],
    [buf.readUInt32BE(offset)]; they throw past the end of the buffer. *)
Definition readUInt8 (buf : Buffer) (offset : nat) : result Z :=
  match skipn offset buf with
  | b0 :: _ => Ok (byte_to_Z b0)
  | _ => Err RangeError
  end.

Definition readUInt16BE (buf : Buffer) (offset : nat) : result Z :=
  match skipn offset buf with
  | b0 :: b1 :: _ => Ok (byte_to_Z b0 * 256 + byte_to_Z b1)
  | _ => Err RangeError
  end.

Definition readUInt32BE (buf : Buffer) (offset : nat) : result Z :=
  match skipn offset buf with
  | b0 :: b1 :: b2 :: b3 :: _ =>
      Ok (byte_to_Z b0 * 16777216 + byte_to_Z b1 * 65536
          + byte_to_Z b2 * 256 + byte_to_Z b3)
  | _ => Err RangeError
  end.

Definition byte_eqb (a b : byte) : bool := Byte.eqb a b.

(** [a.equals(b)] *)
Fixpoint equals (a b : Buffer) : bool :=
  match a, b with
  | [], [] => true
  | x :: a', y :: b' => byte_eqb x y && equals a' b'
  | _, _ => false
  end.

(** [buf.toString('ascii')]: the high bit of every byte is cleared. *)
Definition toString_ascii (buf : Buffer) : list ascii :=
  map (fun b => ascii_of_byte (byte_of_Z (Z.land (byte_to_Z b) 0x7f))) buf.

(** [Buffer.from(str, 'ascii')] *)
Definition from_ascii (s : list ascii) : Buffer := map byte_of_ascii s.

(* ------------------------------------------------------------------ *)
(** *** UTF-8, as [buf.toString('utf8')]

    A JavaScript string is the sequence of its UTF-16 code units. Node
    decodes as the WHATWG Encoding standard prescribes: every maximal
    ill-formed part of the input becomes one U+FFFD, nothing throws, and
    a byte order mark is kept. *)

Definition JSString : Type := list Z.

Module Utf8.

(** The decoder between two bytes: the code point under construction,
    the continuation bytes still needed, and the range in which the next
    one must lie. *)
Record Decoder : Type := mkDecoder {
  code_point : Z;
  bytes_needed : nat;
  lower_boundary : Z;
  upper_boundary : Z
}.

Definition REPLACEMENT : Z := 0xFFFD.

(** No sequence open. *)
Definition between_sequences : Decoder := mkDecoder 0 0 0x80 0xBF.

(** The code units of a code point: itself, or a surrogate pair. *)
Definition code_units (cp : Z) : list Z :=
  if cp <? 0x10000 then [cp]
  else [0xD800 + Z.shiftr (cp - 0x10000) 10;
        0xDC00 + Z.land (cp - 0x10000) 0x3FF].

(** A byte read while no sequence is open. *)
Definition lead (b : Z) : Decoder * list Z :=
  if b <=? 0x7F then (between_sequences, [b])
  else if (0xC2 <=? b) && (b <=? 0xDF)
  then (mkDecoder (Z.land b 0x1F) 1 0x80 0xBF, [])
  else if (0xE0 <=? b) && (b <=? 0xEF)
  then (mkDecoder (Z.land b 0xF) 2
                  (if b =? 0xE0 then 0xA0 else 0x80)
                  (if b =? 0xED then 0x9F else 0xBF), [])
  else if (0xF0 <=? b) && (b <=? 0xF4)
  then (mkDecoder (Z.land b 0x7) 3
                  (if b =? 0xF0 then 0x90 else 0x80)
                  (if b =? 0xF4 then 0x8F else 0xBF), [])
  else (between_sequences, [REPLACEMENT]).

(** One byte. A byte that cannot continue the open sequence closes it
    with U+FFFD and is read again as the start of the next. *)
Definition next (d : Decoder) (b : Z) : Decoder * list Z :=
  match bytes_needed d with
  | O => lead b
  | S needed =>
      if (lower_boundary d <=? b) && (b <=? upper_boundary d)
      then
        let cp := Z.lor (Z.shiftl (code_point d) 6) (Z.land b 0x3F) in
        match needed with
        | O => (between_sequences, code_units cp)
        | S _ => (mkDecoder cp needed 0x80 0xBF, [])
        end
      else
        let '(d', out) := lead b in (d', REPLACEMENT :: out)
  end.

(** The whole input; a sequence still open at its end gives U+FFFD. *)
Fixpoint decode (d : Decoder) (bytes : Buffer) : JSString :=
  match bytes with
  | [] => match bytes_needed d with
          | O => []
          | S _ => [REPLACEMENT]
          end
  | b :: rest =>
      let '(d', out) := next d (byte_to_Z b) in
      out ++ decode d' rest
  end.

End Utf8.

(** [buf.toString('utf8')] *)
Definition toString_utf8 (buf : Buffer) : JSString :=
  Utf8.decode Utf8.between_sequences buf.

(* ------------------------------------------------------------------ *)
(** *** Base64, as [buf.toString('base64')] and [Buffer.from(s, 'base64')] *)

Definition base64_table : list ascii :=
  map ascii_of_byte
    [ x41; x42; x43; x44; x45; x46; x47; x48; x49; x4a; x4b; x4c; x4d;
      x4e; x4f; x50; x51; x52; x53; x54; x55; x56; x57; x58; x59; x5a;
      x61; x62; x63; x64; x65; x66; x67; x68; x69; x6a; x6b; x6c; x6d;
      x6e; x6f; x70; x71; x72; x73; x74; x75; x76; x77; x78; x79; x7a;
      x30; x31; x32; x33; x34; x35; x36; x37; x38; x39; x2b; x2f ].

Definition pad_char : ascii := ascii_of_byte x3d.

Definition base64_char (v : Z) : ascii :=
  nth (Z.to_nat v) base64_table pad_char.

(** The four 6-bit values of a group of three bytes. *)
Definition sextet1 (a : byte) : Z :=
  Z.shiftr (byte_to_Z a) 2.
Definition sextet2 (a b : byte) : Z :=
  Z.lor (Z.shiftl (Z.land (byte_to_Z a) 0x03) 4) (Z.shiftr (byte_to_Z b) 4).
Definition sextet3 (b c : byte) : Z :=
  Z.lor (Z.shiftl (Z.land (byte_to_Z b) 0x0f) 2) (Z.shiftr (byte_to_Z c) 6).
Definition sextet4 (c : byte) : Z :=
  Z.land (byte_to_Z c) 0x3f.

Definition enc1 (a : byte) : ascii := base64_char (sextet1 a).
Definition enc2 (a b : byte) : ascii := base64_char (sextet2 a b).
Definition enc3 (b c : byte) : ascii := base64_char (sextet3 b c).
Definition enc4 (c : byte) : ascii := base64_char (sextet4 c).

(** Standard alphabet, padded with [=]. *)
Fixpoint base64_encode (bs : Buffer) : list ascii :=
  match bs with
  | [] => []
  | [a] => [enc1 a; enc2 a x00; pad_char; pad_char]
  | [a; b] => [enc1 a; enc2 a b; enc3 b x00; pad_char]
  | a :: b :: c :: rest =>
      enc1 a :: enc2 a b :: enc3 b c :: enc4 c :: base64_encode rest
  end.

(** The value of a Base64 character; Node also accepts the URL-safe
    [-] and [_]. [None] for every other character. *)
Definition unbase64 (c : ascii) : option Z :=
  let n := byte_to_Z (byte_of_ascii c) in
  if in_range 65 n 90 then Some (n - 65)
  else if in_range 97 n 122 then Some (n - 71)
  else if in_range 48 n 57 then Some (n + 4)
  else if (n =? 43) || (n =? 45) then Some 62
  else if (n =? 47) || (n =? 95) then Some 63
  else None.

(** Node's decoder is lenient: characters outside the alphabet are skipped
    and decoding stops at the first [=]. It never throws. *)
Fixpoint sextets (s : list ascii) : list Z :=
  match s with
  | [] => []
  | c :: s' =>
      match unbase64 c with
      | Some v => v :: sextets s'
      | None => if Ascii.eqb c pad_char then [] else sextets s'
      end
  end.

Definition dec1 (v1 v2 : Z) : byte :=
  byte_of_Z (Z.lor (Z.shiftl (Z.land v1 0x3f) 2) (Z.shiftr (Z.land v2 0x30) 4)).
Definition dec2 (v2 v3 : Z) : byte :=
  byte_of_Z (Z.lor (Z.shiftl (Z.land v2 0x0f) 4) (Z.shiftr (Z.land v3 0x3c) 2)).
Definition dec3 (v3 v4 : Z) : byte :=
  byte_of_Z (Z.lor (Z.shiftl (Z.land v3 0x03) 6) (Z.land v4 0x3f)).

Fixpoint unsextets (vs : list Z) : Buffer :=
  match vs with
  | v1 :: v2 :: v3 :: v4 :: rest =>
      dec1 v1 v2 :: dec2 v2 v3 :: dec3 v3 v4 :: unsextets rest
  | [v1; v2; v3] => [dec1 v1 v2; dec2 v2 v3]
  | [v1; v2] => [dec1 v1 v2]
  | _ => []
  end.

Definition base64_decode (s : list ascii) : Buffer := unsextets (sextets s).

(* ------------------------------------------------------------------ *)
(** *** SHA-256, as [crypto.createHash('sha256').update(buf).digest()]

    FIPS 180-4 on 32-bit words held in [Z]. *)

Module Sha256.

Definition wrap32 (x : Z) : Z := x mod 4294967296.
Definition add32 (x y : Z) : Z := wrap32 (x + y).
Definition rotr (n x : Z) : Z :=
  Z.lor (Z.shiftr x n) (wrap32 (Z.shiftl x (32 - n))).
Definition not32 (x : Z) : Z := 4294967295 - x.

Definition ch (x y z : Z) : Z :=
  Z.lxor (Z.land x y) (Z.land (not32 x) z).
Definition maj (x y z : Z) : Z :=
  Z.lxor (Z.lxor (Z.land x y) (Z.land x z)) (Z.land y z).
Definition big_sigma0 (x : Z) : Z :=
  Z.lxor (Z.lxor (rotr 2 x) (rotr 13 x)) (rotr 22 x).
Definition big_sigma1 (x : Z) : Z :=
  Z.lxor (Z.lxor (rotr 6 x) (rotr 11 x)) (rotr 25 x).
Definition small_sigma0 (x : Z) : Z :=
  Z.lxor (Z.lxor (rotr 7 x) (rotr 18 x)) (Z.shiftr x 3).
Definition small_sigma1 (x : Z) : Z :=
  Z.lxor (Z.lxor (rotr 17 x) (rotr 19 x)) (Z.shiftr x 10).

Definition round_constants : list Z :=
  [ 0x428A2F98; 0x71374491; 0xB5C0FBCF; 0xE9B5DBA5;
    0x3956C25B; 0x59F111F1; 0x923F82A4; 0xAB1C5ED5;
    0xD807AA98; 0x12835B01; 0x243185BE; 0x550C7DC3;
    0x72BE5D74; 0x80DEB1FE; 0x9BDC06A7; 0xC19BF174;
    0xE49B69C1; 0xEFBE4786; 0x0FC19DC6; 0x240CA1CC;
    0x2DE92C6F; 0x4A7484AA; 0x5CB0A9DC; 0x76F988DA;
    0x983E5152; 0xA831C66D; 0xB00327C8; 0xBF597FC7;
    0xC6E00BF3; 0xD5A79147; 0x06CA6351; 0x14292967;
    0x27B70A85; 0x2E1B2138; 0x4D2C6DFC; 0x53380D13;
    0x650A7354; 0x766A0ABB; 0x81C2C92E; 0x92722C85;
    0xA2BFE8A1; 0xA81A664B; 0xC24B8B70; 0xC76C51A3;
    0xD192E819; 0xD6990624; 0xF40E3585; 0x106AA070;
    0x19A4C116; 0x1E376C08; 0x2748774C; 0x34B0BCB5;
    0x391C0CB3; 0x4ED8AA4A; 0x5B9CCA4F; 0x682E6FF3;
    0x748F82EE; 0x78A5636F; 0x84C87814; 0x8CC70208;
    0x90BEFFFA; 0xA4506CEB; 0xBEF9A3F7; 0xC67178F2 ].

(** The eight working variables. *)
Record state : Type := State {
  va : Z; vb : Z; vc : Z; vd : Z; ve : Z; vf : Z; vg : Z; vh : Z
}.

Definition initial : state :=
  State 0x6A09E667 0xBB67AE85 0x3C6EF372 0xA54FF53A
        0x510E527F 0x9B05688C 0x1F83D9AB 0x5BE0CD19.

(** Padding: a one bit, zeros up to 56 mod 64, the bit length on 8 bytes. *)
Definition be64 (n : Z) : list byte :=
  map (fun k => byte_of_Z (Z.shiftr n (8 * k))) [7; 6; 5; 4; 3; 2; 1; 0].

Definition pad (msg : list byte) : list byte :=
  let len := length msg in
  let zeros := ((64 - (len + 9) mod 64) mod 64)%nat in
  msg ++ x80 :: repeat x00 zeros ++ be64 (8 * Z.of_nat len).

Fixpoint blocks (count : nat) (bs : list byte) : list (list byte) :=
  match count with
  | O => []
  | S count' => firstn 64 bs :: blocks count' (skipn 64 bs)
  end.

Fixpoint words (count : nat) (bs : list byte) : list Z :=
  match count, bs with
  | S count', b0 :: b1 :: b2 :: b3 :: rest =>
      (byte_to_Z b0 * 16777216 + byte_to_Z b1 * 65536
       + byte_to_Z b2 * 256 + byte_to_Z b3) :: words count' rest
  | _, _ => []
  end.

(** Message schedule: [w] holds W(t-1) ... W(t-16), newest first. *)
Fixpoint schedule (count : nat) (w : list Z) : list Z :=
  match count with
  | O => []
  | S count' =>
      let wt := add32 (add32 (small_sigma1 (nth 1 w 0)) (nth 6 w 0))
                      (add32 (small_sigma0 (nth 14 w 0)) (nth 15 w 0)) in
      wt :: schedule count' (wt :: firstn 15 w)
  end.

Definition step (s : state) (kw : Z * Z) : state :=
  let t1 := add32 (add32 (add32 (vh s) (big_sigma1 (ve s)))
                         (add32 (ch (ve s) (vf s) (vg s)) (fst kw)))
                  (snd kw) in
  let t2 := add32 (big_sigma0 (va s)) (maj (va s) (vb s) (vc s)) in
  State (add32 t1 t2) (va s) (vb s) (vc s) (add32 (vd s) t1) (ve s) (vf s) (vg s).

Definition compress (h : state) (block : list byte) : state :=
  let w16 := words 16 block in
  let w := w16 ++ schedule 48 (rev w16) in
  let s := fold_left step (combine round_constants w) h in
  State (add32 (va h) (va s)) (add32 (vb h) (vb s))
        (add32 (vc h) (vc s)) (add32 (vd h) (vd s))
        (add32 (ve h) (ve s)) (add32 (vf h) (vf s))
        (add32 (vg h) (vg s)) (add32 (vh h) (vh s)).

Definition be32 (x : Z) : list byte :=
  [ byte_of_Z (Z.shiftr x 24); byte_of_Z (Z.shiftr x 16);
    byte_of_Z (Z.shiftr x 8); byte_of_Z x ].

Definition digest (s : state) : list byte :=
  be32 (va s) ++ be32 (vb s) ++ be32 (vc s) ++ be32 (vd s)
  ++ be32 (ve s) ++ be32 (vf s) ++ be32 (vg s) ++ be32 (vh s).

Definition sha256 (msg : list byte) : list byte :=
  let padded := pad msg in
  digest (fold_left compress (blocks (length padded / 64) padded) initial).

End Sha256.

Definition sha256 : Buffer -> Buffer := Sha256.sha256.

(* ================================================================== *)
(** ** frame.js *)

(** The object returned by [decodeFrame]. Its sixth property,
    [payloadString], is computed from [payload] when the object is built
    and never written afterwards: it is the function [payloadString]
    below. *)
Record Frame : Type := mkFrame {
  cmd : Z;
  nonce : Z;
  payload : Buffer;
  hash : Buffer;
  isValid : bool
}.

(** [calculateHash(cmd, nonce, payload)] *)
Definition calculateHash (cmd nonce : Z) (payload : Buffer) : result Buffer :=
  let frameContent := alloc (1 + PROTOCOL_CONSTANTS.NONCE_LENGTH + length payload) in
  let offset := 0%nat in
  frameContent <- writeUInt8 cmd offset frameContent ;;
  let offset := (offset + 1)%nat in
  frameContent <- writeUInt32BE nonce offset frameContent ;;
  let offset := (offset + PROTOCOL_CONSTANTS.NONCE_LENGTH)%nat in
  let frameContent :=
    if (0 <? length payload)%nat then copy payload frameContent offset
    else frameContent in
  Ok (sha256 frameContent).

(** [encodeFrame(cmd, nonce, payload)]. A string payload is first turned
    into its UTF-8 bytes (step 1 of the source); [payload] is that buffer. *)
Definition encodeFrame (cmd nonce : Z) (payload : Buffer) : result Buffer :=
  let payloadBuffer := payload in
  check negb (PROTOCOL_CONSTANTS.MAX_PAYLOAD_SIZE <? Z.of_nat (length payloadBuffer))
    else_throw PayloadTooLarge ;;
  hash <- calculateHash cmd nonce payloadBuffer ;;
  let frameSize :=
    (PROTOCOL_CONSTANTS.CMD_LENGTH + PROTOCOL_CONSTANTS.NONCE_LENGTH + length payloadBuffer + PROTOCOL_CONSTANTS.HASH_LENGTH)%nat in
  let binaryFrame := alloc frameSize in
  let offset := 0%nat in
  binaryFrame <- writeUInt8 cmd offset binaryFrame ;;
  let offset := (offset + PROTOCOL_CONSTANTS.CMD_LENGTH)%nat in
  binaryFrame <- writeUInt32BE nonce offset binaryFrame ;;
  let offset := (offset + PROTOCOL_CONSTANTS.NONCE_LENGTH)%nat in
  let '(binaryFrame, offset) :=
    if (0 <? length payloadBuffer)%nat
    then (copy payloadBuffer binaryFrame offset,
          (offset + length payloadBuffer)%nat)
    else (binaryFrame, offset) in
  let binaryFrame := copy hash binaryFrame offset in
  let base64Frame := base64_encode binaryFrame in
  let base64Buffer := from_ascii base64Frame in
  let finalFrame := alloc (PROTOCOL_CONSTANTS.LENGTH_PREFIX_SIZE + length base64Buffer) in
  finalFrame <- writeUInt16BE (Z.of_nat (length base64Buffer)) 0 finalFrame ;;
  let finalFrame := copy base64Buffer finalFrame PROTOCOL_CONSTANTS.LENGTH_PREFIX_SIZE in
  Ok finalFrame.

Section Decode.

(** [Buffer.from(s, 'base64')] as the source calls it inside its own
    [try]: [None] stands for a throw. *)
Variable from_base64 : list ascii -> option Buffer.

(** The body of the outer [try] of [decodeFrame]. *)
Definition decodeFrame_try (frameData : Buffer) : result Frame :=
  check negb (length frameData <? PROTOCOL_CONSTANTS.LENGTH_PREFIX_SIZE)%nat
    else_throw Protocol MALFORMED_FRAME ;;
  dataLength <- readUInt16BE frameData 0 ;;
  check negb (Z.of_nat (length frameData)
              <? Z.of_nat PROTOCOL_CONSTANTS.LENGTH_PREFIX_SIZE + dataLength)
    else_throw Protocol MALFORMED_FRAME ;;
  let base64Data :=
    subarray frameData PROTOCOL_CONSTANTS.LENGTH_PREFIX_SIZE
             (PROTOCOL_CONSTANTS.LENGTH_PREFIX_SIZE + Z.to_nat dataLength) in
  binaryFrame <-
    match from_base64 (toString_ascii base64Data) with
    | Some b => Ok b
    | None => Err (Protocol INVALID_BASE64)
    end ;;
  let minFrameSize := (PROTOCOL_CONSTANTS.CMD_LENGTH + PROTOCOL_CONSTANTS.NONCE_LENGTH + PROTOCOL_CONSTANTS.HASH_LENGTH)%nat in
  check negb (length binaryFrame <? minFrameSize)%nat
    else_throw Protocol MALFORMED_FRAME ;;
  let offset := 0%nat in
  cmd <- readUInt8 binaryFrame offset ;;
  let offset := (offset + PROTOCOL_CONSTANTS.CMD_LENGTH)%nat in
  nonce <- readUInt32BE binaryFrame offset ;;
  let offset := (offset + PROTOCOL_CONSTANTS.NONCE_LENGTH)%nat in
  let payloadLength := (length binaryFrame - minFrameSize)%nat in
  let payload :=
    if (0 <? payloadLength)%nat
    then subarray binaryFrame offset (offset + payloadLength)
    else alloc 0 in
  let offset := (offset + payloadLength)%nat in
  let receivedHash := subarray_from binaryFrame offset in
  calculatedHash <- calculateHash cmd nonce payload ;;
  let isValid := equals receivedHash calculatedHash in
  check isValid else_throw Protocol HASH_VALIDATION_FAILURE ;;
  Ok (mkFrame cmd nonce payload receivedHash isValid).

(** The outer [catch]: a protocol error is rethrown, anything else
    becomes [MALFORMED_FRAME]. *)
Definition decodeFrame_with (frameData : Buffer) : result Frame :=
  match decodeFrame_try frameData with
  | Ok frame => Ok frame
  | Err e =>
      if is_protocol_error e then Err e else Err (Protocol MALFORMED_FRAME)
  end.

End Decode.

(** [decodeFrame(frameData)] on Node, whose Base64 decoder never throws. *)
Definition decodeFrame : Buffer -> result Frame :=
  decodeFrame_with (fun s => Some (base64_decode s)).

(** The [payloadString] property of a decoded frame:
    [payload.length > 0 ? payload.toString('utf8') : '']. *)
Definition payloadString (frame : Frame) : JSString :=
  if (0 <? length (payload frame))%nat then toString_utf8 (payload frame)
  else [].

(** [getExpectedFrameLength(data)]; [None] is [null]. *)
Definition getExpectedFrameLength (data : Buffer) : option Z :=
  if (length data <? PROTOCOL_CONSTANTS.LENGTH_PREFIX_SIZE)%nat then None
  else match readUInt16BE data 0 with
       | Ok len => Some (Z.of_nat PROTOCOL_CONSTANTS.LENGTH_PREFIX_SIZE + len)
       | Err _ => None
       end.

(* ================================================================== *)
(** ** client.js *)

(** The events of the [EventEmitter] that [MiniTelClient] extends. The
    [timestamp] field of [frameTransmitted] (wall-clock time) is left out;
    its [payload] field is a string: [''] for a request, the
    [payloadString] of the frame for a response. *)
Inductive Event : Type :=
| connected
| disconnected
| error_event (e : error)
| frameTransmitted (type command : string) (nonce : Z) (payload : JSString)
| frameReceived (frame : Frame).

(** The three listeners that one call of [_sendFrameAndWaitForResponse]
    registers ([responseHandler], [errorHandler], [disconnectHandler]),
    with the promise they settle. *)
Record Exchange : Type := mkExchange {
  promise : nat;
  expectedCodes : list Z
}.

(** What a method or a callback does to the world outside the client. *)
Inductive Effect : Type :=
| Emit (ev : Event)                 (* [this.emit(...)] was called *)
| SocketCreate                      (* [new net.Socket()] and [connect] *)
| SocketWrite (frame : Buffer)      (* [this.socket.write(frame)] *)
| SocketEnd                         (* [this.socket.end()] *)
| SocketDestroy                     (* [this.socket.destroy()] *)
| Resolve (promise : nat) (frame : Frame)
| Reject (promise : nat) (e : error)
| CallRejected (e : error)          (* an [async] method threw *)
| ConnectResolved
| ConnectRejected (e : error)
| Uncaught (e : error).             (* a throw that leaves the callback *)

Record MiniTelClient : Type := mkClient {
  socket : bool;                    (* [this.socket !== null] *)
  isConnected : bool;
  currentNonce : Z;
  lastCommand : option string;
  dumpCounter : Z;
  incomingBuffer : Buffer;
  connectionTimer : bool;           (* the connect timer is armed *)
  exchanges : list Exchange;        (* listeners of pending calls, oldest first *)
  nextPromise : nat;                (* identity of the next promise *)
  errorObserver : bool              (* an ['error'] listener of the application *)
}.

(** [new MiniTelClient(options)] *)
Definition constructor (errorObserver : bool) : MiniTelClient :=
  mkClient false false 0 None 0 (alloc 0) false [] 0 errorObserver.

Definition set_socket (v : bool) (c : MiniTelClient) : MiniTelClient :=
  mkClient v (isConnected c) (currentNonce c) (lastCommand c) (dumpCounter c)
           (incomingBuffer c) (connectionTimer c) (exchanges c)
           (nextPromise c) (errorObserver c).
Definition set_isConnected (v : bool) (c : MiniTelClient) : MiniTelClient :=
  mkClient (socket c) v (currentNonce c) (lastCommand c) (dumpCounter c)
           (incomingBuffer c) (connectionTimer c) (exchanges c)
           (nextPromise c) (errorObserver c).
Definition set_currentNonce (v : Z) (c : MiniTelClient) : MiniTelClient :=
  mkClient (socket c) (isConnected c) v (lastCommand c) (dumpCounter c)
           (incomingBuffer c) (connectionTimer c) (exchanges c)
           (nextPromise c) (errorObserver c).
Definition set_lastCommand (v : option string) (c : MiniTelClient) : MiniTelClient :=
  mkClient (socket c) (isConnected c) (currentNonce c) v (dumpCounter c)
           (incomingBuffer c) (connectionTimer c) (exchanges c)
           (nextPromise c) (errorObserver c).
Definition set_dumpCounter (v : Z) (c : MiniTelClient) : MiniTelClient :=
  mkClient (socket c) (isConnected c) (currentNonce c) (lastCommand c) v
           (incomingBuffer c) (connectionTimer c) (exchanges c)
           (nextPromise c) (errorObserver c).
Definition set_incomingBuffer (v : Buffer) (c : MiniTelClient) : MiniTelClient :=
  mkClient (socket c) (isConnected c) (currentNonce c) (lastCommand c)
           (dumpCounter c) v (connectionTimer c) (exchanges c)
           (nextPromise c) (errorObserver c).
Definition set_connectionTimer (v : bool) (c : MiniTelClient) : MiniTelClient :=
  mkClient (socket c) (isConnected c) (currentNonce c) (lastCommand c)
           (dumpCounter c) (incomingBuffer c) v (exchanges c)
           (nextPromise c) (errorObserver c).
Definition set_exchanges (v : list Exchange) (c : MiniTelClient) : MiniTelClient :=
  mkClient (socket c) (isConnected c) (currentNonce c) (lastCommand c)
           (dumpCounter c) (incomingBuffer c) (connectionTimer c) v
           (nextPromise c) (errorObserver c).
Definition set_nextPromise (v : nat) (c : MiniTelClient) : MiniTelClient :=
  mkClient (socket c) (isConnected c) (currentNonce c) (lastCommand c)
           (dumpCounter c) (incomingBuffer c) (connectionTimer c) (exchanges c)
           v (errorObserver c).

(** A method or callback: the new client and the effects, in order. *)
Definition Run : Type := (MiniTelClient * list Effect)%type.

(** Sequencing: [k] runs on the client that [r] left. *)
Definition andThen (r : Run) (k : MiniTelClient -> Run) : Run :=
  let '(c, effects) := r in
  let '(c', effects') := k c in
  (c', effects ++ effects').

(* ------------------------------------------------------------------ *)
(** *** The event emitter

    [emit] calls the listeners registered when it starts, in the order of
    registration; each listener of an exchange removes the three listeners
    of its own exchange only. *)

(** [this.emit('frameReceived', frame)]: the [responseHandler]s. *)
Definition includes (codes : list Z) (code : Z) : bool :=
  existsb (Z.eqb code) codes.

Definition emit_frameReceived (c : MiniTelClient) (frame : Frame) : Run :=
  let accepts (x : Exchange) := includes (expectedCodes x) (cmd frame) in
  (set_exchanges (filter (fun x => negb (accepts x)) (exchanges c)) c,
   Emit (frameReceived frame)
   :: map (fun x => Resolve (promise x) frame) (filter accepts (exchanges c))).

(** [this.emit('error', e)]: the [errorHandler]s; with no listener at all
    the emitter throws [e], which is the third component. *)
Definition emit_error (c : MiniTelClient) (e : error) : Run * option error :=
  let listened := errorObserver c || negb (Nat.eqb (length (exchanges c)) 0) in
  (set_exchanges [] c,
   Emit (error_event e) :: map (fun x => Reject (promise x) e) (exchanges c),
   if listened then None else Some e).

(** [this.emit('disconnected')]: the [disconnectHandler]s. *)
Definition emit_disconnected (c : MiniTelClient) : Run :=
  (set_exchanges [] c,
   Emit disconnected
   :: map (fun x => Reject (promise x) (Protocol UNEXPECTED_DISCONNECTION))
          (exchanges c)).

(* ------------------------------------------------------------------ *)
(** *** Methods *)

(** [connect()], up to the return of the promise. *)
Definition connect (c : MiniTelClient) : Run :=
  (set_connectionTimer true (set_socket true c), [SocketCreate]).

(** The callback given to [socket.connect]. *)
Definition onConnect (c : MiniTelClient) : Run :=
  let c := set_connectionTimer false c in
  let c := set_isConnected true c in
  let c := set_currentNonce 0 c in
  let c := set_lastCommand None c in
  let c := set_dumpCounter 0 c in
  let c := set_incomingBuffer (alloc 0) c in
  (c, [Emit connected; ConnectResolved]).

(** The connect timer fires. *)
Definition onTimeout (c : MiniTelClient) : Run :=
  if negb (socket c) then (c, [Uncaught TypeError])
  else
    let '(c', effects, thrown) := emit_error c (Protocol CONNECTION_TIMEOUT) in
    match thrown with
    | Some e => (c', SocketDestroy :: effects ++ [Uncaught e])
    | None =>
        (c', SocketDestroy :: effects
             ++ [ConnectRejected (Protocol CONNECTION_TIMEOUT)])
    end.

(** [socket.on('close', ...)] *)
Definition onClose (c : MiniTelClient) : Run :=
  let c := set_isConnected false c in
  let c := set_connectionTimer false c in
  emit_disconnected c.

(** [socket.on('error', ...)] *)
Definition onError (c : MiniTelClient) (e : error) : Run :=
  let c := set_isConnected false c in
  let c := set_connectionTimer false c in
  let '(c', effects, thrown) := emit_error c e in
  match thrown with
  | Some e' => (c', effects ++ [Uncaught e'])
  | None => (c', effects ++ [ConnectRejected e])
  end.

(** [disconnect()] *)
Definition disconnect (c : MiniTelClient) : Run :=
  let '(c, effects) :=
    if socket c then (set_socket false c, [SocketEnd]) else (c, []) in
  let c := set_isConnected false c in
  let c := set_connectionTimer false c in
  (c, effects).

(** [_sendFrameAndWaitForResponse(frame, expectedResponseCodes)]; the
    argument is already the array [expectedCodes]. *)
Definition _sendFrameAndWaitForResponse
    (c : MiniTelClient) (frame : Buffer) (expectedCodes : list Z) : Run :=
  let exchange := mkExchange (nextPromise c) expectedCodes in
  let c := set_nextPromise (S (nextPromise c)) c in
  let c := set_exchanges (exchanges c ++ [exchange]) c in
  if socket c
  then (set_currentNonce (currentNonce c + 2) c, [SocketWrite frame])
  else (c, [Reject (promise exchange) TypeError]).

(** [sendHello()] *)
Definition sendHello (c : MiniTelClient) : Run :=
  if negb (isConnected c) then (c, [CallRejected NotConnected])
  else
    match encodeFrame COMMANDS.HELLO (currentNonce c) [] with
    | Err e => (c, [CallRejected e])
    | Ok frame =>
        let c := set_lastCommand (Some "HELLO"%string) c in
        andThen
          (c, [Emit (frameTransmitted "request" "HELLO" (currentNonce c) [])])
          (fun c => _sendFrameAndWaitForResponse c frame [RESPONSES.HELLO_ACK])
    end.

(** [sendDump()] *)
Definition sendDump (c : MiniTelClient) : Run :=
  if negb (isConnected c) then (c, [CallRejected NotConnected])
  else
    match lastCommand c with
    | None => (c, [CallRejected HelloRequired])
    | Some _ =>
        match encodeFrame COMMANDS.DUMP (currentNonce c) [] with
        | Err e => (c, [CallRejected e])
        | Ok frame =>
            let c := set_lastCommand (Some "DUMP"%string) c in
            andThen
              (c, [Emit (frameTransmitted "request" "DUMP" (currentNonce c) [])])
              (fun c => _sendFrameAndWaitForResponse c frame
                          [RESPONSES.DUMP_OK; RESPONSES.DUMP_FAILED])
        end
    end.

(** [sendStop()] *)
Definition sendStop (c : MiniTelClient) : Run :=
  if negb (isConnected c) then (c, [CallRejected NotConnected])
  else
    match encodeFrame COMMANDS.STOP_CMD (currentNonce c) [] with
    | Err e => (c, [CallRejected e])
    | Ok frame =>
        let c := set_lastCommand (Some "STOP_CMD"%string) c in
        andThen
          (c, [Emit (frameTransmitted "request" "STOP_CMD" (currentNonce c) [])])
          (fun c => _sendFrameAndWaitForResponse c frame [RESPONSES.STOP_OK])
    end.

(** [RESPONSE_NAMES[cmd] || 'UNKNOWN'] *)
Definition response_name (code : Z) : string :=
  if code =? RESPONSES.HELLO_ACK then "HELLO_ACK"
  else if code =? RESPONSES.DUMP_FAILED then "DUMP_FAILED"
  else if code =? RESPONSES.DUMP_OK then "DUMP_OK"
  else if code =? RESPONSES.STOP_OK then "STOP_OK"
  else "UNKNOWN".

(** The [catch] block of [_handleIncomingData]. *)
Definition catch_block (c : MiniTelClient) (e : error) : Run :=
  let '(c', effects, thrown) := emit_error c e in
  match thrown with
  | Some e' => (c', effects ++ [Uncaught e'])
  | None => (c', effects)
  end.

(** The [try] and [catch] of one turn of the loop of
    [_handleIncomingData], on the frame just cut from the buffer.
    [continue] is the rest of the loop, which both [return]s skip. *)
Definition process_frame (c : MiniTelClient) (frameData : Buffer)
    (continue : MiniTelClient -> Run) : Run :=
  match decodeFrame frameData with
  | Err e => catch_block c e
  | Ok decodedFrame =>
      if negb (nonce decodedFrame =? currentNonce c - 1)
      then
        let '(c', effects, thrown) := emit_error c (Protocol INVALID_NONCE) in
        match thrown with
        | None => (c', effects)
        | Some e => andThen (c', effects) (fun c => catch_block c e)
        end
      else
        let c :=
          if cmd decodedFrame =? RESPONSES.DUMP_OK
          then set_dumpCounter (dumpCounter c + 1) c
          else c in
        let responseType := response_name (cmd decodedFrame) in
        andThen
          (c, [Emit (frameTransmitted "response" responseType
                       (nonce decodedFrame) (payloadString decodedFrame))])
          (fun c => andThen (emit_frameReceived c decodedFrame) continue)
  end.

(** The [while] loop of [_handleIncomingData]. Every turn removes at least
    the two bytes of a length prefix from [incomingBuffer], so [fuel] equal
    to the length of the buffer is never exhausted. *)
Fixpoint process_frames (fuel : nat) (c : MiniTelClient) : Run :=
  if (length (incomingBuffer c) <? PROTOCOL_CONSTANTS.LENGTH_PREFIX_SIZE)%nat
  then (c, [])
  else
    match fuel with
    | O => (c, [])
    | S fuel' =>
        match getExpectedFrameLength (incomingBuffer c) with
        | None => (c, [])
        | Some expectedLength =>
            if Z.of_nat (length (incomingBuffer c)) <? expectedLength
            then (c, [])
            else
              let frameData :=
                subarray (incomingBuffer c) 0 (Z.to_nat expectedLength) in
              let c :=
                set_incomingBuffer
                  (subarray_from (incomingBuffer c) (Z.to_nat expectedLength)) c in
              process_frame c frameData (process_frames fuel')
        end
    end.

(** [_handleIncomingData(data)] *)
Definition _handleIncomingData (c : MiniTelClient) (data : Buffer) : Run :=
  let c := set_incomingBuffer (incomingBuffer c ++ data) c in
  process_frames (length (incomingBuffer c)) c.

(** [getState()] without the constant [host] and [port]. *)
Record State : Type := mkState {
  state_isConnected : bool;
  state_currentNonce : Z;
  state_lastCommand : option string;
  state_dumpCounter : Z
}.

Definition getState (c : MiniTelClient) : State :=
  mkState (isConnected c) (currentNonce c) (lastCommand c) (dumpCounter c).

(* ------------------------------------------------------------------ *)
(** *** Histories of a client *)

(** Everything that can happen to a client: a method call of its user or
    a callback from its socket or timer. *)
Inductive Action : Type :=
| CallConnect
| CallDisconnect
| CallSendHello
| CallSendDump
| CallSendStop
| OnConnect
| OnData (data : Buffer)
| OnClose
| OnError (e : error)
| OnTimeout.

Definition step (c : MiniTelClient) (a : Action) : Run :=
  match a with
  | CallConnect => connect c
  | CallDisconnect => disconnect c
  | CallSendHello => sendHello c
  | CallSendDump => sendDump c
  | CallSendStop => sendStop c
  | OnConnect => onConnect c
  | OnData data => _handleIncomingData c data
  | OnClose => onClose c
  | OnError e => onError c e
  | OnTimeout => onTimeout c
  end.

Fixpoint run (c : MiniTelClient) (actions : list Action) : Run :=
  match actions with
  | [] => (c, [])
  | a :: actions' => andThen (step c a) (fun c' => run c' actions')
  end.

(** Feeding the chunks of a byte stream, one ['data'] event each. *)
Definition feed (c : MiniTelClient) (chunks : list Buffer) : Run :=
  run c (map OnData chunks).

(** The frames handed to the ['frameReceived'] listeners, the frames
    written to the socket, and the promises resolved. *)
Definition received (effects : list Effect) : list Frame :=
  flat_map (fun e => match e with Emit (frameReceived f) => [f] | _ => [] end)
           effects.

Definition written (effects : list Effect) : list Buffer :=
  flat_map (fun e => match e with SocketWrite f => [f] | _ => [] end) effects.

Definition resolved (effects : list Effect) : list (nat * Frame) :=
  flat_map (fun e => match e with Resolve p f => [(p, f)] | _ => [] end)
           effects.

Definition is_teardown (e : Effect) : bool :=
  match e with
  | SocketEnd | SocketDestroy => true
  | _ => false
  end.

(* ================================================================== *)
(** ** Vocabulary of the statements

    Closed forms, predicates on buffers and clients, and the example
    envelopes and clients used below. *)

(** Every byte, for proofs by enumeration. *)
Definition all_bytes : list byte :=
  map (fun n => byte_of_Z (Z.of_nat n)) (seq 0 256).

(** The characters that the encoder produces survive the trip through
    [Buffer.from(s, 'ascii')] and [buf.toString('ascii')]. *)
Definition ascii_clean (c : ascii) : bool :=
  Ascii.eqb
    (ascii_of_byte (byte_of_Z (Z.land (byte_to_Z (byte_of_ascii c)) 0x7f))) c.

(** Big-endian bytes of a 16-bit and of a 32-bit value. *)
Definition be16 (v : Z) : Buffer :=
  [byte_of_Z (Z.shiftr v 8); byte_of_Z v].

Definition be32 (v : Z) : Buffer :=
  [byte_of_Z (Z.shiftr v 24); byte_of_Z (Z.shiftr v 16);
   byte_of_Z (Z.shiftr v 8); byte_of_Z v].

(** What is hashed, and the binary frame before Base64. *)
Definition frame_content (cmd nonce : Z) (payload : Buffer) : Buffer :=
  byte_of_Z cmd :: be32 nonce ++ payload.

Definition binary_frame (cmd nonce : Z) (payload : Buffer) : Buffer :=
  frame_content cmd nonce payload ++ sha256 (frame_content cmd nonce payload).

Definition wire_base64 (cmd nonce : Z) (payload : Buffer) : Buffer :=
  from_ascii (base64_encode (binary_frame cmd nonce payload)).

Definition u32_of_bytes (b0 b1 b2 b3 : byte) : Z :=
  byte_to_Z b0 * 16777216 + byte_to_Z b1 * 65536
  + byte_to_Z b2 * 256 + byte_to_Z b3.

(** The parts of a binary frame of at least 37 bytes. *)
Definition stored_hash (binaryFrame : Buffer) : Buffer :=
  skipn (length binaryFrame - 32) binaryFrame.

Definition hashed_part (binaryFrame : Buffer) : Buffer :=
  firstn (length binaryFrame - 32) binaryFrame.

Definition parsed_cmd (binaryFrame : Buffer) : Z :=
  byte_to_Z (nth 0 binaryFrame x00).

Definition parsed_nonce (binaryFrame : Buffer) : Z :=
  u32_of_bytes (nth 1 binaryFrame x00) (nth 2 binaryFrame x00)
               (nth 3 binaryFrame x00) (nth 4 binaryFrame x00).

Definition parsed_payload (binaryFrame : Buffer) : Buffer :=
  firstn (length binaryFrame - 37) (skipn 5 binaryFrame).

Definition parsed_frame (binaryFrame : Buffer) : Frame :=
  mkFrame (parsed_cmd binaryFrame) (parsed_nonce binaryFrame)
          (parsed_payload binaryFrame) (stored_hash binaryFrame) true.

(** [decodeFrame] in closed form, for any Base64 decoder. *)
Definition decode_binary (binaryFrame : Buffer) : result Frame :=
  if (length binaryFrame <? 37)%nat then Err (Protocol MALFORMED_FRAME)
  else if equals (stored_hash binaryFrame) (sha256 (hashed_part binaryFrame))
       then Ok (parsed_frame binaryFrame)
       else Err (Protocol HASH_VALIDATION_FAILURE).

Definition declared_length (frameData : Buffer) : Z :=
  byte_to_Z (nth 0 frameData x00) * 256 + byte_to_Z (nth 1 frameData x00).

Definition base64_region (frameData : Buffer) : list ascii :=
  toString_ascii
    (firstn (Z.to_nat (declared_length frameData)) (skipn 2 frameData)).

(** A payload of 49113 zero bytes. *)
Definition payload_49113 : Buffer := alloc (Z.to_nat 49113).

(** The length prefix is complete, the declared Base64 text is present,
    and it decodes to at least the 37 bytes of command, nonce and hash. *)
Definition structurally_valid (frameData : Buffer) : bool :=
  (2 <=? length frameData)%nat
  && (2 + declared_length frameData <=? Z.of_nat (length frameData))
  && (37 <=? length (base64_decode (base64_region frameData)))%nat.

(** The envelope of HELLO_ACK at nonce 1 with an empty payload. *)
Definition hello_ack_1 : Buffer :=
  match encodeFrame RESPONSES.HELLO_ACK 1 [] with
  | Ok wire => wire
  | Err _ => []
  end.

(** The four characters [QUJD], the Base64 text of the three bytes [ABC],
    behind a length prefix of 4. *)
Definition short_frame : Buffer := [x00; x04; x51; x55; x4a; x44].

Definition is_send (a : Action) : bool :=
  match a with
  | CallSendHello | CallSendDump | CallSendStop => true
  | _ => false
  end.

Definition command_code (a : Action) : Z :=
  match a with
  | CallSendDump => COMMANDS.DUMP
  | CallSendStop => COMMANDS.STOP_CMD
  | _ => COMMANDS.HELLO
  end.

Definition command_name (a : Action) : string :=
  match a with
  | CallSendDump => "DUMP"
  | CallSendStop => "STOP_CMD"
  | _ => "HELLO"
  end.

Definition accepted_codes (a : Action) : list Z :=
  match a with
  | CallSendDump => [RESPONSES.DUMP_OK; RESPONSES.DUMP_FAILED]
  | CallSendStop => [RESPONSES.STOP_OK]
  | _ => [RESPONSES.HELLO_ACK]
  end.

(** The precondition that only [sendDump] has. *)
Definition hello_missing (c : MiniTelClient) (a : Action) : bool :=
  match a, lastCommand c with
  | CallSendDump, None => true
  | _, _ => false
  end.

(** The client after [a] has registered its exchange, before the write. *)
Definition with_exchange (c : MiniTelClient) (a : Action) : MiniTelClient :=
  set_exchanges (exchanges c ++ [mkExchange (nextPromise c) (accepted_codes a)])
    (set_nextPromise (S (nextPromise c))
       (set_lastCommand (Some (command_name a)) c)).

(** A command is written to the socket exactly when the client is
    connected, holds a socket, has a nonce that fits 32 bits and, for
    DUMP, has a last command. *)
Definition can_transmit (c : MiniTelClient) (a : Action) : bool :=
  isConnected c && socket c && negb (hello_missing c a)
  && in_range 0 (currentNonce c) 4294967295.

(** The fields that incoming data never touches. *)
Definition same_session (c c' : MiniTelClient) : Prop :=
  socket c' = socket c /\ isConnected c' = isConnected c
  /\ currentNonce c' = currentNonce c /\ lastCommand c' = lastCommand c
  /\ connectionTimer c' = connectionTimer c
  /\ nextPromise c' = nextPromise c /\ errorObserver c' = errorObserver c.

(** Effects that only notify: events, settled promises, a rethrown error. *)
Definition quiet (e : Effect) : bool :=
  match e with
  | Emit _ | Resolve _ _ | Reject _ _ | Uncaught _ => true
  | _ => false
  end.

Definition is_reconnect (a : Action) : bool :=
  match a with
  | OnConnect => true
  | _ => false
  end.

(** A buffer that is exactly one envelope: a length prefix and as many
    bytes as it declares. *)
Definition is_envelope (frameData : Buffer) : bool :=
  (2 <=? length frameData)%nat
  && (Z.of_nat (length frameData) =? 2 + declared_length frameData).

(** A buffer that holds no complete envelope yet. *)
Definition incomplete (buf : Buffer) : bool :=
  (length buf <? 2)%nat
  || (Z.of_nat (length buf) <? 2 + declared_length buf).

Definition envelope_of (code n : Z) (payload : Buffer) : Buffer :=
  match encodeFrame code n payload with
  | Ok wire => wire
  | Err _ => []
  end.

(** A client that connected, and one that then has a HELLO outstanding
    (sent nonce 0). *)
Definition connected_client (errorObserver : bool) : MiniTelClient :=
  fst (run (constructor errorObserver) [CallConnect; OnConnect]).

Definition pending_hello (errorObserver : bool) : MiniTelClient :=
  fst (step (connected_client errorObserver) CallSendHello).

Definition hello_ack_999 : Buffer := envelope_of RESPONSES.HELLO_ACK 999 [].
Definition dump_failed_3 : Buffer := envelope_of RESPONSES.DUMP_FAILED 3 [].
Definition dump_ok_3 : Buffer := envelope_of RESPONSES.DUMP_OK 3 [x41].

(** HELLO answered by HELLO_ACK, then DUMP answered by DUMP_FAILED. *)
Definition hello_then_failed_dump : list Action :=
  [CallSendHello; OnData hello_ack_1; CallSendDump; OnData dump_failed_3].

(** [framed expected stream frames tail]: the byte stream is a sequence of
    complete envelopes, each decoding to a frame with nonce [expected],
    followed by a tail that holds no complete envelope. *)
Inductive framed (expected : Z) : Buffer -> list Frame -> Buffer -> Prop :=
| framed_tail (tail : Buffer) :
    incomplete tail = true -> framed expected tail [] tail
| framed_envelope (envelope : Buffer) (frame : Frame) (stream : Buffer)
    (frames : list Frame) (tail : Buffer) :
    is_envelope envelope = true ->
    decodeFrame envelope = Ok frame ->
    nonce frame = expected ->
    framed expected stream frames tail ->
    framed expected (envelope ++ stream) (frame :: frames) tail.

(** The frame that a correct envelope of [code], [n] and [payload]
    decodes to. *)
Definition frame_of (code n : Z) (payload : Buffer) : Frame :=
  mkFrame code n payload (sha256 (frame_content code n payload)) true.

Definition dump_ok_1 : Buffer := envelope_of RESPONSES.DUMP_OK 1 [x41].


(** The envelope around a binary frame: its Base64 text behind the
    two-byte count of that text. *)
Definition wrap_binary (binaryFrame : Buffer) : Buffer :=
  be16 (Z.of_nat (length (from_ascii (base64_encode binaryFrame))))
  ++ from_ascii (base64_encode binaryFrame).

(** A byte with its high bit set. *)
Definition set_high_bit (b : byte) : byte :=
  byte_of_Z (Z.lor (byte_to_Z b) 0x80).

(** Whether ['error'] has a listener: one of the application, or the
    [errorHandler] of a pending call. *)
Definition has_error_listener (c : MiniTelClient) : bool :=
  errorObserver c || negb (Nat.eqb (length (exchanges c)) 0).

(** The DUMP_OK frames among those received. *)
Definition count_dump_ok (frames : list Frame) : Z :=
  Z.of_nat (length (filter (fun f => cmd f =? RESPONSES.DUMP_OK) frames)).

(** An ['error'] event among the effects. *)
Definition is_error_event (e : Effect) : bool :=
  match e with
  | Emit (error_event _) => true
  | _ => false
  end.

(** The exchanges whose [responseHandler] accepts the frame. *)
Definition accepting (frame : Frame) (xs : list Exchange) : list Exchange :=
  filter (fun x => includes (expectedCodes x) (cmd frame)) xs.

(** The client after a frame with the expected nonce was handed over. *)
Definition after_frame (c : MiniTelClient) (frame : Frame) : MiniTelClient :=
  fst (emit_frameReceived
         (if cmd frame =? RESPONSES.DUMP_OK
          then set_dumpCounter (dumpCounter c + 1) c
          else c)
         frame).

(** A connected client with a socket, no call pending and nothing
    buffered. *)
Definition idle (c : MiniTelClient) : Prop :=
  isConnected c = true /\ socket c = true
  /\ exchanges c = [] /\ incomingBuffer c = [].

(** The sequence that the application runs, with the server's three
    answers: HELLO, then DUMP twice. *)
Definition hello_dump_dump (answer1 answer2 answer3 : Buffer) : list Action :=
  [CallSendHello; OnData answer1;
   CallSendDump; OnData answer2;
   CallSendDump; OnData answer3].

(** HELLO_ACK at nonce 3. *)
Definition hello_ack_3 : Buffer := envelope_of RESPONSES.HELLO_ACK 3 [].

(** HELLO_ACK at nonce 1 with a payload that is not UTF-8. *)
Definition hello_ack_1_raw : Buffer :=
  envelope_of RESPONSES.HELLO_ACK 1 [xff; xfe].

(** DUMP_OK at nonce 5 carrying the text [CODE]. *)
Definition dump_ok_5 : Buffer :=
  envelope_of RESPONSES.DUMP_OK 5 [x43; x4f; x44; x45].
(* ================================================================== *)
(** * Properties *)

(** ** Bytes *)

Lemma byte_to_Z_range (b : byte) : 0 <= byte_to_Z b < 256.
Proof.
  unfold byte_to_Z. pose proof (Byte.to_N_bounded b). lia.
Qed.

Lemma byte_of_to_Z (b : byte) : byte_of_Z (byte_to_Z b) = b.
Proof.
  unfold byte_of_Z. rewrite Z.mod_small by apply byte_to_Z_range.
  unfold byte_to_Z. rewrite N2Z.id, Byte.of_to_N. reflexivity.
Qed.

Lemma byte_to_of_Z (z : Z) : 0 <= z < 256 -> byte_to_Z (byte_of_Z z) = z.
Proof.
  intros Hz. unfold byte_of_Z. rewrite Z.mod_small by assumption.
  destruct (Byte.of_N (Z.to_N z)) as [b|] eqn:E.
  - apply Byte.to_of_N in E. unfold byte_to_Z. rewrite E. lia.
  - apply Byte.of_N_None_iff in E. lia.
Qed.

Lemma byte_eqb_eq (a b : byte) : byte_eqb a b = true <-> a = b.
Proof.
  unfold byte_eqb. split; [apply Byte.byte_dec_bl | apply Byte.byte_dec_lb].
Qed.

Lemma all_bytes_complete (b : byte) : In b all_bytes.
Proof.
  unfold all_bytes. apply in_map_iff.
  exists (Z.to_nat (byte_to_Z b)). pose proof (byte_to_Z_range b). split.
  - rewrite Z2Nat.id by lia. apply byte_of_to_Z.
  - apply in_seq. lia.
Qed.

Lemma forall_byte (P : byte -> bool) :
  forallb P all_bytes = true -> forall a, P a = true.
Proof.
  intros H a. rewrite forallb_forall in H. apply H, all_bytes_complete.
Qed.

Lemma forall_byte2 (P : byte -> byte -> bool) :
  forallb (fun a => forallb (P a) all_bytes) all_bytes = true ->
  forall a b, P a b = true.
Proof.
  intros H a b. apply (forall_byte (P a)). apply (forall_byte _ H).
Qed.

Lemma equals_eq (a b : Buffer) : equals a b = true <-> a = b.
Proof.
  revert b. induction a as [|x a IH]; intros [|y b]; simpl;
    try (split; [discriminate | discriminate]); try tauto.
  rewrite andb_true_iff, byte_eqb_eq, IH. split.
  - intros [-> ->]. reflexivity.
  - intros E. inversion E. auto.
Qed.

(** ** Base64 *)

Lemma list_ind3 (A : Type) (P : list A -> Prop) :
  P [] -> (forall a, P [a]) -> (forall a b, P [a; b]) ->
  (forall a b c l, P l -> P (a :: b :: c :: l)) ->
  forall l, P l.
Proof.
  intros H0 H1 H2 H3.
  fix IH 1. intros [|a [|b [|c l]]].
  - exact H0.
  - apply H1.
  - apply H2.
  - apply H3. apply IH.
Qed.

Lemma unbase64_enc1 a : unbase64 (enc1 a) = Some (sextet1 a).
Proof.
  pose (P := fun a => match unbase64 (enc1 a) with
                      | Some v => v =? sextet1 a
                      | None => false
                      end).
  assert (H : P a = true) by (apply forall_byte; vm_compute; reflexivity).
  unfold P in H. destruct (unbase64 (enc1 a)); [|discriminate].
  apply Z.eqb_eq in H. congruence.
Qed.

Lemma unbase64_enc4 c : unbase64 (enc4 c) = Some (sextet4 c).
Proof.
  pose (P := fun c => match unbase64 (enc4 c) with
                      | Some v => v =? sextet4 c
                      | None => false
                      end).
  assert (H : P c = true) by (apply forall_byte; vm_compute; reflexivity).
  unfold P in H. destruct (unbase64 (enc4 c)); [|discriminate].
  apply Z.eqb_eq in H. congruence.
Qed.

Lemma unbase64_enc2 a b : unbase64 (enc2 a b) = Some (sextet2 a b).
Proof.
  pose (P := fun a b => match unbase64 (enc2 a b) with
                        | Some v => v =? sextet2 a b
                        | None => false
                        end).
  assert (H : P a b = true) by (apply forall_byte2; vm_compute; reflexivity).
  unfold P in H. destruct (unbase64 (enc2 a b)); [|discriminate].
  apply Z.eqb_eq in H. congruence.
Qed.

Lemma unbase64_enc3 b c : unbase64 (enc3 b c) = Some (sextet3 b c).
Proof.
  pose (P := fun b c => match unbase64 (enc3 b c) with
                        | Some v => v =? sextet3 b c
                        | None => false
                        end).
  assert (H : P b c = true) by (apply forall_byte2; vm_compute; reflexivity).
  unfold P in H. destruct (unbase64 (enc3 b c)); [|discriminate].
  apply Z.eqb_eq in H. congruence.
Qed.

Lemma dec1_sextets a b : dec1 (sextet1 a) (sextet2 a b) = a.
Proof.
  apply byte_eqb_eq.
  apply (forall_byte2 (fun a b => byte_eqb (dec1 (sextet1 a) (sextet2 a b)) a)).
  vm_compute. reflexivity.
Qed.

(** [dec2] reads the low four bits of the second value only, which come
    from the second byte. *)
Lemma sextet2_low a b :
  Z.land (sextet2 a b) 0x0f = Z.shiftr (byte_to_Z b) 4.
Proof.
  apply Z.eqb_eq.
  apply (forall_byte2 (fun a b =>
           Z.land (sextet2 a b) 0x0f =? Z.shiftr (byte_to_Z b) 4)).
  vm_compute. reflexivity.
Qed.

Lemma dec2_sextets a b c : dec2 (sextet2 a b) (sextet3 b c) = b.
Proof.
  unfold dec2. rewrite sextet2_low.
  apply byte_eqb_eq.
  apply (forall_byte2 (fun b c =>
           byte_eqb (byte_of_Z (Z.lor (Z.shiftl (Z.shiftr (byte_to_Z b) 4) 4)
                                      (Z.shiftr (Z.land (sextet3 b c) 0x3c) 2))) b)).
  vm_compute. reflexivity.
Qed.

Lemma sextet3_low b c :
  Z.land (sextet3 b c) 0x03 = Z.shiftr (byte_to_Z c) 6.
Proof.
  apply Z.eqb_eq.
  apply (forall_byte2 (fun b c =>
           Z.land (sextet3 b c) 0x03 =? Z.shiftr (byte_to_Z c) 6)).
  vm_compute. reflexivity.
Qed.

Lemma dec3_sextets b c : dec3 (sextet3 b c) (sextet4 c) = c.
Proof.
  unfold dec3. rewrite sextet3_low.
  apply byte_eqb_eq.
  apply (forall_byte (fun c =>
           byte_eqb (byte_of_Z (Z.lor (Z.shiftl (Z.shiftr (byte_to_Z c) 6) 6)
                                      (Z.land (sextet4 c) 0x3f))) c)).
  vm_compute. reflexivity.
Qed.

Lemma sextets_pad s : sextets (pad_char :: s) = [].
Proof. reflexivity. Qed.

Lemma sextets_value c v s :
  unbase64 c = Some v -> sextets (c :: s) = v :: sextets s.
Proof. intros H. cbn [sextets]. rewrite H. reflexivity. Qed.

Lemma sextets_group a b c s :
  sextets (enc1 a :: enc2 a b :: enc3 b c :: enc4 c :: s)
  = sextet1 a :: sextet2 a b :: sextet3 b c :: sextet4 c :: sextets s.
Proof.
  rewrite (sextets_value _ _ _ (unbase64_enc1 a)), (sextets_value _ _ _ (unbase64_enc2 a b)),
    (sextets_value _ _ _ (unbase64_enc3 b c)), (sextets_value _ _ _ (unbase64_enc4 c)).
  reflexivity.
Qed.

(** Decoding undoes encoding. *)
Lemma base64_decode_encode (bs : Buffer) :
  base64_decode (base64_encode bs) = bs.
Proof.
  unfold base64_decode.
  induction bs as [|a|a b|a b c l IH] using list_ind3.
  - reflexivity.
  - cbn [base64_encode].
    rewrite (sextets_value _ _ _ (unbase64_enc1 a)),
      (sextets_value _ _ _ (unbase64_enc2 a x00)), sextets_pad.
    cbn [unsextets]. rewrite dec1_sextets. reflexivity.
  - cbn [base64_encode].
    rewrite (sextets_value _ _ _ (unbase64_enc1 a)),
      (sextets_value _ _ _ (unbase64_enc2 a b)),
      (sextets_value _ _ _ (unbase64_enc3 b x00)), sextets_pad.
    cbn [unsextets]. rewrite dec1_sextets, dec2_sextets. reflexivity.
  - cbn [base64_encode]. rewrite sextets_group. cbn [unsextets].
    rewrite dec1_sextets, dec2_sextets, dec3_sextets, IH. reflexivity.
Qed.

Lemma base64_encode_length (bs : Buffer) :
  length (base64_encode bs) = (4 * ((length bs + 2) / 3))%nat.
Proof.
  induction bs as [|a|a b|a b c l IH] using list_ind3; try reflexivity.
  cbn [base64_encode length]. rewrite IH.
  replace (S (S (S (length l))) + 2)%nat with (1 * 3 + (length l + 2))%nat by lia.
  rewrite Nat.div_add_l by lia. lia.
Qed.

Lemma base64_char_clean v : ascii_clean (base64_char v) = true.
Proof.
  unfold base64_char.
  destruct (nth_in_or_default (Z.to_nat v) base64_table pad_char) as [H | ->].
  - revert H. generalize (nth (Z.to_nat v) base64_table pad_char). intros c H.
    assert (F : forallb ascii_clean base64_table = true) by (vm_compute; reflexivity).
    rewrite forallb_forall in F. auto.
  - vm_compute. reflexivity.
Qed.

Lemma base64_encode_clean (bs : Buffer) :
  forallb ascii_clean (base64_encode bs) = true.
Proof.
  assert (Hp : ascii_clean pad_char = true) by (vm_compute; reflexivity).
  induction bs as [|a|a b|a b c l IH] using list_ind3;
    cbn [base64_encode forallb];
    unfold enc1, enc2, enc3, enc4;
    rewrite ?base64_char_clean, ?Hp, ?IH; reflexivity.
Qed.

Lemma toString_from_ascii (s : list ascii) :
  forallb ascii_clean s = true -> toString_ascii (from_ascii s) = s.
Proof.
  unfold toString_ascii, from_ascii. induction s as [|c s IH]; simpl; intros H.
  - reflexivity.
  - apply andb_true_iff in H. destruct H as [Hc Hs].
    unfold ascii_clean in Hc. apply Ascii.eqb_eq in Hc.
    rewrite Hc, IH by assumption. reflexivity.
Qed.

Lemma from_ascii_length (s : list ascii) : length (from_ascii s) = length s.
Proof. apply length_map. Qed.

(** ** Buffers *)

Lemma alloc_length n : length (alloc n) = n.
Proof. apply repeat_length. Qed.

Lemma alloc_app n m : alloc (n + m) = alloc n ++ alloc m.
Proof. apply repeat_app. Qed.

Lemma set_bytes_at (pre old post bs : Buffer) :
  length bs = length old ->
  set_bytes bs (length pre) (pre ++ old ++ post) = pre ++ bs ++ post.
Proof.
  intros H. unfold set_bytes.
  rewrite firstn_app, firstn_all, Nat.sub_diag, firstn_O, app_nil_r.
  rewrite skipn_app, (skipn_all2 pre) by lia.
  replace (length pre + length bs - length pre)%nat with (length old) by lia.
  rewrite skipn_app, skipn_all, Nat.sub_diag. reflexivity.
Qed.

Lemma copy_at (pre old post source : Buffer) :
  length source = length old ->
  copy source (pre ++ old ++ post) (length pre) = pre ++ source ++ post.
Proof.
  intros H. unfold copy.
  rewrite firstn_all2 by (rewrite !length_app; lia).
  apply set_bytes_at, H.
Qed.

Lemma byte_to_of_Z_mod (z : Z) : byte_to_Z (byte_of_Z z) = z mod 256.
Proof.
  rewrite <- (byte_to_of_Z (z mod 256)) by (apply Z.mod_pos_bound; lia).
  unfold byte_of_Z. rewrite Z.mod_mod by lia. reflexivity.
Qed.

Lemma in_range_iff lo v hi : in_range lo v hi = true <-> lo <= v <= hi.
Proof. unfold in_range. rewrite andb_true_iff, !Z.leb_le. tauto. Qed.

Lemma writeUInt8_at (v : Z) (pre : Buffer) (old : byte) (post : Buffer) :
  0 <= v <= 255 ->
  writeUInt8 v (length pre) (pre ++ old :: post)
  = Ok (pre ++ byte_of_Z v :: post).
Proof.
  intros Hv. unfold writeUInt8.
  rewrite (proj2 (in_range_iff 0 v 255)) by assumption. cbn [negb].
  destruct (Nat.ltb_spec (length (pre ++ old :: post)) (length pre + 1)) as [L|_].
  - rewrite length_app in L. simpl in L. lia.
  - f_equal. apply (set_bytes_at pre [old] post [byte_of_Z v]). reflexivity.
Qed.

Lemma writeUInt16BE_at (v : Z) (pre old post : Buffer) :
  0 <= v <= 65535 -> length old = 2%nat ->
  writeUInt16BE v (length pre) (pre ++ old ++ post)
  = Ok (pre ++ be16 v ++ post).
Proof.
  intros Hv Ho. unfold writeUInt16BE.
  rewrite (proj2 (in_range_iff 0 v 65535)) by assumption. cbn [negb].
  destruct (Nat.ltb_spec (length (pre ++ old ++ post)) (length pre + 2)) as [L|_].
  - rewrite !length_app in L. lia.
  - f_equal. apply set_bytes_at. rewrite Ho. reflexivity.
Qed.

Lemma writeUInt32BE_at (v : Z) (pre old post : Buffer) :
  0 <= v <= 4294967295 -> length old = 4%nat ->
  writeUInt32BE v (length pre) (pre ++ old ++ post)
  = Ok (pre ++ be32 v ++ post).
Proof.
  intros Hv Ho. unfold writeUInt32BE.
  rewrite (proj2 (in_range_iff 0 v 4294967295)) by assumption. cbn [negb].
  destruct (Nat.ltb_spec (length (pre ++ old ++ post)) (length pre + 4)) as [L|_].
  - rewrite !length_app in L. lia.
  - f_equal. apply set_bytes_at. rewrite Ho. reflexivity.
Qed.

Lemma write_out_of_range_8 v offset buf :
  ~ 0 <= v <= 255 -> writeUInt8 v offset buf = Err RangeError.
Proof.
  intros H. unfold writeUInt8.
  destruct (in_range 0 v 255) eqn:E; [apply in_range_iff in E; tauto | reflexivity].
Qed.

Lemma write_out_of_range_16 v offset buf :
  ~ 0 <= v <= 65535 -> writeUInt16BE v offset buf = Err RangeError.
Proof.
  intros H. unfold writeUInt16BE.
  destruct (in_range 0 v 65535) eqn:E; [apply in_range_iff in E; tauto | reflexivity].
Qed.

Lemma write_out_of_range_32 v offset buf :
  ~ 0 <= v <= 4294967295 -> writeUInt32BE v offset buf = Err RangeError.
Proof.
  intros H. unfold writeUInt32BE.
  destruct (in_range 0 v 4294967295) eqn:E; [apply in_range_iff in E; tauto | reflexivity].
Qed.

Lemma read_be16 (v : Z) (rest : Buffer) :
  0 <= v <= 65535 -> readUInt16BE (be16 v ++ rest) 0 = Ok v.
Proof.
  intros Hv. unfold readUInt16BE, be16. cbn [skipn app].
  rewrite !byte_to_of_Z_mod, Z.shiftr_div_pow2 by lia.
  f_equal. change (2 ^ 8) with 256.
  pose proof (Z.div_mod v 256). pose proof (Z.mod_pos_bound v 256).
  rewrite (Z.mod_small (v / 256)) by (split; [apply Z.div_pos | apply Z.div_lt_upper_bound]; lia).
  lia.
Qed.

Lemma read_be32 (v : Z) (b : byte) (rest : Buffer) :
  0 <= v <= 4294967295 -> readUInt32BE (b :: be32 v ++ rest) 1 = Ok v.
Proof.
  intros Hv. unfold readUInt32BE, be32. cbn [skipn app].
  rewrite !byte_to_of_Z_mod, !Z.shiftr_div_pow2 by lia.
  f_equal.
  change (2 ^ 24) with 16777216. change (2 ^ 16) with 65536.
  change (2 ^ 8) with 256.
  Z.div_mod_to_equations. lia.
Qed.

(** ** SHA-256 *)

Lemma sha256_length (msg : Buffer) : length (sha256 msg) = 32%nat.
Proof. reflexivity. Qed.

Arguments sha256 : simpl never.

(** ** The frame codec *)

Lemma calculateHash_ok cmd nonce payload :
  0 <= cmd <= 255 -> 0 <= nonce <= 4294967295 ->
  calculateHash cmd nonce payload = Ok (sha256 (frame_content cmd nonce payload)).
Proof.
  intros Hc Hn. unfold calculateHash.
  change (1 + PROTOCOL_CONSTANTS.NONCE_LENGTH + length payload)%nat
    with (1 + (4 + length payload))%nat.
  rewrite (alloc_app 1), (alloc_app 4).
  pose proof (writeUInt8_at cmd [] x00 (alloc 4 ++ alloc (length payload)) Hc) as W8.
  cbn [length app] in W8. change (alloc 1) with [x00]. cbn [app].
  rewrite W8. cbn [bind].
  pose proof (writeUInt32BE_at nonce [byte_of_Z cmd] (alloc 4)
                (alloc (length payload)) Hn eq_refl) as W32.
  cbn [length app] in W32. change (0 + 1)%nat with 1%nat.
  rewrite W32. cbn [bind]. f_equal. f_equal. unfold frame_content.
  destruct (Nat.ltb_spec 0 (length payload)) as [L|L].
  - pose proof (copy_at (byte_of_Z cmd :: be32 nonce) (alloc (length payload))
                  [] payload) as C.
    rewrite alloc_length, !app_nil_r in C. specialize (C eq_refl).
    cbn [length app be32] in C. cbn [app be32]. exact C.
  - destruct payload; [reflexivity | simpl in L; lia].
Qed.

Lemma frame_content_length cmd nonce payload :
  length (frame_content cmd nonce payload) = (5 + length payload)%nat.
Proof. unfold frame_content. cbn [length be32 app]. reflexivity. Qed.

Lemma binary_frame_length cmd nonce payload :
  length (binary_frame cmd nonce payload) = (37 + length payload)%nat.
Proof.
  unfold binary_frame.
  rewrite length_app, frame_content_length, sha256_length. lia.
Qed.

Lemma wire_base64_length cmd nonce payload :
  length (wire_base64 cmd nonce payload)
  = (4 * ((length payload + 39) / 3))%nat.
Proof.
  unfold wire_base64.
  rewrite from_ascii_length, base64_encode_length, binary_frame_length.
  f_equal. f_equal. lia.
Qed.

(** The binary frame that [encodeFrame] assembles in place. *)
Lemma encodeFrame_binary cmd nonce payload (hash : Buffer) :
  0 <= cmd <= 255 -> 0 <= nonce <= 4294967295 -> length hash = 32%nat ->
  (binaryFrame <- writeUInt8 cmd 0
      (alloc (PROTOCOL_CONSTANTS.CMD_LENGTH + PROTOCOL_CONSTANTS.NONCE_LENGTH
              + length payload + PROTOCOL_CONSTANTS.HASH_LENGTH)) ;;
   binaryFrame <- writeUInt32BE nonce (0 + PROTOCOL_CONSTANTS.CMD_LENGTH) binaryFrame ;;
   let '(binaryFrame, offset) :=
     if (0 <? length payload)%nat
     then (copy payload binaryFrame
             (0 + PROTOCOL_CONSTANTS.CMD_LENGTH + PROTOCOL_CONSTANTS.NONCE_LENGTH),
           (0 + PROTOCOL_CONSTANTS.CMD_LENGTH + PROTOCOL_CONSTANTS.NONCE_LENGTH
            + length payload)%nat)
     else (binaryFrame,
           (0 + PROTOCOL_CONSTANTS.CMD_LENGTH + PROTOCOL_CONSTANTS.NONCE_LENGTH)%nat) in
   Ok (copy hash binaryFrame offset))
  = Ok (frame_content cmd nonce payload ++ hash).
Proof.
  intros Hc Hn Hh.
  change (PROTOCOL_CONSTANTS.CMD_LENGTH + PROTOCOL_CONSTANTS.NONCE_LENGTH
          + length payload + PROTOCOL_CONSTANTS.HASH_LENGTH)%nat
    with (1 + 4 + length payload + 32)%nat.
  replace (1 + 4 + length payload + 32)%nat
    with (1 + (4 + (length payload + 32)))%nat by lia.
  rewrite (alloc_app 1), (alloc_app 4), (alloc_app (length payload)).
  pose proof (writeUInt8_at cmd [] x00
                (alloc 4 ++ alloc (length payload) ++ alloc 32) Hc) as W8.
  cbn [length app] in W8. change (alloc 1) with [x00]. cbn [app].
  rewrite W8. cbn [bind].
  pose proof (writeUInt32BE_at nonce [byte_of_Z cmd] (alloc 4)
                (alloc (length payload) ++ alloc 32) Hn eq_refl) as W32.
  cbn [length app] in W32.
  change (0 + PROTOCOL_CONSTANTS.CMD_LENGTH)%nat with 1%nat.
  rewrite W32. cbn [bind].
  change (1 + PROTOCOL_CONSTANTS.NONCE_LENGTH)%nat with 5%nat.
  pose proof (copy_at (byte_of_Z cmd :: be32 nonce) (alloc (length payload))
                (alloc 32) payload) as Cp.
  rewrite alloc_length in Cp. specialize (Cp eq_refl).
  pose proof (copy_at (byte_of_Z cmd :: be32 nonce ++ payload) (alloc 32) [] hash) as Ch.
  rewrite alloc_length, !app_nil_r in Ch. specialize (Ch Hh).
  cbn [length app be32] in Cp, Ch.
  unfold frame_content. cbn [app be32] in *.
  destruct (Nat.ltb_spec 0 (length payload)) as [L|L].
  - rewrite Cp. f_equal. exact Ch.
  - destruct payload; [|simpl in L; lia]. f_equal. exact Ch.
Qed.

(** [encodeFrame] in closed form: within the ranges of its arguments it
    returns the length-prefixed Base64 text, unless that text is longer
    than the 16-bit prefix can count, in which case the write of the
    prefix throws. *)
Lemma encodeFrame_closed_form cmd nonce payload :
  0 <= cmd <= 255 -> 0 <= nonce <= 4294967295 ->
  Z.of_nat (length payload) <= 65535 ->
  encodeFrame cmd nonce payload
  = if Z.of_nat (length (wire_base64 cmd nonce payload)) <=? 65535
    then Ok (be16 (Z.of_nat (length (wire_base64 cmd nonce payload)))
             ++ wire_base64 cmd nonce payload)
    else Err RangeError.
Proof.
  intros Hc Hn Hp. unfold encodeFrame.
  destruct (Z.ltb_spec PROTOCOL_CONSTANTS.MAX_PAYLOAD_SIZE
                       (Z.of_nat (length payload))) as [L|_].
  { unfold PROTOCOL_CONSTANTS.MAX_PAYLOAD_SIZE in L. lia. }
  cbn [negb]. rewrite calculateHash_ok by assumption. cbn [bind].
  pose proof (encodeFrame_binary cmd nonce payload
                (sha256 (frame_content cmd nonce payload)) Hc Hn
                (sha256_length _)) as B.
  destruct (writeUInt8 cmd 0 _) as [b1|e1]; [|discriminate B].
  cbn [bind] in B |- *.
  destruct (writeUInt32BE nonce _ b1) as [b2|e2]; [|discriminate B].
  cbn [bind] in B |- *.
  destruct (if (0 <? length payload)%nat then _ else _) as [b3 off].
  injection B as B. rewrite B.
  change (from_ascii (base64_encode _)) with (wire_base64 cmd nonce payload).
  set (w := wire_base64 cmd nonce payload).
  destruct (Z.leb_spec (Z.of_nat (length w)) 65535) as [Hw|Hw].
  - rewrite (alloc_app 2).
    pose proof (writeUInt16BE_at (Z.of_nat (length w)) [] (alloc 2)
                  (alloc (length w)) (conj (Nat2Z.is_nonneg _) Hw) eq_refl) as W.
    cbn [length app] in W. unfold PROTOCOL_CONSTANTS.LENGTH_PREFIX_SIZE.
    rewrite W. cbn [bind]. f_equal.
    pose proof (copy_at (be16 (Z.of_nat (length w))) (alloc (length w)) [] w) as C.
    rewrite alloc_length, !app_nil_r in C. specialize (C eq_refl).
    exact C.
  - rewrite write_out_of_range_16 by lia. reflexivity.
Qed.

(** The Base64 text fits the length prefix exactly up to 49112 payload
    bytes. *)
Lemma wire_base64_fits cmd nonce payload :
  Z.of_nat (length (wire_base64 cmd nonce payload)) <= 65535
  <-> Z.of_nat (length payload) <= 49112.
Proof.
  rewrite wire_base64_length.
  rewrite Nat2Z.inj_mul, Nat2Z.inj_div, Nat2Z.inj_add.
  change (Z.of_nat 4) with 4. change (Z.of_nat 39) with 39.
  change (Z.of_nat 3) with 3.
  pose proof (Nat2Z.is_nonneg (length payload)).
  Z.div_mod_to_equations. lia.
Qed.

Lemma encodeFrame_payload_too_large cmd nonce payload :
  65535 < Z.of_nat (length payload) ->
  encodeFrame cmd nonce payload = Err PayloadTooLarge.
Proof.
  intros H. unfold encodeFrame.
  destruct (Z.ltb_spec PROTOCOL_CONSTANTS.MAX_PAYLOAD_SIZE
                       (Z.of_nat (length payload))) as [_|L].
  - reflexivity.
  - unfold PROTOCOL_CONSTANTS.MAX_PAYLOAD_SIZE in L. lia.
Qed.

(** *** Decoding *)

Lemma byte_of_Z_mod (z : Z) : byte_of_Z (z mod 256) = byte_of_Z z.
Proof. unfold byte_of_Z. rewrite Z.mod_mod by lia. reflexivity. Qed.

Lemma u32_of_bytes_range b0 b1 b2 b3 :
  0 <= u32_of_bytes b0 b1 b2 b3 <= 4294967295.
Proof.
  unfold u32_of_bytes.
  pose proof (byte_to_Z_range b0). pose proof (byte_to_Z_range b1).
  pose proof (byte_to_Z_range b2). pose proof (byte_to_Z_range b3). lia.
Qed.

Lemma be32_u32_of_bytes b0 b1 b2 b3 :
  be32 (u32_of_bytes b0 b1 b2 b3) = [b0; b1; b2; b3].
Proof.
  pose proof (byte_to_Z_range b0). pose proof (byte_to_Z_range b1).
  pose proof (byte_to_Z_range b2). pose proof (byte_to_Z_range b3).
  unfold be32. rewrite !Z.shiftr_div_pow2 by lia.
  change (2 ^ 24) with 16777216. change (2 ^ 16) with 65536.
  change (2 ^ 8) with 256.
  rewrite <- (byte_of_Z_mod (_ / 16777216)), <- (byte_of_Z_mod (_ / 65536)),
    <- (byte_of_Z_mod (_ / 256)), <- (byte_of_Z_mod (u32_of_bytes _ _ _ _)).
  replace (u32_of_bytes b0 b1 b2 b3 / 16777216 mod 256) with (byte_to_Z b0)
    by (unfold u32_of_bytes; Z.div_mod_to_equations; lia).
  replace (u32_of_bytes b0 b1 b2 b3 / 65536 mod 256) with (byte_to_Z b1)
    by (unfold u32_of_bytes; Z.div_mod_to_equations; lia).
  replace (u32_of_bytes b0 b1 b2 b3 / 256 mod 256) with (byte_to_Z b2)
    by (unfold u32_of_bytes; Z.div_mod_to_equations; lia).
  replace (u32_of_bytes b0 b1 b2 b3 mod 256) with (byte_to_Z b3)
    by (unfold u32_of_bytes; Z.div_mod_to_equations; lia).
  rewrite !byte_of_to_Z. reflexivity.
Qed.

(** The recomputed hash covers command, nonce and payload, which is all
    of the binary frame but its last 32 bytes. *)
Lemma frame_content_parsed (binaryFrame : Buffer) :
  (37 <= length binaryFrame)%nat ->
  frame_content (parsed_cmd binaryFrame) (parsed_nonce binaryFrame)
                (parsed_payload binaryFrame)
  = hashed_part binaryFrame.
Proof.
  intros H.
  destruct binaryFrame as [|b0 [|b1 [|b2 [|b3 [|b4 rest]]]]];
    try (simpl in H; lia).
  unfold frame_content, parsed_cmd, parsed_nonce, parsed_payload, hashed_part.
  cbn [nth skipn]. rewrite be32_u32_of_bytes, byte_of_to_Z.
  cbn [length app] in *.
  replace (S (S (S (S (S (length rest))))) - 32)%nat
    with (5 + (length rest - 32))%nat by lia.
  replace (S (S (S (S (S (length rest))))) - 37)%nat
    with (length rest - 32)%nat by lia.
  reflexivity.
Qed.

Lemma readUInt16BE_declared (frameData : Buffer) :
  (2 <= length frameData)%nat ->
  readUInt16BE frameData 0 = Ok (declared_length frameData).
Proof.
  destruct frameData as [|b0 [|b1 rest]]; simpl; intros H; try lia.
  reflexivity.
Qed.

Lemma declared_length_range (frameData : Buffer) :
  0 <= declared_length frameData <= 65535.
Proof.
  unfold declared_length.
  pose proof (byte_to_Z_range (nth 0 frameData x00)).
  pose proof (byte_to_Z_range (nth 1 frameData x00)). lia.
Qed.

Lemma readUInt8_nth (buf : Buffer) :
  (1 <= length buf)%nat -> readUInt8 buf 0 = Ok (byte_to_Z (nth 0 buf x00)).
Proof. destruct buf; simpl; intros H; [lia | reflexivity]. Qed.

Lemma readUInt32BE_nth (buf : Buffer) :
  (5 <= length buf)%nat ->
  readUInt32BE buf (0 + PROTOCOL_CONSTANTS.CMD_LENGTH)
  = Ok (u32_of_bytes (nth 1 buf x00) (nth 2 buf x00)
                     (nth 3 buf x00) (nth 4 buf x00)).
Proof.
  destruct buf as [|b0 [|b1 [|b2 [|b3 [|b4 rest]]]]]; simpl; intros H;
    try lia. reflexivity.
Qed.

Lemma decodeFrame_with_closed_form
    (from_base64 : list ascii -> option Buffer) (frameData : Buffer) :
  decodeFrame_with from_base64 frameData
  = if (length frameData <? 2)%nat then Err (Protocol MALFORMED_FRAME)
    else if Z.of_nat (length frameData) <? 2 + declared_length frameData
         then Err (Protocol MALFORMED_FRAME)
         else match from_base64 (base64_region frameData) with
              | None => Err (Protocol INVALID_BASE64)
              | Some binaryFrame => decode_binary binaryFrame
              end.
Proof.
  unfold decodeFrame_with, decodeFrame_try.
  change PROTOCOL_CONSTANTS.LENGTH_PREFIX_SIZE with 2%nat.
  destruct (Nat.ltb_spec (length frameData) 2) as [|L2]; [reflexivity|].
  cbn [negb]. rewrite readUInt16BE_declared by assumption. cbn [bind].
  change (Z.of_nat 2) with 2.
  destruct (Z.ltb_spec (Z.of_nat (length frameData))
                       (2 + declared_length frameData)) as [|LD];
    [reflexivity|].
  cbn [negb]. unfold subarray.
  replace (2 + Z.to_nat (declared_length frameData) - 2)%nat
    with (Z.to_nat (declared_length frameData)) by lia.
  fold (base64_region frameData).
  destruct (from_base64 (base64_region frameData)) as [bin|]; [|reflexivity].
  cbn [bind]. unfold decode_binary.
  change (PROTOCOL_CONSTANTS.CMD_LENGTH + PROTOCOL_CONSTANTS.NONCE_LENGTH
          + PROTOCOL_CONSTANTS.HASH_LENGTH)%nat with 37%nat.
  destruct (Nat.ltb_spec (length bin) 37) as [|L37]; [reflexivity|].
  cbn [negb].
  pose proof (frame_content_parsed bin L37) as FC.
  rewrite (readUInt8_nth bin) by lia. cbn [bind].
  rewrite (readUInt32BE_nth bin) by lia. cbn [bind].
  fold (parsed_cmd bin). fold (parsed_nonce bin).
  change (0 + PROTOCOL_CONSTANTS.CMD_LENGTH + PROTOCOL_CONSTANTS.NONCE_LENGTH)%nat
    with 5%nat.
  match goal with
  | |- context [calculateHash _ _ ?p] =>
      replace p with (parsed_payload bin)
  end.
  2:{ unfold parsed_payload, subarray.
      replace (5 + (length bin - 37) - 5)%nat with (length bin - 37)%nat by lia.
      destruct (Nat.ltb_spec 0 (length bin - 37)) as [|Z0]; [reflexivity|].
      replace (length bin - 37)%nat with 0%nat by lia. reflexivity. }
  rewrite calculateHash_ok; cycle 1.
  { pose proof (byte_to_Z_range (nth 0 bin x00)). unfold parsed_cmd. lia. }
  { apply u32_of_bytes_range. }
  cbn [bind]. rewrite FC.
  unfold subarray_from.
  replace (5 + (length bin - 37))%nat with (length bin - 32)%nat by lia.
  fold (stored_hash bin).
  destruct (equals (stored_hash bin) (sha256 (hashed_part bin))); reflexivity.
Qed.

Lemma decodeFrame_closed_form (frameData : Buffer) :
  decodeFrame frameData
  = if (length frameData <? 2)%nat then Err (Protocol MALFORMED_FRAME)
    else if Z.of_nat (length frameData) <? 2 + declared_length frameData
         then Err (Protocol MALFORMED_FRAME)
         else decode_binary (base64_decode (base64_region frameData)).
Proof. apply decodeFrame_with_closed_form. Qed.

(** *** Round trip *)

Lemma u32_of_be32 (v : Z) :
  0 <= v <= 4294967295 ->
  u32_of_bytes (byte_of_Z (Z.shiftr v 24)) (byte_of_Z (Z.shiftr v 16))
               (byte_of_Z (Z.shiftr v 8)) (byte_of_Z v) = v.
Proof.
  intros Hv. unfold u32_of_bytes.
  rewrite !byte_to_of_Z_mod, !Z.shiftr_div_pow2 by lia.
  change (2 ^ 24) with 16777216. change (2 ^ 16) with 65536.
  change (2 ^ 8) with 256.
  Z.div_mod_to_equations. lia.
Qed.

Lemma declared_length_be16 (v : Z) (rest : Buffer) :
  0 <= v <= 65535 -> declared_length (be16 v ++ rest) = v.
Proof.
  intros Hv. unfold declared_length, be16. cbn [nth app].
  rewrite !byte_to_of_Z_mod, Z.shiftr_div_pow2 by lia.
  change (2 ^ 8) with 256.
  Z.div_mod_to_equations. lia.
Qed.

Lemma decode_binary_frame cmd nonce payload :
  0 <= cmd <= 255 -> 0 <= nonce <= 4294967295 ->
  decode_binary (binary_frame cmd nonce payload)
  = Ok (mkFrame cmd nonce payload (sha256 (frame_content cmd nonce payload)) true).
Proof.
  intros Hc Hn. unfold decode_binary.
  pose proof (binary_frame_length cmd nonce payload) as BL.
  destruct (Nat.ltb_spec (length (binary_frame cmd nonce payload)) 37) as [L|_];
    [lia|].
  assert (Hs : stored_hash (binary_frame cmd nonce payload)
               = sha256 (frame_content cmd nonce payload)).
  { unfold stored_hash. rewrite BL. unfold binary_frame.
    rewrite skipn_app, frame_content_length.
    replace (37 + length payload - 32)%nat with (5 + length payload)%nat by lia.
    rewrite skipn_all2 by (rewrite frame_content_length; lia).
    rewrite Nat.sub_diag. reflexivity. }
  assert (Hh : hashed_part (binary_frame cmd nonce payload)
               = frame_content cmd nonce payload).
  { unfold hashed_part. rewrite BL. unfold binary_frame.
    rewrite firstn_app, frame_content_length.
    replace (37 + length payload - 32)%nat with (5 + length payload)%nat by lia.
    rewrite Nat.sub_diag, firstn_O, app_nil_r.
    apply firstn_all2. rewrite frame_content_length. lia. }
  rewrite Hs, Hh, (proj2 (equals_eq _ _) eq_refl).
  f_equal. unfold parsed_frame. rewrite Hs. f_equal.
  - unfold parsed_cmd, binary_frame, frame_content. cbn [nth app].
    apply byte_to_of_Z. lia.
  - unfold parsed_nonce, binary_frame, frame_content, be32. cbn [nth app].
    apply u32_of_be32, Hn.
  - unfold parsed_payload. rewrite BL.
    replace (37 + length payload - 37)%nat with (length payload) by lia.
    unfold binary_frame, frame_content, be32. cbn [skipn app].
    rewrite firstn_app, Nat.sub_diag, firstn_all, firstn_O, app_nil_r.
    reflexivity.
Qed.

(** Up to 49112 payload bytes, decoding what [encodeFrame] returns gives
    back the command, the nonce and the payload, in a frame whose hash
    passed the check. *)
Lemma decode_encode_roundtrip cmd nonce payload :
  0 <= cmd <= 255 -> 0 <= nonce <= 4294967295 ->
  Z.of_nat (length payload) <= 49112 ->
  exists wire,
    encodeFrame cmd nonce payload = Ok wire
    /\ decodeFrame wire
       = Ok (mkFrame cmd nonce payload
                     (sha256 (frame_content cmd nonce payload)) true).
Proof.
  intros Hc Hn Hp.
  pose proof (proj2 (wire_base64_fits cmd nonce payload) Hp) as Hw.
  exists (be16 (Z.of_nat (length (wire_base64 cmd nonce payload)))
          ++ wire_base64 cmd nonce payload).
  split.
  - rewrite encodeFrame_closed_form by lia.
    destruct (Z.leb_spec (Z.of_nat (length (wire_base64 cmd nonce payload))) 65535);
      [reflexivity | lia].
  - rewrite decodeFrame_closed_form.
    set (w := wire_base64 cmd nonce payload) in *.
    assert (Hd : declared_length (be16 (Z.of_nat (length w)) ++ w)
                 = Z.of_nat (length w))
      by (apply declared_length_be16; lia).
    assert (Hr : base64_region (be16 (Z.of_nat (length w)) ++ w)
                 = base64_encode (binary_frame cmd nonce payload)).
    { unfold base64_region. rewrite Hd, Nat2Z.id.
      unfold be16. cbn [skipn app]. rewrite firstn_all.
      apply toString_from_ascii, base64_encode_clean. }
    rewrite Hd, Hr, base64_decode_encode.
    assert (Hl : length (be16 (Z.of_nat (length w)) ++ w) = (2 + length w)%nat)
      by (rewrite length_app; reflexivity).
    destruct (Nat.ltb_spec (length (be16 (Z.of_nat (length w)) ++ w)) 2); [lia|].
    destruct (Z.ltb_spec (Z.of_nat (length (be16 (Z.of_nat (length w)) ++ w)))
                         (2 + Z.of_nat (length w))); [lia|].
    apply decode_binary_frame; assumption.
Qed.

(** Past 49112 payload bytes the Base64 text is longer than 65535
    characters, the write of the length prefix throws, and no frame is
    produced although the payload is within [MAX_PAYLOAD_SIZE]. *)
Lemma encodeFrame_prefix_overflow cmd nonce payload :
  0 <= cmd <= 255 -> 0 <= nonce <= 4294967295 ->
  49112 < Z.of_nat (length payload) <= 65535 ->
  encodeFrame cmd nonce payload = Err RangeError.
Proof.
  intros Hc Hn Hp. rewrite encodeFrame_closed_form by lia.
  pose proof (wire_base64_fits cmd nonce payload) as F.
  destruct (Z.leb_spec (Z.of_nat (length (wire_base64 cmd nonce payload))) 65535);
    [lia | reflexivity].
Qed.

(** C1, at a payload length inside the documented range 0..65535: the
    round trip of [encodeFrame] and [decodeFrame] does not even start,
    because [encodeFrame] throws a [RangeError] for a 49113-byte payload
    (command HELLO, nonce 0). *)
Theorem encodeFrame_49113_bytes_throws :
  Z.of_nat (length payload_49113) <= PROTOCOL_CONSTANTS.MAX_PAYLOAD_SIZE
  /\ encodeFrame COMMANDS.HELLO 0 payload_49113 = Err RangeError
  /\ bind (encodeFrame COMMANDS.HELLO 0 payload_49113) decodeFrame
     = Err RangeError.
Proof.
  assert (L : Z.of_nat (length payload_49113) = 49113).
  { unfold payload_49113. rewrite alloc_length. apply Z2Nat.id. lia. }
  assert (E : encodeFrame COMMANDS.HELLO 0 payload_49113 = Err RangeError).
  { apply encodeFrame_prefix_overflow; unfold COMMANDS.HELLO; lia. }
  split; [unfold PROTOCOL_CONSTANTS.MAX_PAYLOAD_SIZE; lia|].
  split; [exact E|]. rewrite E. reflexivity.
Qed.

(** *** What [decodeFrame] rejects *)

Lemma decodeFrame_structurally_valid (frameData : Buffer) :
  structurally_valid frameData = true ->
  decodeFrame frameData
  = let binaryFrame := base64_decode (base64_region frameData) in
    if equals (stored_hash binaryFrame) (sha256 (hashed_part binaryFrame))
    then Ok (parsed_frame binaryFrame)
    else Err (Protocol HASH_VALIDATION_FAILURE).
Proof.
  unfold structurally_valid. rewrite !andb_true_iff.
  intros [[H2 HD] H37].
  apply Nat.leb_le in H2, H37. apply Z.leb_le in HD.
  rewrite decodeFrame_closed_form. unfold decode_binary.
  destruct (Nat.ltb_spec (length frameData) 2); [lia|].
  destruct (Z.ltb_spec (Z.of_nat (length frameData))
                       (2 + declared_length frameData)); [lia|].
  destruct (Nat.ltb_spec (length (base64_decode (base64_region frameData))) 37);
    [lia | reflexivity].
Qed.

Lemma decodeFrame_Ok_inv (frameData : Buffer) (frame : Frame) :
  decodeFrame frameData = Ok frame ->
  structurally_valid frameData = true
  /\ frame = parsed_frame (base64_decode (base64_region frameData))
  /\ stored_hash (base64_decode (base64_region frameData))
     = sha256 (hashed_part (base64_decode (base64_region frameData))).
Proof.
  rewrite decodeFrame_closed_form. unfold decode_binary, structurally_valid.
  destruct (Nat.ltb_spec (length frameData) 2); [discriminate|].
  destruct (Z.ltb_spec (Z.of_nat (length frameData))
                       (2 + declared_length frameData)); [discriminate|].
  destruct (Nat.ltb_spec (length (base64_decode (base64_region frameData))) 37);
    [discriminate|].
  destruct (equals _ _) eqn:E; [|discriminate].
  intros F. injection F as <-. apply equals_eq in E.
  repeat split; try assumption.
  rewrite !andb_true_iff. repeat split.
  - apply Nat.leb_le. assumption.
  - apply Z.leb_le. assumption.
  - apply Nat.leb_le. assumption.
Qed.

(** C2. For a wire buffer whose length prefix is complete, whose declared
    Base64 text is present and decodes to at least 37 bytes, [decodeFrame]
    recomputes SHA-256 over command, big-endian nonce and payload, fails
    with HASH_VALIDATION_FAILURE exactly when the last 32 bytes differ from
    it, and otherwise returns the parsed frame. For every input at all, a
    frame that is returned carries the hash of its own command, nonce and
    payload and is flagged valid. *)
Theorem decodeFrame_hash_check (frameData : Buffer) :
  (structurally_valid frameData = true ->
   let binaryFrame := base64_decode (base64_region frameData) in
   let recomputed :=
     sha256 (frame_content (parsed_cmd binaryFrame) (parsed_nonce binaryFrame)
                           (parsed_payload binaryFrame)) in
   (decodeFrame frameData = Err (Protocol HASH_VALIDATION_FAILURE)
    <-> stored_hash binaryFrame <> recomputed)
   /\ (stored_hash binaryFrame = recomputed ->
       decodeFrame frameData = Ok (parsed_frame binaryFrame)))
  /\ (forall frame, decodeFrame frameData = Ok frame ->
        isValid frame = true
        /\ hash frame
           = sha256 (frame_content (cmd frame) (nonce frame) (payload frame))).
Proof.
  split.
  - intros V binaryFrame recomputed.
    pose proof (decodeFrame_structurally_valid frameData V) as D.
    cbv zeta in D. fold binaryFrame in D.
    assert (H37 : (37 <= length binaryFrame)%nat).
    { unfold structurally_valid in V. rewrite !andb_true_iff in V.
      destruct V as [_ V]. apply Nat.leb_le in V. exact V. }
    assert (R : recomputed = sha256 (hashed_part binaryFrame)).
    { unfold recomputed. rewrite frame_content_parsed by assumption.
      reflexivity. }
    rewrite R, D.
    destruct (equals (stored_hash binaryFrame) (sha256 (hashed_part binaryFrame)))
      eqn:E.
    + apply equals_eq in E. split; [split|]; try congruence; discriminate.
    + assert (N : stored_hash binaryFrame <> sha256 (hashed_part binaryFrame)).
      { intros C. apply equals_eq in C. congruence. }
      split; [split|]; auto; contradiction.
  - intros frame D. apply decodeFrame_Ok_inv in D.
    destruct D as (V & -> & S). split; [reflexivity|].
    cbn [hash cmd nonce payload parsed_frame].
    rewrite frame_content_parsed; [exact S|].
    unfold structurally_valid in V. rewrite !andb_true_iff in V.
    destruct V as [_ V]. apply Nat.leb_le in V. exact V.
Qed.

Lemma decodeFrame_hash_check_witness :
  structurally_valid hello_ack_1 = true
  /\ decodeFrame hello_ack_1
     = Ok (parsed_frame (base64_decode (base64_region hello_ack_1))).
Proof.
  assert (V : structurally_valid hello_ack_1 = true) by (vm_compute; reflexivity).
  split; [exact V|].
  apply (proj1 (decodeFrame_hash_check hello_ack_1) V).
  vm_compute. reflexivity.
Defined.

(** C8. [decodeFrame] fails with MALFORMED_FRAME when the buffer has fewer
    than 2 bytes, and when the declared length exceeds the number of bytes
    that follow the prefix; no frame is produced. *)
Theorem decodeFrame_malformed (frameData : Buffer) :
  (length frameData < 2)%nat
  \/ ((2 <= length frameData)%nat
      /\ Z.of_nat (length frameData) - 2 < declared_length frameData) ->
  decodeFrame frameData = Err (Protocol MALFORMED_FRAME)
  /\ (forall frame, decodeFrame frameData <> Ok frame).
Proof.
  intros H.
  assert (E : decodeFrame frameData = Err (Protocol MALFORMED_FRAME)).
  { rewrite decodeFrame_closed_form.
    destruct (Nat.ltb_spec (length frameData) 2); [reflexivity|].
    destruct (Z.ltb_spec (Z.of_nat (length frameData))
                         (2 + declared_length frameData)); [reflexivity|].
    lia. }
  split; [exact E|]. intros frame. rewrite E. discriminate.
Qed.

Lemma decodeFrame_malformed_witness :
  decodeFrame [x00] = Err (Protocol MALFORMED_FRAME)
  /\ decodeFrame [x00; x04; x41; x42] = Err (Protocol MALFORMED_FRAME).
Proof.
  split.
  - apply (decodeFrame_malformed [x00]). left. simpl. lia.
  - apply (decodeFrame_malformed [x00; x04; x41; x42]). right.
    split; [simpl; lia | vm_compute; reflexivity].
Defined.

(** C9, as stated, fails: a Base64 region that decodes successfully to
    fewer than 37 bytes is rejected with MALFORMED_FRAME, not with
    INVALID_BASE64. *)
Lemma short_binary_frame_is_malformed :
  base64_decode (base64_region short_frame) = [x41; x42; x43]
  /\ decodeFrame short_frame = Err (Protocol MALFORMED_FRAME)
  /\ decodeFrame short_frame <> Err (Protocol INVALID_BASE64).
Proof.
  split; [vm_compute; reflexivity|].
  assert (E : decodeFrame short_frame = Err (Protocol MALFORMED_FRAME))
    by (vm_compute; reflexivity).
  split; [exact E|]. rewrite E. discriminate.
Qed.

(** C9, amended. With the length prefix complete and the declared text
    present, [decodeFrame] fails with INVALID_BASE64 when the Base64
    decoder throws, and with MALFORMED_FRAME when the decoder returns
    fewer than 37 bytes. Node's decoder never throws, so on Node
    [decodeFrame] never fails with INVALID_BASE64. *)
Theorem decodeFrame_base64_errors
    (from_base64 : list ascii -> option Buffer) (frameData : Buffer) :
  (2 <= length frameData)%nat ->
  2 + declared_length frameData <= Z.of_nat (length frameData) ->
  (from_base64 (base64_region frameData) = None ->
   decodeFrame_with from_base64 frameData = Err (Protocol INVALID_BASE64))
  /\ (forall binaryFrame,
        from_base64 (base64_region frameData) = Some binaryFrame ->
        (length binaryFrame < 37)%nat ->
        decodeFrame_with from_base64 frameData = Err (Protocol MALFORMED_FRAME))
  /\ decodeFrame frameData <> Err (Protocol INVALID_BASE64).
Proof.
  intros H2 HD.
  assert (C : forall dec,
             decodeFrame_with dec frameData
             = match dec (base64_region frameData) with
               | None => Err (Protocol INVALID_BASE64)
               | Some binaryFrame => decode_binary binaryFrame
               end).
  { intros dec. rewrite decodeFrame_with_closed_form.
    destruct (Nat.ltb_spec (length frameData) 2); [lia|].
    destruct (Z.ltb_spec (Z.of_nat (length frameData))
                         (2 + declared_length frameData)); [lia|].
    reflexivity. }
  split; [|split].
  - intros N. rewrite C, N. reflexivity.
  - intros binaryFrame S L. rewrite C, S. unfold decode_binary.
    destruct (Nat.ltb_spec (length binaryFrame) 37); [reflexivity | lia].
  - unfold decodeFrame. rewrite C. unfold decode_binary.
    destruct (length _ <? 37)%nat; [discriminate|].
    destruct (equals _ _); discriminate.
Qed.

Lemma decodeFrame_base64_errors_witness :
  decodeFrame_with (fun _ => None) short_frame = Err (Protocol INVALID_BASE64)
  /\ decodeFrame_with (fun s => Some (base64_decode s)) short_frame
     = Err (Protocol MALFORMED_FRAME).
Proof.
  assert (H2 : (2 <= length short_frame)%nat) by (simpl; lia).
  assert (HD : 2 + declared_length short_frame <= Z.of_nat (length short_frame))
    by (vm_compute; discriminate).
  split.
  - apply (proj1 (decodeFrame_base64_errors (fun _ => None) short_frame H2 HD)).
    reflexivity.
  - apply (proj1 (proj2 (decodeFrame_base64_errors
                           (fun s => Some (base64_decode s)) short_frame H2 HD))
             (base64_decode (base64_region short_frame))).
    + reflexivity.
    + vm_compute. lia.
Defined.

(** ** The client *)

(** *** Sending a command *)

Lemma send_closed_form (c : MiniTelClient) (a : Action) :
  is_send a = true ->
  step c a
  = if negb (isConnected c) then (c, [CallRejected NotConnected])
    else if hello_missing c a then (c, [CallRejected HelloRequired])
    else match encodeFrame (command_code a) (currentNonce c) [] with
         | Err e => (c, [CallRejected e])
         | Ok frame =>
             if socket c
             then (set_currentNonce (currentNonce c + 2) (with_exchange c a),
                   [Emit (frameTransmitted "request" (command_name a)
                            (currentNonce c) []);
                    SocketWrite frame])
             else (with_exchange c a,
                   [Emit (frameTransmitted "request" (command_name a)
                            (currentNonce c) []);
                    Reject (nextPromise c) TypeError])
         end.
Proof.
  destruct a; try discriminate; intros _;
    destruct c as [s ic n lc d b t xs np eo];
    unfold step, sendHello, sendDump, sendStop, hello_missing, with_exchange,
      andThen, _sendFrameAndWaitForResponse;
    cbn [isConnected lastCommand currentNonce socket nextPromise exchanges
         command_code command_name accepted_codes
         set_lastCommand set_nextPromise set_exchanges set_currentNonce];
    destruct ic; cbn [negb]; try reflexivity.
  - destruct (encodeFrame COMMANDS.HELLO n []); [|reflexivity].
    destruct s; reflexivity.
  - destruct lc; [|reflexivity].
    destruct (encodeFrame COMMANDS.DUMP n []); [|reflexivity].
    destruct s; reflexivity.
  - destruct (encodeFrame COMMANDS.STOP_CMD n []); [|reflexivity].
    destruct s; reflexivity.
Qed.

Lemma encodeFrame_empty (code n : Z) :
  0 <= code <= 255 -> 0 <= n <= 4294967295 ->
  exists frame, encodeFrame code n [] = Ok frame.
Proof.
  intros Hc Hn.
  destruct (decode_encode_roundtrip code n [] Hc Hn) as (w & E & _);
    [simpl; lia|]. exists w. exact E.
Qed.

Lemma command_code_range (a : Action) : 0 <= command_code a <= 255.
Proof. destruct a; cbv; split; discriminate. Qed.

Lemma send_transmits (c : MiniTelClient) (a : Action) :
  is_send a = true -> can_transmit c a = true ->
  exists frame,
    encodeFrame (command_code a) (currentNonce c) [] = Ok frame
    /\ step c a
       = (set_currentNonce (currentNonce c + 2) (with_exchange c a),
          [Emit (frameTransmitted "request" (command_name a)
                   (currentNonce c) []);
           SocketWrite frame]).
Proof.
  intros S T. unfold can_transmit in T. rewrite !andb_true_iff in T.
  destruct T as [[[IC SK] HM] NR]. apply in_range_iff in NR.
  destruct (encodeFrame_empty (command_code a) (currentNonce c)
              (command_code_range a) NR) as [frame E].
  exists frame. split; [exact E|].
  rewrite send_closed_form by assumption.
  rewrite IC, SK, E. apply negb_true_iff in HM. rewrite HM. reflexivity.
Qed.

Lemma encodeFrame_nonce_out_of_range (code n : Z) (payload : Buffer) :
  ~ 0 <= n <= 4294967295 -> Z.of_nat (length payload) <= 65535 ->
  0 <= code <= 255 ->
  encodeFrame code n payload = Err RangeError.
Proof.
  intros Hn Hp Hc. unfold encodeFrame, calculateHash.
  destruct (Z.ltb_spec PROTOCOL_CONSTANTS.MAX_PAYLOAD_SIZE
                       (Z.of_nat (length payload))) as [L|_].
  { unfold PROTOCOL_CONSTANTS.MAX_PAYLOAD_SIZE in L. lia. }
  cbn [negb].
  change (1 + PROTOCOL_CONSTANTS.NONCE_LENGTH + length payload)%nat
    with (1 + (4 + length payload))%nat.
  rewrite (alloc_app 1).
  pose proof (writeUInt8_at code [] x00 (alloc (4 + length payload)) Hc) as W8.
  cbn [length app] in W8. change (alloc 1) with [x00]. cbn [app].
  rewrite W8. cbn [bind].
  rewrite write_out_of_range_32 by assumption. reflexivity.
Qed.

Lemma send_not_transmitted (c : MiniTelClient) (a : Action) :
  is_send a = true -> can_transmit c a = false ->
  written (snd (step c a)) = []
  /\ currentNonce (fst (step c a)) = currentNonce c.
Proof.
  intros S T. rewrite send_closed_form by assumption.
  unfold can_transmit in T.
  destruct (isConnected c); cbn [negb andb] in *; [|split; reflexivity].
  destruct (hello_missing c a); cbn [negb andb] in *;
    [destruct (socket c); split; reflexivity|].
  destruct (socket c); cbn [andb] in *.
  - assert (N : ~ 0 <= currentNonce c <= 4294967295).
    { intros N. apply in_range_iff in N. congruence. }
    rewrite encodeFrame_nonce_out_of_range;
      [split; reflexivity | assumption | simpl; lia | apply command_code_range].
  - destruct (encodeFrame _ _ _); split; reflexivity.
Qed.

(** *** Incoming data *)

Lemma same_session_refl c : same_session c c.
Proof. repeat split. Qed.

Lemma same_session_trans c1 c2 c3 :
  same_session c1 c2 -> same_session c2 c3 -> same_session c1 c3.
Proof.
  unfold same_session. intros (A1 & A2 & A3 & A4 & A5 & A6 & A7)
    (B1 & B2 & B3 & B4 & B5 & B6 & B7).
  repeat split; congruence.
Qed.

Lemma quiet_map_reject (xs : list Exchange) (e : error) :
  forallb quiet (map (fun x => Reject (promise x) e) xs) = true.
Proof. induction xs; simpl; auto. Qed.

Lemma quiet_map_resolve (xs : list Exchange) (f : Frame) :
  forallb quiet (map (fun x => Resolve (promise x) f) xs) = true.
Proof. induction xs; simpl; auto. Qed.

Lemma emit_error_session c e :
  same_session c (fst (fst (emit_error c e)))
  /\ forallb quiet (snd (fst (emit_error c e))) = true.
Proof.
  unfold emit_error. cbn [fst snd forallb quiet]. split.
  - repeat split.
  - apply quiet_map_reject.
Qed.

Lemma catch_block_session c e :
  same_session c (fst (catch_block c e))
  /\ forallb quiet (snd (catch_block c e)) = true.
Proof.
  unfold catch_block. pose proof (emit_error_session c e) as [S Q].
  destruct (emit_error c e) as [[c' effects] [e'|]]; cbn [fst snd] in *.
  - split; [exact S|]. rewrite forallb_app, Q. reflexivity.
  - split; assumption.
Qed.

Lemma emit_frameReceived_session c f :
  same_session c (fst (emit_frameReceived c f))
  /\ forallb quiet (snd (emit_frameReceived c f)) = true.
Proof.
  unfold emit_frameReceived. cbn [fst snd forallb quiet]. split.
  - repeat split.
  - apply quiet_map_resolve.
Qed.

Lemma andThen_fst_snd (r : Run) (k : MiniTelClient -> Run) :
  andThen r k = (fst (k (fst r)), snd r ++ snd (k (fst r))).
Proof.
  unfold andThen. destruct r as [c effects]. cbn [fst snd].
  destruct (k c). reflexivity.
Qed.

Lemma process_frame_session c frameData (continue : MiniTelClient -> Run) :
  (forall c', same_session c' (fst (continue c'))
              /\ forallb quiet (snd (continue c')) = true) ->
  same_session c (fst (process_frame c frameData continue))
  /\ forallb quiet (snd (process_frame c frameData continue)) = true.
Proof.
  intros K. unfold process_frame.
  destruct (decodeFrame frameData) as [frame|e]; [|apply catch_block_session].
  destruct (nonce frame =? currentNonce c - 1); cbn [negb].
  - set (c2 := if cmd frame =? RESPONSES.DUMP_OK then _ else c).
    assert (S2 : same_session c c2)
      by (unfold c2; destruct (cmd frame =? _); repeat split).
    rewrite !andThen_fst_snd. cbn [fst snd].
    pose proof (emit_frameReceived_session c2 frame) as [S3 Q3].
    pose proof (K (fst (emit_frameReceived c2 frame))) as [S4 Q4].
    split.
    + eauto using same_session_trans.
    + cbn [app forallb quiet]. rewrite forallb_app, Q3, Q4. reflexivity.
  - pose proof (emit_error_session c (Protocol INVALID_NONCE)) as [S2 Q2].
    destruct (emit_error c (Protocol INVALID_NONCE)) as [[c2 effects] [e|]];
      cbn [fst snd] in *.
    + rewrite andThen_fst_snd. cbn [fst snd].
      pose proof (catch_block_session c2 e) as [S3 Q3]. split.
      * eauto using same_session_trans.
      * rewrite forallb_app, Q2, Q3. reflexivity.
    + split; assumption.
Qed.

Lemma process_frames_session (fuel : nat) : forall c,
  same_session c (fst (process_frames fuel c))
  /\ forallb quiet (snd (process_frames fuel c)) = true.
Proof.
  induction fuel as [|fuel IH]; intros c; cbn [process_frames].
  - destruct (_ <? _)%nat; split; try apply same_session_refl; reflexivity.
  - destruct (_ <? _)%nat; [split; [apply same_session_refl | reflexivity]|].
    destruct (getExpectedFrameLength (incomingBuffer c)) as [len|];
      [|split; [apply same_session_refl | reflexivity]].
    destruct (_ <? len); [split; [apply same_session_refl | reflexivity]|].
    set (c1 := set_incomingBuffer _ c).
    assert (S1 : same_session c c1) by (repeat split).
    pose proof (process_frame_session c1
                  (subarray (incomingBuffer c) 0 (Z.to_nat len))
                  (process_frames fuel) IH) as [S2 Q2].
    split; [eauto using same_session_trans | exact Q2].
Qed.

Lemma handleIncomingData_session (c : MiniTelClient) (data : Buffer) :
  same_session c (fst (_handleIncomingData c data))
  /\ forallb quiet (snd (_handleIncomingData c data)) = true.
Proof.
  unfold _handleIncomingData.
  set (c1 := set_incomingBuffer _ c).
  pose proof (process_frames_session (length (incomingBuffer c1)) c1) as [S Q].
  split; [|exact Q].
  apply same_session_trans with c1; [repeat split | exact S].
Qed.

Lemma quiet_not_written (effects : list Effect) :
  forallb quiet effects = true -> written effects = [].
Proof.
  induction effects as [|e effects IH]; simpl; intros H; [reflexivity|].
  apply andb_true_iff in H. destruct H as [He H].
  rewrite IH by assumption. destruct e; try discriminate; reflexivity.
Qed.

Lemma quiet_no_teardown (effects : list Effect) :
  forallb quiet effects = true -> existsb is_teardown effects = false.
Proof.
  induction effects as [|e effects IH]; simpl; intros H; [reflexivity|].
  apply andb_true_iff in H. destruct H as [He H].
  rewrite IH by assumption. destruct e; try discriminate; reflexivity.
Qed.

(** *** The nonce counter and the last command over a history *)

Lemma written_app (l1 l2 : list Effect) :
  written (l1 ++ l2) = written l1 ++ written l2.
Proof. apply flat_map_app. Qed.

Lemma received_app (l1 l2 : list Effect) :
  received (l1 ++ l2) = received l1 ++ received l2.
Proof. apply flat_map_app. Qed.

Lemma step_send_cases (c : MiniTelClient) (a : Action) :
  is_send a = true ->
  (exists frame,
      step c a
      = (set_currentNonce (currentNonce c + 2) (with_exchange c a),
         [Emit (frameTransmitted "request" (command_name a) (currentNonce c) []);
          SocketWrite frame]))
  \/ (written (snd (step c a)) = []
      /\ currentNonce (fst (step c a)) = currentNonce c).
Proof.
  intros S. destruct (can_transmit c a) eqn:T.
  - left. destruct (send_transmits c a S T) as (frame & _ & E). eauto.
  - right. apply send_not_transmitted; assumption.
Qed.

Lemma step_nonce (c : MiniTelClient) (a : Action) :
  is_reconnect a = false ->
  currentNonce (fst (step c a))
  = currentNonce c + 2 * Z.of_nat (length (written (snd (step c a)))).
Proof.
  intros R.
  destruct (is_send a) eqn:S.
  { destruct (step_send_cases c a S) as [(frame & E) | (W & N)].
    - rewrite E. cbn. lia.
    - rewrite W, N. cbn. lia. }
  destruct a; try discriminate; cbn [step].
  - cbn. lia.
  - unfold disconnect. destruct (socket c); cbn; lia.
  - pose proof (handleIncomingData_session c data) as [Se Q].
    rewrite (quiet_not_written _ Q).
    destruct Se as (_ & _ & N & _). rewrite N. cbn. lia.
  - unfold onClose, emit_disconnected. cbn [fst snd].
    rewrite (quiet_not_written
               (Emit disconnected :: map _ _)) by apply quiet_map_reject.
    cbn. lia.
  - unfold onError.
    pose proof (emit_error_session
                  (set_connectionTimer false (set_isConnected false c)) e)
      as [Se Q].
    destruct (emit_error _ e) as [[c' effects] [e'|]]; cbn [fst snd] in *;
      rewrite written_app, (quiet_not_written _ Q);
      destruct Se as (_ & _ & N & _); rewrite N; cbn; lia.
  - unfold onTimeout. destruct (socket c); cbn [negb]; [|cbn; lia].
    pose proof (emit_error_session c (Protocol CONNECTION_TIMEOUT)) as [Se Q].
    destruct (emit_error c _) as [[c' effects] [e'|]]; cbn [fst snd] in *;
      change (written (SocketDestroy :: ?l)) with (written l);
      rewrite written_app, (quiet_not_written _ Q);
      destruct Se as (_ & _ & N & _); rewrite N; cbn; lia.
Qed.

Lemma run_cons (c : MiniTelClient) (a : Action) (actions : list Action) :
  run c (a :: actions)
  = (fst (run (fst (step c a)) actions),
     snd (step c a) ++ snd (run (fst (step c a)) actions)).
Proof. cbn [run]. apply andThen_fst_snd. Qed.

Lemma run_nonce (actions : list Action) : forall c,
  existsb is_reconnect actions = false ->
  currentNonce (fst (run c actions))
  = currentNonce c + 2 * Z.of_nat (length (written (snd (run c actions)))).
Proof.
  induction actions as [|a actions IH]; intros c H.
  - cbn. lia.
  - cbn [existsb] in H. apply orb_false_iff in H. destruct H as [Ha H].
    rewrite run_cons. cbn [fst snd].
    rewrite IH by assumption. rewrite (step_nonce c a Ha).
    rewrite written_app, length_app. lia.
Qed.

Lemma step_lastCommand (c : MiniTelClient) (a : Action) :
  is_reconnect a = false -> lastCommand c <> None ->
  lastCommand (fst (step c a)) <> None.
Proof.
  intros R L.
  destruct (is_send a) eqn:S.
  { destruct (step_send_cases c a S) as [(frame & E) | _].
    - rewrite E. cbn. discriminate.
    - rewrite send_closed_form by assumption.
      destruct (negb (isConnected c)); [exact L|].
      destruct (hello_missing c a); [exact L|].
      destruct (encodeFrame _ _ _); [|exact L].
      destruct (socket c); cbn; discriminate. }
  destruct a; try discriminate; cbn [step].
  - exact L.
  - unfold disconnect. destruct (socket c); exact L.
  - pose proof (handleIncomingData_session c data) as [Se _].
    destruct Se as (_ & _ & _ & E & _). rewrite E. exact L.
  - exact L.
  - unfold onError.
    pose proof (emit_error_session
                  (set_connectionTimer false (set_isConnected false c)) e)
      as [Se _].
    destruct (emit_error _ e) as [[c' effects] [e'|]]; cbn [fst snd] in *;
      destruct Se as (_ & _ & _ & E & _); rewrite E; exact L.
  - unfold onTimeout. destruct (socket c); cbn [negb]; [|exact L].
    pose proof (emit_error_session c (Protocol CONNECTION_TIMEOUT)) as [Se _].
    destruct (emit_error c _) as [[c' effects] [e'|]]; cbn [fst snd] in *;
      destruct Se as (_ & _ & _ & E & _); rewrite E; exact L.
Qed.

Lemma run_lastCommand (actions : list Action) : forall c,
  existsb is_reconnect actions = false -> lastCommand c <> None ->
  lastCommand (fst (run c actions)) <> None.
Proof.
  induction actions as [|a actions IH]; intros c H L; [exact L|].
  cbn [existsb] in H. apply orb_false_iff in H. destruct H as [Ha H].
  rewrite run_cons. cbn [fst]. apply IH; [assumption|].
  apply step_lastCommand; assumption.
Qed.

(** *** Envelopes at the head of the buffer *)

Lemma getExpectedFrameLength_closed_form (data : Buffer) :
  getExpectedFrameLength data
  = if (length data <? 2)%nat then None
    else Some (2 + declared_length data).
Proof.
  unfold getExpectedFrameLength.
  change PROTOCOL_CONSTANTS.LENGTH_PREFIX_SIZE with 2%nat.
  destruct (Nat.ltb_spec (length data) 2); [reflexivity|].
  rewrite readUInt16BE_declared by assumption. reflexivity.
Qed.

Lemma declared_length_app (a b : Buffer) :
  (2 <= length a)%nat -> declared_length (a ++ b) = declared_length a.
Proof.
  intros H. unfold declared_length. rewrite !app_nth1 by lia. reflexivity.
Qed.

Lemma is_envelope_spec (frameData : Buffer) :
  is_envelope frameData = true <->
  (2 <= length frameData)%nat
  /\ Z.of_nat (length frameData) = 2 + declared_length frameData.
Proof.
  unfold is_envelope. rewrite andb_true_iff, Nat.leb_le, Z.eqb_eq. tauto.
Qed.

Lemma process_frames_envelope (fuel : nat) (c : MiniTelClient)
    (frameData rest : Buffer) :
  is_envelope frameData = true ->
  incomingBuffer c = frameData ++ rest ->
  process_frames (S fuel) c
  = process_frame (set_incomingBuffer rest c) frameData (process_frames fuel).
Proof.
  intros E B. apply is_envelope_spec in E. destruct E as [E2 EL].
  cbn [process_frames]. rewrite getExpectedFrameLength_closed_form.
  change PROTOCOL_CONSTANTS.LENGTH_PREFIX_SIZE with 2%nat.
  rewrite B, length_app.
  destruct (Nat.ltb_spec (length frameData + length rest) 2); [lia|].
  rewrite declared_length_app, <- EL by assumption.
  destruct (Z.ltb_spec (Z.of_nat (length frameData + length rest))
                       (Z.of_nat (length frameData))); [lia|].
  unfold subarray, subarray_from. rewrite Nat2Z.id, Nat.sub_0_r.
  cbn [skipn].
  rewrite firstn_app, firstn_all, Nat.sub_diag, firstn_O, app_nil_r.
  rewrite skipn_app, skipn_all, Nat.sub_diag. reflexivity.
Qed.

Lemma process_frames_incomplete (fuel : nat) (c : MiniTelClient) :
  incomplete (incomingBuffer c) = true -> process_frames fuel c = (c, []).
Proof.
  unfold incomplete. intros I.
  destruct fuel; cbn [process_frames];
    change PROTOCOL_CONSTANTS.LENGTH_PREFIX_SIZE with 2%nat;
    destruct (length (incomingBuffer c) <? 2)%nat eqn:L; try reflexivity.
  rewrite getExpectedFrameLength_closed_form, L.
  cbn [orb] in I. rewrite I. reflexivity.
Qed.

(** *** Example clients and envelopes *)

Lemma resolved_rejects (pre : list Effect) (xs : list Exchange) (e : error) :
  resolved pre = [] ->
  resolved (pre ++ map (fun x => Reject (promise x) e) xs) = [].
Proof.
  intros H. unfold resolved in *. rewrite flat_map_app, H.
  induction xs as [|x xs IH]; [reflexivity | exact IH].
Qed.

Lemma received_rejects (pre : list Effect) (xs : list Exchange) (e : error) :
  received pre = [] ->
  received (pre ++ map (fun x => Reject (promise x) e) xs) = [].
Proof.
  intros H. unfold received in *. rewrite flat_map_app, H.
  induction xs as [|x xs IH]; [reflexivity | exact IH].
Qed.

(** *** Claims on the client *)

(** The first envelope after a send. After a command has been transmitted
    with nonce N, when the next complete envelope in the buffer decodes to
    a frame whose nonce is not N+1, the client emits an INVALID_NONCE
    error, rejects every pending call with it, the one just made included,
    and resolves none; no frame is handed to the listeners. *)
Lemma wrong_nonce_rejects_pending
    (c : MiniTelClient) (a : Action) (data frameData rest : Buffer)
    (frame : Frame) :
  is_send a = true -> can_transmit c a = true ->
  incomingBuffer c ++ data = frameData ++ rest ->
  is_envelope frameData = true ->
  decodeFrame frameData = Ok frame ->
  nonce frame <> currentNonce c + 1 ->
  let c1 := fst (step c a) in
  let effects := snd (_handleIncomingData c1 data) in
  effects
  = Emit (error_event (Protocol INVALID_NONCE))
    :: map (fun x => Reject (promise x) (Protocol INVALID_NONCE)) (exchanges c1)
  /\ In (Reject (nextPromise c) (Protocol INVALID_NONCE)) effects
  /\ resolved effects = []
  /\ received effects = []
  /\ exchanges (fst (_handleIncomingData c1 data)) = [].
Proof.
  intros Hs T B E D N c1 effects.
  destruct (send_transmits c a Hs T) as (sent & _ & St).
  assert (C1 : c1 = set_currentNonce (currentNonce c + 2) (with_exchange c a))
    by (unfold c1; rewrite St; reflexivity).
  assert (X1 : exchanges c1
               = exchanges c ++ [mkExchange (nextPromise c) (accepted_codes a)])
    by (rewrite C1; reflexivity).
  assert (H : _handleIncomingData c1 data
              = (set_exchanges [] (set_incomingBuffer rest c1),
                 Emit (error_event (Protocol INVALID_NONCE))
                 :: map (fun x => Reject (promise x) (Protocol INVALID_NONCE))
                        (exchanges c1))).
  { unfold _handleIncomingData.
    replace (incomingBuffer c1) with (incomingBuffer c) by (rewrite C1; reflexivity).
    rewrite B. cbn [incomingBuffer set_incomingBuffer].
    pose proof (proj1 (is_envelope_spec frameData) E) as [E2 _].
    destruct (length (frameData ++ rest)) as [|fuel] eqn:L;
      [rewrite length_app in L; lia|].
    rewrite (process_frames_envelope fuel
               (set_incomingBuffer (frameData ++ rest) c1) frameData rest E
               eq_refl).
    unfold process_frame. rewrite D.
    cbn [set_incomingBuffer currentNonce exchanges errorObserver].
    replace (currentNonce c1) with (currentNonce c + 2) by (rewrite C1; reflexivity).
    destruct (Z.eqb_spec (nonce frame) (currentNonce c + 2 - 1)); [lia|].
    cbn [negb]. unfold emit_error.
    cbn [set_incomingBuffer currentNonce exchanges errorObserver].
    rewrite X1, length_app. cbn [length].
    replace (length (exchanges c) + 1 =? 0)%nat with false
      by (symmetry; apply Nat.eqb_neq; lia).
    rewrite orb_true_r. reflexivity. }
  unfold effects. rewrite H. cbn [fst snd].
  split; [reflexivity|]. split; [|split; [|split]].
  - right. rewrite X1, map_app. apply in_or_app. right. left. reflexivity.
  - apply (resolved_rejects (Emit _ :: nil)). reflexivity.
  - apply (received_rejects (Emit _ :: nil)). reflexivity.
  - reflexivity.
Qed.

(** C4, at a client with a HELLO outstanding that receives HELLO_ACK with
    nonce 999, and at one that receives an envelope too short to hold a
    frame: the error is emitted and the pending call rejected, but nothing
    is torn down. The socket is neither ended nor destroyed, [isConnected]
    stays true, and the next [sendHello] is written to the same socket
    without any [connect]. *)
Theorem protocol_error_leaves_connection_open :
  let after_nonce := _handleIncomingData (pending_hello true) hello_ack_999 in
  let after_malformed := _handleIncomingData (pending_hello true) short_frame in
  (snd after_nonce
   = [Emit (error_event (Protocol INVALID_NONCE));
      Reject 0 (Protocol INVALID_NONCE)]
   /\ isConnected (fst after_nonce) = true
   /\ socket (fst after_nonce) = true
   /\ existsb is_teardown (snd after_nonce) = false
   /\ length (written (snd (sendHello (fst after_nonce)))) = 1%nat)
  /\ (snd after_malformed
      = [Emit (error_event (Protocol MALFORMED_FRAME));
         Reject 0 (Protocol MALFORMED_FRAME)]
      /\ isConnected (fst after_malformed) = true
      /\ socket (fst after_malformed) = true
      /\ existsb is_teardown (snd after_malformed) = false
      /\ length (written (snd (sendHello (fst after_malformed)))) = 1%nat).
Proof. vm_compute. repeat split. Qed.

(** C5, as stated, fails: with a HELLO outstanding, a second [sendHello]
    is not rejected; it writes a second frame to the socket. *)
Lemma second_send_is_transmitted :
  exchanges (pending_hello false) = [mkExchange 0 [RESPONSES.HELLO_ACK]]
  /\ snd (sendHello (pending_hello false))
     = [Emit (frameTransmitted "request" "HELLO" 2 []);
        SocketWrite (envelope_of COMMANDS.HELLO 2 [])].
Proof. vm_compute. split; reflexivity. Qed.

(** C5, amended. A call to [sendHello], [sendDump] or [sendStop] on a
    connected client is transmitted whether or not other calls are
    pending: the frame encoded at the current nonce is written to the
    socket, no call is rejected, the new exchange is registered behind the
    pending ones, and the nonce advances by 2. *)
Theorem send_while_pending_is_transmitted (c : MiniTelClient) (a : Action) :
  is_send a = true -> can_transmit c a = true ->
  exists frame,
    encodeFrame (command_code a) (currentNonce c) [] = Ok frame
    /\ snd (step c a)
       = [Emit (frameTransmitted "request" (command_name a) (currentNonce c) []);
          SocketWrite frame]
    /\ exchanges (fst (step c a))
       = exchanges c ++ [mkExchange (nextPromise c) (accepted_codes a)]
    /\ currentNonce (fst (step c a)) = currentNonce c + 2.
Proof.
  intros Hs T. destruct (send_transmits c a Hs T) as (frame & E & St).
  exists frame. rewrite St. repeat split. exact E.
Qed.

Lemma send_while_pending_is_transmitted_witness :
  exists frame,
    encodeFrame (command_code CallSendDump)
                (currentNonce (pending_hello false)) [] = Ok frame
    /\ snd (step (pending_hello false) CallSendDump)
       = [Emit (frameTransmitted "request" (command_name CallSendDump)
                  (currentNonce (pending_hello false)) []);
          SocketWrite frame]
    /\ exchanges (fst (step (pending_hello false) CallSendDump))
       = exchanges (pending_hello false)
         ++ [mkExchange (nextPromise (pending_hello false))
                        (accepted_codes CallSendDump)]
    /\ currentNonce (fst (step (pending_hello false) CallSendDump))
       = currentNonce (pending_hello false) + 2.
Proof.
  assert (T : can_transmit (pending_hello false) CallSendDump = true)
    by (vm_compute; reflexivity).
  exact (send_while_pending_is_transmitted (pending_hello false) CallSendDump
           eq_refl T).
Defined.

(** C7. The connect callback sets the nonce counter to 0. Over any
    history without a reconnect (calls, data, close, error, timeout,
    [disconnect]) the counter grows by exactly 2 for each frame written to
    the socket and by nothing else, whatever the server answers; so it
    never decreases and is never reset. *)
Theorem nonce_counter_law (c : MiniTelClient) (actions : list Action) :
  currentNonce (fst (step c OnConnect)) = 0
  /\ (existsb is_reconnect actions = false ->
      currentNonce (fst (run c actions))
      = currentNonce c + 2 * Z.of_nat (length (written (snd (run c actions))))
      /\ currentNonce c <= currentNonce (fst (run c actions))).
Proof.
  split; [reflexivity|]. intros H.
  pose proof (run_nonce actions c H) as R. split; [exact R | lia].
Qed.

Lemma nonce_counter_law_witness :
  currentNonce (fst (run (connected_client false) hello_then_failed_dump))
  = currentNonce (connected_client false)
    + 2 * Z.of_nat (length (written
                      (snd (run (connected_client false) hello_then_failed_dump))))
  /\ currentNonce (connected_client false)
     <= currentNonce (fst (run (connected_client false) hello_then_failed_dump)).
Proof.
  exact (proj2 (nonce_counter_law (connected_client false) hello_then_failed_dump)
           eq_refl).
Defined.

(** C10. On a connected client that never sent HELLO, [sendStop] is
    transmitted and sets the last command; after that, and after any
    further history without a reconnect, [sendDump] is not rejected with
    HelloRequired, and it is transmitted if the client is still connected
    and the nonce still fits 32 bits. *)
Theorem stop_satisfies_dump_precondition
    (c : MiniTelClient) (actions : list Action) :
  isConnected c = true -> socket c = true -> lastCommand c = None ->
  0 <= currentNonce c <= 4294967295 ->
  existsb is_reconnect actions = false ->
  let c1 := fst (step c CallSendStop) in
  let c2 := fst (run c1 actions) in
  length (written (snd (step c CallSendStop))) = 1%nat
  /\ lastCommand c1 = Some "STOP_CMD"%string
  /\ ~ In (CallRejected HelloRequired) (snd (step c2 CallSendDump))
  /\ (isConnected c2 = true -> socket c2 = true ->
      0 <= currentNonce c2 <= 4294967295 ->
      length (written (snd (step c2 CallSendDump))) = 1%nat).
Proof.
  intros IC SK LC NR H c1 c2.
  assert (T : can_transmit c CallSendStop = true).
  { unfold can_transmit, hello_missing. rewrite IC, SK.
    rewrite (proj2 (in_range_iff _ _ _) NR). reflexivity. }
  destruct (send_transmits c CallSendStop eq_refl T) as (frame & _ & St).
  assert (L1 : lastCommand c1 = Some "STOP_CMD"%string)
    by (unfold c1; rewrite St; reflexivity).
  assert (L2 : lastCommand c2 <> None).
  { unfold c2. apply run_lastCommand; [assumption|]. rewrite L1. discriminate. }
  assert (HM : hello_missing c2 CallSendDump = false).
  { unfold hello_missing. destruct (lastCommand c2); [reflexivity | contradiction]. }
  split; [rewrite St; reflexivity|]. split; [exact L1|]. split.
  - rewrite send_closed_form by reflexivity. rewrite HM.
    destruct (negb (isConnected c2)); [intros [F|[]]; discriminate|].
    destruct (encodeFrame _ _ _) as [f|e] eqn:En.
    + destruct (socket c2); intros [F|[F|[]]]; discriminate.
    + intros [F|[]]. injection F as ->.
      destruct (Z_le_dec 0 (currentNonce c2)) as [P|P];
        [destruct (Z_le_dec (currentNonce c2) 4294967295) as [Q|Q]|].
      * destruct (encodeFrame_empty (command_code CallSendDump) (currentNonce c2)
                    (command_code_range _) (conj P Q)) as [f Ef].
        congruence.
      * rewrite encodeFrame_nonce_out_of_range in En;
          [discriminate | lia | simpl; lia | apply command_code_range].
      * rewrite encodeFrame_nonce_out_of_range in En;
          [discriminate | lia | simpl; lia | apply command_code_range].
  - intros IC2 SK2 NR2.
    assert (T2 : can_transmit c2 CallSendDump = true).
    { unfold can_transmit. rewrite IC2, SK2, HM.
      rewrite (proj2 (in_range_iff _ _ _) NR2). reflexivity. }
    destruct (send_transmits c2 CallSendDump eq_refl T2) as (f & _ & St2).
    rewrite St2. reflexivity.
Qed.

Lemma stop_satisfies_dump_precondition_witness :
  length (written (snd (step (connected_client false) CallSendStop))) = 1%nat
  /\ lastCommand (fst (step (connected_client false) CallSendStop))
     = Some "STOP_CMD"%string
  /\ ~ In (CallRejected HelloRequired)
          (snd (step (fst (run (fst (step (connected_client false) CallSendStop))
                               []))
                     CallSendDump))
  /\ (isConnected (fst (run (fst (step (connected_client false) CallSendStop)) []))
      = true ->
      socket (fst (run (fst (step (connected_client false) CallSendStop)) []))
      = true ->
      0 <= currentNonce
             (fst (run (fst (step (connected_client false) CallSendStop)) []))
        <= 4294967295 ->
      length (written
                (snd (step (fst (run (fst (step (connected_client false)
                                                CallSendStop)) []))
                           CallSendDump))) = 1%nat).
Proof.
  assert (NR : 0 <= currentNonce (connected_client false) <= 4294967295)
    by (vm_compute; split; discriminate).
  exact (stop_satisfies_dump_precondition (connected_client false) []
           eq_refl eq_refl eq_refl NR eq_refl).
Defined.

(** *** Stream reassembly *)

Lemma incomplete_spec (buf : Buffer) :
  incomplete buf = true <->
  (length buf < 2)%nat \/ Z.of_nat (length buf) < 2 + declared_length buf.
Proof.
  unfold incomplete. rewrite orb_true_iff, Nat.ltb_lt, Z.ltb_lt. tauto.
Qed.

Lemma incomplete_prefix (s1 s2 : Buffer) :
  incomplete (s1 ++ s2) = true -> incomplete s1 = true.
Proof.
  rewrite !incomplete_spec, length_app. intros [H|H].
  - left. lia.
  - destruct (Nat.lt_ge_cases (length s1) 2) as [L|L]; [left; exact L|].
    right. rewrite declared_length_app in H by assumption. lia.
Qed.

Lemma envelope_not_incomplete (envelope rest : Buffer) :
  is_envelope envelope = true -> incomplete (envelope ++ rest) = false.
Proof.
  intros E. apply is_envelope_spec in E. destruct E as [E2 EL].
  apply not_true_is_false. rewrite incomplete_spec, length_app.
  rewrite declared_length_app by assumption. lia.
Qed.

Lemma envelope_strict_prefix_incomplete (envelope stream s1 s2 : Buffer) :
  is_envelope envelope = true -> envelope ++ stream = s1 ++ s2 ->
  (length s1 < length envelope)%nat -> incomplete s1 = true.
Proof.
  intros E A L. apply is_envelope_spec in E. destruct E as [E2 EL].
  apply incomplete_spec.
  destruct (Nat.lt_ge_cases (length s1) 2) as [L2|L2]; [left; exact L2|].
  right.
  assert (D : declared_length s1 = declared_length envelope).
  { rewrite <- (declared_length_app s1 s2), <- A by assumption.
    apply declared_length_app. assumption. }
  rewrite D. lia.
Qed.

Lemma framed_tail_incomplete {expected stream frames tail} :
  framed expected stream frames tail -> incomplete tail = true.
Proof. induction 1; assumption. Qed.

Lemma framed_incomplete_inv {expected stream frames tail} :
  framed expected stream frames tail -> incomplete stream = true ->
  frames = [] /\ tail = stream.
Proof.
  intros F I. destruct F as [tail T | envelope frame stream frames tail E D N F].
  - split; reflexivity.
  - rewrite envelope_not_incomplete in I by assumption. discriminate.
Qed.

(** Cutting a framed stream anywhere leaves a framed prefix, and its tail
    followed by the rest is framed into the remaining frames. *)
Lemma framed_split {expected stream frames tail} :
  framed expected stream frames tail ->
  forall s1 s2, stream = s1 ++ s2 ->
  exists frames1 tail1 frames2,
    framed expected s1 frames1 tail1
    /\ framed expected (tail1 ++ s2) frames2 tail
    /\ frames = frames1 ++ frames2.
Proof.
  induction 1 as [tail T | envelope frame stream frames tail E D N F IH];
    intros s1 s2 A.
  - exists [], s1, []. subst tail. split; [|split].
    + apply framed_tail. eapply incomplete_prefix. eassumption.
    + apply framed_tail. assumption.
    + reflexivity.
  - destruct (Nat.lt_ge_cases (length s1) (length envelope)) as [L|L].
    + exists [], s1, (frame :: frames). split; [|split].
      * apply framed_tail.
        eapply envelope_strict_prefix_incomplete; eassumption.
      * rewrite <- A. apply framed_envelope; assumption.
      * reflexivity.
    + destruct (app_eq_app _ _ _ _ A) as [l [[A1 A2] | [A1 A2]]].
      * assert (l = []) as ->.
        { apply (f_equal (@length byte)) in A1. rewrite length_app in A1.
          destruct l; [reflexivity | simpl in A1; lia]. }
        rewrite app_nil_r in A1. cbn [app] in A2. subst s1 s2.
        destruct (IH [] stream eq_refl) as (fs1 & t1 & fs2 & F1 & F2 & EQ).
        exists (frame :: fs1), t1, fs2. split; [|split].
        -- rewrite <- (app_nil_r envelope). apply framed_envelope; assumption.
        -- exact F2.
        -- rewrite EQ. reflexivity.
      * destruct (IH l s2 A2) as (fs1 & t1 & fs2 & F1 & F2 & EQ).
        exists (frame :: fs1), t1, fs2. split; [|split].
        -- rewrite A1. apply framed_envelope; assumption.
        -- exact F2.
        -- rewrite EQ. reflexivity.
Qed.

Lemma received_emit_frameReceived c frame :
  received (snd (emit_frameReceived c frame)) = [frame].
Proof.
  unfold emit_frameReceived, received. cbn [snd flat_map app]. f_equal.
  induction (filter _ (exchanges c)); [reflexivity | assumption].
Qed.

(** The loop hands over the frames of a framed buffer, in order, and
    keeps the tail. *)
Lemma process_frames_framed expected stream frames tail :
  framed expected stream frames tail ->
  forall fuel c,
    currentNonce c - 1 = expected -> incomingBuffer c = stream ->
    (length stream <= fuel)%nat ->
    received (snd (process_frames fuel c)) = frames
    /\ incomingBuffer (fst (process_frames fuel c)) = tail.
Proof.
  induction 1 as [tail T | envelope frame stream frames tail E D N F IH];
    intros fuel c Hn Hb Hf.
  - rewrite process_frames_incomplete by (rewrite Hb; assumption).
    split; [reflexivity | exact Hb].
  - pose proof (proj1 (is_envelope_spec envelope) E) as [E2 _].
    rewrite length_app in Hf.
    destruct fuel as [|fuel]; [lia|].
    rewrite (process_frames_envelope fuel c envelope stream E Hb).
    unfold process_frame. rewrite D.
    cbn [set_incomingBuffer currentNonce].
    rewrite N, <- Hn, Z.eqb_refl. cbn [negb].
    set (c2 := if cmd frame =? RESPONSES.DUMP_OK then _ else _).
    assert (B2 : incomingBuffer c2 = stream /\ currentNonce c2 = currentNonce c)
      by (unfold c2; destruct (cmd frame =? _); split; reflexivity).
    rewrite !andThen_fst_snd. cbn [fst snd].
    set (c3 := fst (emit_frameReceived c2 frame)).
    assert (B3 : incomingBuffer c3 = stream /\ currentNonce c3 = currentNonce c)
      by (unfold c3, emit_frameReceived; cbn [fst]; exact B2).
    destruct (IH fuel c3) as [R T]; [lia | tauto | lia|].
    split; [|exact T].
    cbn [app]. change (received (Emit (frameTransmitted ?a ?b ?n ?p) :: ?l))
      with (received l).
    rewrite received_app, received_emit_frameReceived, R. reflexivity.
Qed.

Lemma handleIncomingData_framed (c : MiniTelClient) (data : Buffer) frames tail :
  framed (currentNonce c - 1) (incomingBuffer c ++ data) frames tail ->
  received (snd (_handleIncomingData c data)) = frames
  /\ incomingBuffer (fst (_handleIncomingData c data)) = tail.
Proof.
  intros F. unfold _handleIncomingData.
  eapply process_frames_framed; try eassumption; reflexivity.
Qed.

Lemma feed_cons (c : MiniTelClient) (chunk : Buffer) (chunks : list Buffer) :
  feed c (chunk :: chunks)
  = (fst (feed (fst (_handleIncomingData c chunk)) chunks),
     snd (_handleIncomingData c chunk)
     ++ snd (feed (fst (_handleIncomingData c chunk)) chunks)).
Proof. unfold feed. cbn [map]. apply run_cons. Qed.

Lemma feed_framed (chunks : list Buffer) : forall c frames tail,
  incomplete (incomingBuffer c) = true ->
  framed (currentNonce c - 1) (incomingBuffer c ++ concat chunks) frames tail ->
  received (snd (feed c chunks)) = frames
  /\ incomingBuffer (fst (feed c chunks)) = tail.
Proof.
  induction chunks as [|chunk chunks IH]; intros c frames tail I F.
  - cbn [concat] in F. rewrite app_nil_r in F.
    destruct (framed_incomplete_inv F I) as [-> ->]. split; reflexivity.
  - cbn [concat] in F. rewrite app_assoc in F.
    destruct (framed_split F _ _ eq_refl) as (fs1 & t1 & fs2 & F1 & F2 & ->).
    destruct (handleIncomingData_framed c chunk _ _ F1) as [R1 B1].
    pose proof (handleIncomingData_session c chunk) as [(_ & _ & Nn & _) _].
    rewrite feed_cons. cbn [fst snd].
    destruct (IH (fst (_handleIncomingData c chunk)) fs2 tail) as [R2 B2].
    + rewrite B1. eapply framed_tail_incomplete. eassumption.
    + rewrite B1, Nn. exact F2.
    + split; [|exact B2]. rewrite received_app, R1, R2. reflexivity.
Qed.

Lemma set_incomingBuffer_twice (a b : Buffer) (c : MiniTelClient) :
  set_incomingBuffer a (set_incomingBuffer b c) = set_incomingBuffer a c.
Proof. reflexivity. Qed.

Lemma set_incomingBuffer_same (c : MiniTelClient) :
  set_incomingBuffer (incomingBuffer c) c = c.
Proof. destruct c. reflexivity. Qed.

Lemma handleIncomingData_incomplete (c : MiniTelClient) (data : Buffer) :
  incomplete (incomingBuffer c ++ data) = true ->
  _handleIncomingData c data
  = (set_incomingBuffer (incomingBuffer c ++ data) c, []).
Proof.
  intros I. unfold _handleIncomingData.
  apply process_frames_incomplete. exact I.
Qed.

(** A chunk that does not complete an envelope is only buffered: feeding
    it and then the next chunk is feeding both at once. *)
Lemma feed_incomplete_chunk (c : MiniTelClient) (d1 d2 : Buffer) :
  incomplete (incomingBuffer c ++ d1) = true ->
  feed c [d1; d2] = feed c [d1 ++ d2].
Proof.
  intros I. rewrite !feed_cons.
  rewrite (handleIncomingData_incomplete c d1 I). cbn [fst snd app].
  unfold _handleIncomingData at 1 3.
  cbn [incomingBuffer set_incomingBuffer].
  unfold _handleIncomingData.
  cbn [incomingBuffer set_incomingBuffer].
  rewrite <- !app_assoc. reflexivity.
Qed.

Lemma process_frame_buffer (c : MiniTelClient) (frameData : Buffer)
    (continue : MiniTelClient -> Run) :
  (forall c', incomingBuffer c' = incomingBuffer c -> continue c' = (c', [])) ->
  incomingBuffer (fst (process_frame c frameData continue)) = incomingBuffer c.
Proof.
  intros K. unfold process_frame.
  destruct (decodeFrame frameData) as [frame|e].
  - destruct (nonce frame =? currentNonce c - 1); cbn [negb].
    + rewrite !andThen_fst_snd. cbn [fst snd].
      rewrite K; unfold emit_frameReceived; cbn [fst];
        destruct (cmd frame =? RESPONSES.DUMP_OK); reflexivity.
    + unfold emit_error.
      destruct (errorObserver c || negb (length (exchanges c) =? 0)%nat);
        [reflexivity|].
      rewrite andThen_fst_snd. cbn [fst snd]. unfold catch_block, emit_error.
      cbn [errorObserver exchanges set_exchanges length Nat.eqb negb].
      destruct (errorObserver c); reflexivity.
  - unfold catch_block, emit_error.
    destruct (errorObserver c || negb (length (exchanges c) =? 0)%nat);
      reflexivity.
Qed.

Lemma handleIncomingData_one_envelope (c : MiniTelClient) (envelope : Buffer) :
  incomingBuffer c = [] -> is_envelope envelope = true ->
  incomingBuffer (fst (_handleIncomingData c envelope)) = [].
Proof.
  intros B E. unfold _handleIncomingData. rewrite B. cbn [app].
  cbn [incomingBuffer set_incomingBuffer].
  pose proof (proj1 (is_envelope_spec envelope) E) as [E2 _].
  destruct (length envelope) as [|fuel] eqn:L; [lia|].
  rewrite (process_frames_envelope fuel (set_incomingBuffer envelope c)
             envelope []) by (try assumption; symmetry; apply app_nil_r).
  rewrite process_frame_buffer; [reflexivity|].
  intros c' Bc'. apply process_frames_incomplete. rewrite Bc'. reflexivity.
Qed.

(** One envelope cut in two at any position gives what the whole
    envelope gives: the same effects and the same client. *)
Lemma feed_split_envelope (c : MiniTelClient) (envelope : Buffer) (k : nat) :
  incomingBuffer c = [] -> is_envelope envelope = true ->
  feed c [firstn k envelope; skipn k envelope] = feed c [envelope].
Proof.
  intros B E.
  destruct (Nat.lt_ge_cases k (length envelope)) as [L|L].
  - rewrite feed_incomplete_chunk, firstn_skipn; [reflexivity|].
    rewrite B. cbn [app].
    apply (envelope_strict_prefix_incomplete envelope [] (firstn k envelope)
             (skipn k envelope) E).
    + rewrite app_nil_r, firstn_skipn. reflexivity.
    + rewrite length_firstn. lia.
  - rewrite firstn_all2, skipn_all2 by assumption.
    rewrite !feed_cons. cbn [fst snd]. f_equal.
    + f_equal. f_equal.
      pose proof (handleIncomingData_one_envelope c envelope B E) as B'.
      rewrite handleIncomingData_incomplete by (rewrite B'; reflexivity).
      cbn [fst]. rewrite B'. cbn [app].
      rewrite <- B' at 1. apply set_incomingBuffer_same.
    + f_equal.
      pose proof (handleIncomingData_one_envelope c envelope B E) as B'.
      rewrite handleIncomingData_incomplete by (rewrite B'; reflexivity).
      reflexivity.
Qed.

(** C6, as stated, fails. Two valid envelopes, HELLO_ACK with nonce 999
    and HELLO_ACK with nonce 1, reach a client whose HELLO (nonce 0) is
    outstanding. In one chunk they yield no frame at all, and the second
    envelope is left in the buffer undecoded; as two chunks, the same
    bytes yield the second frame. *)
Lemma reassembly_depends_on_chunking :
  is_envelope hello_ack_999 = true /\ is_envelope hello_ack_1 = true
  /\ (exists frame, decodeFrame hello_ack_999 = Ok frame)
  /\ decodeFrame hello_ack_1
     = Ok (parsed_frame (base64_decode (base64_region hello_ack_1)))
  /\ concat [hello_ack_999 ++ hello_ack_1] = concat [hello_ack_999; hello_ack_1]
  /\ received (snd (feed (pending_hello false) [hello_ack_999 ++ hello_ack_1]))
     = []
  /\ incomingBuffer (fst (feed (pending_hello false)
                            [hello_ack_999 ++ hello_ack_1]))
     = hello_ack_1
  /\ received (snd (feed (pending_hello false) [hello_ack_999; hello_ack_1]))
     = [parsed_frame (base64_decode (base64_region hello_ack_1))].
Proof.
  split; [vm_compute; reflexivity|]. split; [vm_compute; reflexivity|].
  split; [eexists; vm_compute; reflexivity|].
  repeat split; vm_compute; reflexivity.
Qed.

(** C6, amended. While every complete envelope of the byte stream decodes
    to a frame carrying the nonce the client expects (its counter minus
    one), the frames handed to the listeners are the frames of the stream
    in wire order, however the stream is cut into chunks. One envelope cut
    in two at any position gives exactly what the whole envelope gives.
    Two such envelopes in one chunk give their two frames in order. *)
Theorem reassembly_of_expected_frames
    (c : MiniTelClient) (chunks chunks' : list Buffer)
    (frames : list Frame) (tail : Buffer)
    (envelope : Buffer) (k : nat)
    (envelope1 envelope2 : Buffer) (frame1 frame2 : Frame) :
  (incomplete (incomingBuffer c) = true ->
   concat chunks = concat chunks' ->
   framed (currentNonce c - 1) (incomingBuffer c ++ concat chunks) frames tail ->
   received (snd (feed c chunks)) = frames
   /\ received (snd (feed c chunks')) = frames
   /\ incomingBuffer (fst (feed c chunks)) = tail
   /\ incomingBuffer (fst (feed c chunks')) = tail)
  /\ (incomingBuffer c = [] -> is_envelope envelope = true ->
      feed c [firstn k envelope; skipn k envelope] = feed c [envelope])
  /\ (incomingBuffer c = [] ->
      is_envelope envelope1 = true -> is_envelope envelope2 = true ->
      decodeFrame envelope1 = Ok frame1 -> decodeFrame envelope2 = Ok frame2 ->
      nonce frame1 = currentNonce c - 1 -> nonce frame2 = currentNonce c - 1 ->
      received (snd (feed c [envelope1 ++ envelope2])) = [frame1; frame2]).
Proof.
  split; [|split].
  - intros I EQ F.
    destruct (feed_framed chunks c frames tail I F) as [R B].
    rewrite EQ in F. destruct (feed_framed chunks' c frames tail I F) as [R' B'].
    auto.
  - apply feed_split_envelope.
  - intros B E1 E2 D1 D2 N1 N2.
    apply (feed_framed [envelope1 ++ envelope2] c [frame1; frame2] []).
    + rewrite B. reflexivity.
    + rewrite B. cbn [app concat]. rewrite app_nil_r.
      apply framed_envelope; try assumption.
      rewrite <- (app_nil_r envelope2).
      apply framed_envelope; try assumption.
      apply framed_tail. reflexivity.
Qed.

Lemma reassembly_of_expected_frames_witness :
  (received (snd (feed (pending_hello false)
                    [firstn 10 hello_ack_1; skipn 10 hello_ack_1]))
   = [frame_of RESPONSES.HELLO_ACK 1 []]
   /\ received (snd (feed (pending_hello false) [hello_ack_1]))
      = [frame_of RESPONSES.HELLO_ACK 1 []]
   /\ incomingBuffer (fst (feed (pending_hello false)
                             [firstn 10 hello_ack_1; skipn 10 hello_ack_1]))
      = []
   /\ incomingBuffer (fst (feed (pending_hello false) [hello_ack_1])) = [])
  /\ feed (pending_hello false) [firstn 10 hello_ack_1; skipn 10 hello_ack_1]
     = feed (pending_hello false) [hello_ack_1]
  /\ received (snd (feed (pending_hello false) [hello_ack_1 ++ dump_ok_1]))
     = [frame_of RESPONSES.HELLO_ACK 1 []; frame_of RESPONSES.DUMP_OK 1 [x41]].
Proof.
  destruct (reassembly_of_expected_frames (pending_hello false)
              [firstn 10 hello_ack_1; skipn 10 hello_ack_1] [hello_ack_1]
              [frame_of RESPONSES.HELLO_ACK 1 []] []
              hello_ack_1 10 hello_ack_1 dump_ok_1
              (frame_of RESPONSES.HELLO_ACK 1 [])
              (frame_of RESPONSES.DUMP_OK 1 [x41]))
    as (T1 & T2 & T3).
  assert (B : incomingBuffer (pending_hello false) = [])
    by (vm_compute; reflexivity).
  assert (E1 : is_envelope hello_ack_1 = true) by (vm_compute; reflexivity).
  assert (E2 : is_envelope dump_ok_1 = true) by (vm_compute; reflexivity).
  assert (D1 : decodeFrame hello_ack_1 = Ok (frame_of RESPONSES.HELLO_ACK 1 []))
    by (vm_compute; reflexivity).
  assert (D2 : decodeFrame dump_ok_1 = Ok (frame_of RESPONSES.DUMP_OK 1 [x41]))
    by (vm_compute; reflexivity).
  assert (N : 1 = currentNonce (pending_hello false) - 1)
    by (vm_compute; reflexivity).
  split; [|split].
  - apply T1.
    + rewrite B. reflexivity.
    + cbn [concat]. rewrite !app_nil_r. apply firstn_skipn.
    + rewrite B. cbn [concat app]. rewrite app_nil_r, firstn_skipn.
      rewrite <- (app_nil_r hello_ack_1).
      apply framed_envelope;
        [exact E1 | exact D1 | exact N | apply framed_tail; reflexivity].
  - apply T2; assumption.
  - apply T3; assumption.
Defined.

(** *** The loop never runs out of fuel *)

Lemma process_frame_ext (c : MiniTelClient) (frameData : Buffer)
    (k1 k2 : MiniTelClient -> Run) :
  (forall c', incomingBuffer c' = incomingBuffer c -> k1 c' = k2 c') ->
  process_frame c frameData k1 = process_frame c frameData k2.
Proof.
  intros K. unfold process_frame.
  destruct (decodeFrame frameData) as [frame|e]; [|reflexivity].
  destruct (nonce frame =? currentNonce c - 1); cbn [negb]; [|reflexivity].
  rewrite !andThen_fst_snd. cbn [fst snd].
  rewrite K; [reflexivity|].
  unfold emit_frameReceived. cbn [fst].
  destruct (cmd frame =? RESPONSES.DUMP_OK); reflexivity.
Qed.

(** Any fuel of at least the length of the buffer gives the same run:
    the loop ends because the buffer is used up, not the fuel. *)
Lemma process_frames_fuel (fuel1 : nat) : forall fuel2 c,
  (length (incomingBuffer c) <= fuel1)%nat ->
  (length (incomingBuffer c) <= fuel2)%nat ->
  process_frames fuel1 c = process_frames fuel2 c.
Proof.
  induction fuel1 as [|fuel1 IH]; intros fuel2 c H1 H2.
  - destruct fuel2; cbn [process_frames];
      change PROTOCOL_CONSTANTS.LENGTH_PREFIX_SIZE with 2%nat;
      destruct (Nat.ltb_spec (length (incomingBuffer c)) 2);
      try reflexivity; lia.
  - destruct fuel2 as [|fuel2].
    + cbn [process_frames].
      change PROTOCOL_CONSTANTS.LENGTH_PREFIX_SIZE with 2%nat.
      destruct (Nat.ltb_spec (length (incomingBuffer c)) 2);
        [reflexivity | lia].
    + cbn [process_frames].
      change PROTOCOL_CONSTANTS.LENGTH_PREFIX_SIZE with 2%nat.
      destruct (Nat.ltb_spec (length (incomingBuffer c)) 2) as [|L2];
        [reflexivity|].
      rewrite getExpectedFrameLength_closed_form.
      destruct (Nat.ltb_spec (length (incomingBuffer c)) 2); [lia|].
      destruct (Z.ltb_spec (Z.of_nat (length (incomingBuffer c)))
                           (2 + declared_length (incomingBuffer c)));
        [reflexivity|].
      apply process_frame_ext. intros c' B.
      pose proof (declared_length_range (incomingBuffer c)) as R.
      cbn [incomingBuffer set_incomingBuffer] in B.
      unfold subarray_from in B.
      apply IH; rewrite B, length_skipn; lia.
Qed.

(* ================================================================== *)
(** * Further properties of the codec *)

Lemma encodeFrame_cmd_out_of_range (code n : Z) (payload : Buffer) :
  ~ 0 <= code <= 255 -> Z.of_nat (length payload) <= 65535 ->
  encodeFrame code n payload = Err RangeError.
Proof.
  intros Hc Hp. unfold encodeFrame, calculateHash.
  destruct (Z.ltb_spec PROTOCOL_CONSTANTS.MAX_PAYLOAD_SIZE
                       (Z.of_nat (length payload))) as [L|_].
  { unfold PROTOCOL_CONSTANTS.MAX_PAYLOAD_SIZE in L. lia. }
  cbn [negb]. rewrite write_out_of_range_8 by assumption. reflexivity.
Qed.

(** What [encodeFrame] returns, for every input. *)
Lemma encodeFrame_cases (code n : Z) (payload : Buffer) :
  encodeFrame code n payload
  = if 65535 <? Z.of_nat (length payload) then Err PayloadTooLarge
    else if negb (in_range 0 code 255 && in_range 0 n 4294967295)
         then Err RangeError
         else if 49112 <? Z.of_nat (length payload) then Err RangeError
              else Ok (be16 (Z.of_nat (length (wire_base64 code n payload)))
                       ++ wire_base64 code n payload).
Proof.
  destruct (Z.ltb_spec 65535 (Z.of_nat (length payload))) as [L|L].
  { apply encodeFrame_payload_too_large. exact L. }
  destruct (in_range 0 code 255) eqn:Rc; cbn [andb negb].
  2:{ apply encodeFrame_cmd_out_of_range; [|exact L].
      intros H. apply in_range_iff in H. congruence. }
  destruct (in_range 0 n 4294967295) eqn:Rn; cbn [negb].
  2:{ apply in_range_iff in Rc.
      apply encodeFrame_nonce_out_of_range; [|exact L|exact Rc].
      intros H. apply in_range_iff in H. congruence. }
  apply in_range_iff in Rc, Rn.
  rewrite encodeFrame_closed_form by assumption.
  pose proof (wire_base64_fits code n payload) as F.
  destruct (Z.ltb_spec 49112 (Z.of_nat (length payload)));
    destruct (Z.leb_spec (Z.of_nat (length (wire_base64 code n payload))) 65535);
    try reflexivity; lia.
Qed.

Lemma encodeFrame_Ok_inv (code n : Z) (payload wire : Buffer) :
  encodeFrame code n payload = Ok wire ->
  0 <= code <= 255 /\ 0 <= n <= 4294967295
  /\ Z.of_nat (length payload) <= 49112
  /\ wire = be16 (Z.of_nat (length (wire_base64 code n payload)))
            ++ wire_base64 code n payload.
Proof.
  rewrite encodeFrame_cases.
  destruct (Z.ltb_spec 65535 (Z.of_nat (length payload))); [discriminate|].
  destruct (in_range 0 code 255) eqn:Rc; cbn [andb negb]; [|discriminate].
  destruct (in_range 0 n 4294967295) eqn:Rn; cbn [negb]; [|discriminate].
  destruct (Z.ltb_spec 49112 (Z.of_nat (length payload))); [discriminate|].
  intros E. injection E as <-. apply in_range_iff in Rc, Rn. auto.
Qed.

(** X1. Round trip: for a command byte, a 32-bit nonce and a payload of at
    most 49112 bytes, [encodeFrame] succeeds and [decodeFrame] returns the
    same command, nonce and payload, with the hash of the three and the
    validity flag set. *)
Theorem encodeFrame_decodeFrame_roundtrip (code n : Z) (payload : Buffer) :
  0 <= code <= 255 -> 0 <= n <= 4294967295 ->
  Z.of_nat (length payload) <= 49112 ->
  exists wire,
    encodeFrame code n payload = Ok wire
    /\ decodeFrame wire
       = Ok (mkFrame code n payload (sha256 (frame_content code n payload)) true).
Proof. apply decode_encode_roundtrip. Qed.

Lemma encodeFrame_decodeFrame_roundtrip_witness :
  exists wire,
    encodeFrame 0x83 5 [x41; x42] = Ok wire
    /\ decodeFrame wire
       = Ok (mkFrame 0x83 5 [x41; x42]
               (sha256 (frame_content 0x83 5 [x41; x42])) true).
Proof.
  apply (encodeFrame_decodeFrame_roundtrip 0x83 5 [x41; x42]);
    [lia | lia | simpl; lia].
Defined.

(** X2. The outcome of [encodeFrame] on every input: a payload longer than
    65535 bytes is refused as too large; otherwise a command outside
    0..255 or a nonce outside 0..2^32-1 throws a range error; otherwise a
    payload longer than 49112 bytes throws a range error as well; in all
    other cases the result is the Base64 text of the binary frame behind
    its two-byte big-endian length. *)
Theorem encodeFrame_outcome (code n : Z) (payload : Buffer) :
  encodeFrame code n payload
  = if 65535 <? Z.of_nat (length payload) then Err PayloadTooLarge
    else if negb (in_range 0 code 255 && in_range 0 n 4294967295)
         then Err RangeError
         else if 49112 <? Z.of_nat (length payload) then Err RangeError
              else Ok (be16 (Z.of_nat (length (wire_base64 code n payload)))
                       ++ wire_base64 code n payload).
Proof. apply encodeFrame_cases. Qed.

Lemma envelope_shape (code n : Z) (payload : Buffer) :
  Z.of_nat (length payload) <= 49112 ->
  let wire := be16 (Z.of_nat (length (wire_base64 code n payload)))
              ++ wire_base64 code n payload in
  (2 <= length wire)%nat
  /\ declared_length wire = Z.of_nat (length (wire_base64 code n payload))
  /\ Z.of_nat (length wire)
     = 2 + 4 * ((Z.of_nat (length payload) + 39) / 3).
Proof.
  intros Hp wire.
  pose proof (proj2 (wire_base64_fits code n payload) Hp) as F.
  assert (L : length wire = (2 + length (wire_base64 code n payload))%nat)
    by (unfold wire; rewrite length_app; reflexivity).
  split; [lia|]. split.
  - unfold wire. apply declared_length_be16. lia.
  - rewrite L, wire_base64_length.
    rewrite Nat2Z.inj_add, Nat2Z.inj_mul, Nat2Z.inj_div, Nat2Z.inj_add.
    reflexivity.
Qed.

(** X3. Whatever [encodeFrame] returns is exactly one envelope: its first
    two bytes count the bytes that follow, [getExpectedFrameLength]
    returns its length, also when more bytes follow it in the buffer, and
    its length is 2 + 4 * ceil((payload length + 37) / 3). *)
Theorem encodeFrame_is_envelope (code n : Z) (payload wire rest : Buffer) :
  encodeFrame code n payload = Ok wire ->
  is_envelope wire = true
  /\ getExpectedFrameLength (wire ++ rest) = Some (Z.of_nat (length wire))
  /\ Z.of_nat (length wire) = 2 + 4 * ((Z.of_nat (length payload) + 39) / 3).
Proof.
  intros E. apply encodeFrame_Ok_inv in E. destruct E as (_ & _ & Hp & ->).
  destruct (envelope_shape code n payload Hp) as (L2 & D & Len).
  cbv zeta in *. split; [|split].
  - apply is_envelope_spec. split; [exact L2|]. rewrite D.
    rewrite length_app. cbn [length be16]. lia.
  - rewrite getExpectedFrameLength_closed_form, length_app.
    destruct (Nat.ltb_spec (length (be16 (Z.of_nat (length (wire_base64 code n payload)))
                                    ++ wire_base64 code n payload)
                            + length rest) 2); [lia|].
    rewrite declared_length_app, D by exact L2.
    rewrite length_app. cbn [length be16]. f_equal. lia.
  - exact Len.
Qed.

Lemma encodeFrame_is_envelope_witness :
  is_envelope hello_ack_1 = true
  /\ getExpectedFrameLength (hello_ack_1 ++ [x00; x01])
     = Some (Z.of_nat (length hello_ack_1))
  /\ Z.of_nat (length hello_ack_1)
     = 2 + 4 * ((Z.of_nat (length (@nil byte)) + 39) / 3).
Proof.
  apply (encodeFrame_is_envelope RESPONSES.HELLO_ACK 1 [] hello_ack_1 [x00; x01]).
  vm_compute. reflexivity.
Defined.

(** X4. [encodeFrame] is injective: two calls that return the same
    envelope were given the same command, nonce and payload. *)
Theorem encodeFrame_injective
    (code code' n n' : Z) (payload payload' wire : Buffer) :
  encodeFrame code n payload = Ok wire ->
  encodeFrame code' n' payload' = Ok wire ->
  code = code' /\ n = n' /\ payload = payload'.
Proof.
  intros E E'.
  pose proof (encodeFrame_Ok_inv _ _ _ _ E) as (Hc & Hn & Hp & _).
  pose proof (encodeFrame_Ok_inv _ _ _ _ E') as (Hc' & Hn' & Hp' & _).
  destruct (decode_encode_roundtrip code n payload Hc Hn Hp) as (w & Ew & D).
  destruct (decode_encode_roundtrip code' n' payload' Hc' Hn' Hp')
    as (w' & Ew' & D').
  assert (w = wire) by congruence. assert (w' = wire) by congruence.
  subst w w'. rewrite D in D'. injection D' as -> -> ->. auto.
Qed.

Lemma encodeFrame_injective_witness :
  RESPONSES.HELLO_ACK = RESPONSES.HELLO_ACK /\ 1 = 1 /\ @nil byte = [].
Proof.
  apply (encodeFrame_injective RESPONSES.HELLO_ACK RESPONSES.HELLO_ACK 1 1
           [] [] hello_ack_1); vm_compute; reflexivity.
Defined.

(** X5. Whatever the Base64 decoder does, [decodeFrame] either returns a
    frame or throws one of MALFORMED_FRAME, INVALID_BASE64 and
    HASH_VALIDATION_FAILURE; on Node, where the decoder never throws,
    only MALFORMED_FRAME and HASH_VALIDATION_FAILURE remain. *)
Theorem decodeFrame_errors
    (from_base64 : list ascii -> option Buffer) (frameData : Buffer) :
  ((exists frame, decodeFrame_with from_base64 frameData = Ok frame)
   \/ decodeFrame_with from_base64 frameData = Err (Protocol MALFORMED_FRAME)
   \/ decodeFrame_with from_base64 frameData = Err (Protocol INVALID_BASE64)
   \/ decodeFrame_with from_base64 frameData
      = Err (Protocol HASH_VALIDATION_FAILURE))
  /\ ((exists frame, decodeFrame frameData = Ok frame)
      \/ decodeFrame frameData = Err (Protocol MALFORMED_FRAME)
      \/ decodeFrame frameData = Err (Protocol HASH_VALIDATION_FAILURE)).
Proof.
  assert (B : forall bin,
             (exists frame, decode_binary bin = Ok frame)
             \/ decode_binary bin = Err (Protocol MALFORMED_FRAME)
             \/ decode_binary bin = Err (Protocol HASH_VALIDATION_FAILURE)).
  { intros bin. unfold decode_binary.
    destruct (length bin <? 37)%nat; [auto|].
    destruct (equals _ _); eauto. }
  split.
  - rewrite decodeFrame_with_closed_form.
    destruct (length frameData <? 2)%nat; [auto|].
    destruct (_ <? _); [auto|].
    destruct (from_base64 _) as [bin|]; [|auto].
    destruct (B bin) as [H|[H|H]]; auto.
  - rewrite decodeFrame_closed_form.
    destruct (length frameData <? 2)%nat; [auto|].
    destruct (_ <? _); [auto|]. apply B.
Qed.

Lemma decodeFrame_wrap_binary (binaryFrame : Buffer) :
  Z.of_nat (length (from_ascii (base64_encode binaryFrame))) <= 65535 ->
  decodeFrame (wrap_binary binaryFrame) = decode_binary binaryFrame.
Proof.
  intros F. unfold wrap_binary.
  set (w := from_ascii (base64_encode binaryFrame)) in *.
  rewrite decodeFrame_closed_form.
  assert (Hd : declared_length (be16 (Z.of_nat (length w)) ++ w)
               = Z.of_nat (length w))
    by (apply declared_length_be16; lia).
  assert (Hr : base64_region (be16 (Z.of_nat (length w)) ++ w)
               = base64_encode binaryFrame).
  { unfold base64_region. rewrite Hd, Nat2Z.id.
    unfold be16. cbn [skipn app]. rewrite firstn_all.
    apply toString_from_ascii, base64_encode_clean. }
  rewrite Hd, Hr, base64_decode_encode.
  assert (Hl : length (be16 (Z.of_nat (length w)) ++ w) = (2 + length w)%nat)
    by (rewrite length_app; reflexivity).
  destruct (Nat.ltb_spec (length (be16 (Z.of_nat (length w)) ++ w)) 2); [lia|].
  destruct (Z.ltb_spec (Z.of_nat (length (be16 (Z.of_nat (length w)) ++ w)))
                       (2 + Z.of_nat (length w))); [lia|].
  reflexivity.
Qed.

(** X6. Tampering with the hash is detected: a binary frame made of a
    command, a nonce, a payload and any 32 bytes other than their SHA-256,
    wrapped in a correct envelope, is rejected with
    HASH_VALIDATION_FAILURE. *)
Theorem tampered_hash_is_rejected
    (code n : Z) (payload tampered : Buffer) :
  Z.of_nat (length payload) <= 49112 ->
  length tampered = 32%nat ->
  tampered <> sha256 (frame_content code n payload) ->
  decodeFrame (wrap_binary (frame_content code n payload ++ tampered))
  = Err (Protocol HASH_VALIDATION_FAILURE).
Proof.
  intros Hp Ht Hne.
  set (bin := frame_content code n payload ++ tampered).
  assert (BL : length bin = (37 + length payload)%nat).
  { unfold bin. rewrite length_app, frame_content_length, Ht. lia. }
  rewrite decodeFrame_wrap_binary.
  2:{ rewrite from_ascii_length, base64_encode_length, BL.
      rewrite Nat2Z.inj_mul, Nat2Z.inj_div, !Nat2Z.inj_add.
      change (Z.of_nat 4) with 4. change (Z.of_nat 37) with 37.
      change (Z.of_nat 3) with 3. change (Z.of_nat 2) with 2.
      pose proof (Nat2Z.is_nonneg (length payload)).
      Z.div_mod_to_equations. lia. }
  unfold decode_binary.
  destruct (Nat.ltb_spec (length bin) 37); [lia|].
  assert (Hs : stored_hash bin = tampered).
  { unfold stored_hash. rewrite BL. unfold bin.
    rewrite skipn_app, frame_content_length.
    replace (37 + length payload - 32)%nat with (5 + length payload)%nat by lia.
    rewrite skipn_all2 by (rewrite frame_content_length; lia).
    rewrite Nat.sub_diag. reflexivity. }
  assert (Hh : hashed_part bin = frame_content code n payload).
  { unfold hashed_part. rewrite BL. unfold bin.
    rewrite firstn_app, frame_content_length.
    replace (37 + length payload - 32)%nat with (5 + length payload)%nat by lia.
    rewrite Nat.sub_diag, firstn_O, app_nil_r.
    apply firstn_all2. rewrite frame_content_length. lia. }
  rewrite Hs, Hh.
  destruct (equals tampered (sha256 (frame_content code n payload))) eqn:E;
    [|reflexivity].
  apply equals_eq in E. contradiction.
Qed.

Lemma tampered_hash_is_rejected_witness :
  decodeFrame (wrap_binary (frame_content 1 0 [] ++ alloc 32))
  = Err (Protocol HASH_VALIDATION_FAILURE).
Proof.
  apply (tampered_hash_is_rejected 1 0 [] (alloc 32)).
  - simpl. lia.
  - reflexivity.
  - vm_compute. discriminate.
Defined.

Lemma base64_region_envelope (envelope extra : Buffer) :
  is_envelope envelope = true ->
  base64_region (envelope ++ extra) = base64_region envelope.
Proof.
  intros E. apply is_envelope_spec in E. destruct E as [E2 EL].
  unfold base64_region. rewrite declared_length_app by assumption.
  f_equal. rewrite skipn_app.
  replace (skipn (2 - length envelope) extra) with extra
    by (replace (2 - length envelope)%nat with 0%nat by lia; reflexivity).
  rewrite firstn_app.
  replace (Z.to_nat (declared_length envelope) - length (skipn 2 envelope))%nat
    with 0%nat by (rewrite length_skipn; lia).
  rewrite firstn_O, app_nil_r. reflexivity.
Qed.

(** X7. [decodeFrame] reads the declared bytes only: what follows a
    complete envelope in the buffer does not change the result. *)
Theorem decodeFrame_ignores_trailing_bytes (envelope extra : Buffer) :
  is_envelope envelope = true ->
  decodeFrame (envelope ++ extra) = decodeFrame envelope.
Proof.
  intros E. rewrite !decodeFrame_closed_form.
  rewrite base64_region_envelope by assumption.
  apply is_envelope_spec in E. destruct E as [E2 EL].
  rewrite declared_length_app by assumption. rewrite length_app.
  destruct (Nat.ltb_spec (length envelope + length extra) 2); [lia|].
  destruct (Nat.ltb_spec (length envelope) 2); [lia|].
  destruct (Z.ltb_spec (Z.of_nat (length envelope + length extra))
                       (2 + declared_length envelope)); [lia|].
  destruct (Z.ltb_spec (Z.of_nat (length envelope))
                       (2 + declared_length envelope)); [lia|].
  reflexivity.
Qed.

Lemma decodeFrame_ignores_trailing_bytes_witness :
  decodeFrame (hello_ack_1 ++ [xff; x00; x41]) = decodeFrame hello_ack_1.
Proof.
  apply (decodeFrame_ignores_trailing_bytes hello_ack_1 [xff; x00; x41]).
  vm_compute. reflexivity.
Defined.

(** X8. [calculateHash] throws a range error exactly when the command is
    outside 0..255 or the nonce outside 0..2^32-1; otherwise it returns
    the 32-byte SHA-256 of the command byte, the four big-endian bytes of
    the nonce and the payload. *)
Theorem calculateHash_outcome (code n : Z) (payload : Buffer) :
  calculateHash code n payload
  = (if in_range 0 code 255 && in_range 0 n 4294967295
     then Ok (sha256 (byte_of_Z code :: be32 n ++ payload))
     else Err RangeError)
  /\ length (sha256 (byte_of_Z code :: be32 n ++ payload)) = 32%nat.
Proof.
  assert (C : calculateHash code n payload
              = if in_range 0 code 255 && in_range 0 n 4294967295
                then Ok (sha256 (byte_of_Z code :: be32 n ++ payload))
                else Err RangeError).
  { destruct (in_range 0 code 255) eqn:Rc; cbn [andb].
    - apply in_range_iff in Rc.
      destruct (in_range 0 n 4294967295) eqn:Rn.
      + apply in_range_iff in Rn. apply calculateHash_ok; assumption.
      + unfold calculateHash.
        change (1 + PROTOCOL_CONSTANTS.NONCE_LENGTH + length payload)%nat
          with (1 + (4 + length payload))%nat.
        rewrite (alloc_app 1).
        pose proof (writeUInt8_at code [] x00 (alloc (4 + length payload)) Rc)
          as W8.
        cbn [length app] in W8. change (alloc 1) with [x00]. cbn [app].
        rewrite W8. cbn [bind].
        rewrite write_out_of_range_32; [reflexivity|].
        intros H. apply in_range_iff in H. congruence.
    - unfold calculateHash. rewrite write_out_of_range_8; [reflexivity|].
      intros H. apply in_range_iff in H. congruence. }
  split; [exact C | apply sha256_length].
Qed.

(** X9. [getExpectedFrameLength] returns null exactly for buffers of
    fewer than two bytes; otherwise it returns a length between 2 and
    65537 that depends on the first two bytes only. *)
Theorem getExpectedFrameLength_properties (data more : Buffer) :
  (getExpectedFrameLength data = None <-> (length data < 2)%nat)
  /\ (forall n, getExpectedFrameLength data = Some n -> 2 <= n <= 65537)
  /\ ((2 <= length data)%nat ->
      getExpectedFrameLength (data ++ more) = getExpectedFrameLength data).
Proof.
  rewrite !getExpectedFrameLength_closed_form.
  pose proof (declared_length_range data) as R.
  split; [|split].
  - destruct (Nat.ltb_spec (length data) 2) as [L|L]; split; intros G;
      try reflexivity; try assumption; try discriminate; lia.
  - intros n. destruct (length data <? 2)%nat; [discriminate|].
    intros E. assert (n = 2 + declared_length data) by congruence. lia.
  - intros L. rewrite length_app.
    destruct (Nat.ltb_spec (length data + length more) 2); [lia|].
    destruct (Nat.ltb_spec (length data) 2); [lia|].
    rewrite declared_length_app by assumption. reflexivity.
Qed.

Lemma getExpectedFrameLength_properties_witness :
  getExpectedFrameLength ([x00; x04] ++ [x41]) = getExpectedFrameLength [x00; x04].
Proof.
  apply (proj2 (proj2 (getExpectedFrameLength_properties [x00; x04] [x41]))).
  simpl. lia.
Defined.

Lemma toString_ascii_high_bit (region : Buffer) :
  toString_ascii (map set_high_bit region) = toString_ascii region.
Proof.
  unfold toString_ascii. rewrite map_map. apply map_ext. intros b.
  f_equal. apply byte_eqb_eq.
  apply (forall_byte (fun b =>
           byte_eqb (byte_of_Z (Z.land (byte_to_Z (set_high_bit b)) 0x7f))
                    (byte_of_Z (Z.land (byte_to_Z b) 0x7f)))).
  vm_compute. reflexivity.
Qed.

(** X10. The decoder does not see the high bit of the Base64 bytes
    ([toString('ascii')] clears it): setting it on every byte after the
    length prefix gives the same result, so an envelope has wire forms
    other than the one [encodeFrame] produces. *)
Theorem decodeFrame_ignores_high_bit (b0 b1 : byte) (region : Buffer) :
  decodeFrame (b0 :: b1 :: map set_high_bit region)
  = decodeFrame (b0 :: b1 :: region).
Proof.
  rewrite !decodeFrame_closed_form.
  assert (R : base64_region (b0 :: b1 :: map set_high_bit region)
              = base64_region (b0 :: b1 :: region)).
  { unfold base64_region, declared_length. cbn [nth skipn].
    rewrite firstn_map. apply toString_ascii_high_bit. }
  rewrite R. cbn [length]. rewrite length_map.
  unfold declared_length. cbn [nth]. reflexivity.
Qed.

(** ** The smallest envelope *)

Lemma sextets_length (s : list ascii) : (length (sextets s) <= length s)%nat.
Proof.
  induction s as [|ch s IH]; cbn [sextets length]; [lia|].
  destruct (unbase64 ch); [cbn [length]; lia|].
  destruct (Ascii.eqb ch pad_char); cbn [length]; lia.
Qed.

Lemma unsextets_length (n : nat) : forall vs,
  (length vs <= n)%nat -> (4 * length (unsextets vs) <= 3 * length vs)%nat.
Proof.
  induction n as [|n IH]; intros vs H.
  - destruct vs; [cbn; lia | simpl in H; lia].
  - destruct vs as [|v1 [|v2 [|v3 [|v4 rest]]]]; cbn [unsextets length];
      try lia.
    assert (L : (length rest <= n)%nat) by (cbn [length] in H; lia).
    pose proof (IH rest L). lia.
Qed.

Lemma base64_decode_length (s : list ascii) :
  (4 * length (base64_decode s) <= 3 * length s)%nat.
Proof.
  unfold base64_decode.
  pose proof (unsextets_length (length (sextets s)) (sextets s) (Nat.le_refl _)).
  pose proof (sextets_length s). lia.
Qed.

(** X23. No buffer of fewer than 52 bytes is a frame: whatever its bytes,
    [decodeFrame] fails with MALFORMED_FRAME, because fewer than 50 Base64
    characters cannot hold the 37 bytes of command, nonce and hash. *)
Theorem short_buffers_are_malformed (frameData : Buffer) :
  (length frameData < 52)%nat ->
  decodeFrame frameData = Err (Protocol MALFORMED_FRAME).
Proof.
  intros H. rewrite decodeFrame_closed_form.
  destruct (Nat.ltb_spec (length frameData) 2); [reflexivity|].
  destruct (Z.ltb_spec (Z.of_nat (length frameData))
                       (2 + declared_length frameData)); [reflexivity|].
  unfold decode_binary.
  pose proof (base64_decode_length (base64_region frameData)) as B.
  assert (R : (length (base64_region frameData) <= length frameData - 2)%nat).
  { unfold base64_region, toString_ascii.
    rewrite length_map, length_firstn, length_skipn. lia. }
  destruct (Nat.ltb_spec (length (base64_decode (base64_region frameData))) 37);
    [reflexivity | lia].
Qed.

Lemma short_buffers_are_malformed_witness :
  decodeFrame [x00; x00] = Err (Protocol MALFORMED_FRAME).
Proof.
  apply (short_buffers_are_malformed [x00; x00]). simpl. lia.
Defined.

(** ** The text of a payload *)

Lemma toString_utf8_ascii (buf : Buffer) :
  forallb (fun b => byte_to_Z b <=? 0x7F) buf = true ->
  toString_utf8 buf = map byte_to_Z buf.
Proof.
  unfold toString_utf8. induction buf as [|b buf IH]; [reflexivity|].
  cbn [forallb map Utf8.decode]. intros H. apply andb_true_iff in H.
  destruct H as [Hb H].
  unfold Utf8.next. cbn [Utf8.bytes_needed Utf8.between_sequences].
  unfold Utf8.lead. rewrite Hb. cbn [app]. rewrite (IH H). reflexivity.
Qed.

(** Well-formed text of two, three and four bytes, and ill-formed input:
    stray bytes, a truncated sequence, an encoded surrogate, an overlong
    form. *)
Lemma toString_utf8_examples :
  toString_utf8 [xc3; xa5] = [0xE5]
  /\ toString_utf8 [xe2; x82; xac] = [0x20AC]
  /\ toString_utf8 [xf0; x9f; x9a; x80] = [0xD83D; 0xDE80]
  /\ toString_utf8 [xff; xfe] = [0xFFFD; 0xFFFD]
  /\ toString_utf8 [xe2; x82; x41] = [0xFFFD; 0x41]
  /\ toString_utf8 [xed; xa0; x80] = [0xFFFD; 0xFFFD; 0xFFFD]
  /\ toString_utf8 [xc0; x80] = [0xFFFD; 0xFFFD].
Proof. vm_compute. repeat split; reflexivity. Qed.

(* ================================================================== *)
(** * Further properties of the client *)

(** ** One frame *)

Lemma process_frame_accepted (c : MiniTelClient) (frameData : Buffer)
    (continue : MiniTelClient -> Run) (frame : Frame) :
  decodeFrame frameData = Ok frame -> nonce frame = currentNonce c - 1 ->
  process_frame c frameData continue
  = (fst (continue (after_frame c frame)),
     Emit (frameTransmitted "response" (response_name (cmd frame))
             (nonce frame) (payloadString frame))
     :: Emit (frameReceived frame)
     :: map (fun x => Resolve (promise x) frame) (accepting frame (exchanges c))
     ++ snd (continue (after_frame c frame))).
Proof.
  intros D N. unfold process_frame. rewrite D, N, Z.eqb_refl. cbn [negb].
  rewrite !andThen_fst_snd. cbn [fst snd app].
  unfold after_frame, accepting.
  destruct (cmd frame =? RESPONSES.DUMP_OK); reflexivity.
Qed.

Lemma process_frame_wrong_nonce (c : MiniTelClient) (frameData : Buffer)
    (continue : MiniTelClient -> Run) (frame : Frame) :
  decodeFrame frameData = Ok frame -> nonce frame <> currentNonce c - 1 ->
  process_frame c frameData continue
  = (set_exchanges [] c,
     Emit (error_event (Protocol INVALID_NONCE))
     :: map (fun x => Reject (promise x) (Protocol INVALID_NONCE)) (exchanges c)
     ++ if has_error_listener c then []
        else [Emit (error_event (Protocol INVALID_NONCE));
              Uncaught (Protocol INVALID_NONCE)]).
Proof.
  intros D N. unfold process_frame. rewrite D.
  destruct (Z.eqb_spec (nonce frame) (currentNonce c - 1)); [contradiction|].
  cbn [negb]. unfold emit_error, has_error_listener.
  destruct (errorObserver c) eqn:EO; cbn [orb].
  - rewrite app_nil_r. reflexivity.
  - destruct (exchanges c) as [|x xs] eqn:EX; cbn [length Nat.eqb negb].
    + rewrite andThen_fst_snd. cbn [fst snd]. unfold catch_block, emit_error.
      cbn [errorObserver exchanges set_exchanges length Nat.eqb negb].
      rewrite EO. reflexivity.
    + rewrite app_nil_r. reflexivity.
Qed.

Lemma process_frame_decode_error (c : MiniTelClient) (frameData : Buffer)
    (continue : MiniTelClient -> Run) (e : error) :
  decodeFrame frameData = Err e ->
  process_frame c frameData continue
  = (set_exchanges [] c,
     Emit (error_event e)
     :: map (fun x => Reject (promise x) e) (exchanges c)
     ++ if has_error_listener c then [] else [Uncaught e]).
Proof.
  intros D. unfold process_frame. rewrite D.
  unfold catch_block, emit_error, has_error_listener.
  destruct (errorObserver c || negb (length (exchanges c) =? 0)%nat);
    [rewrite app_nil_r|]; reflexivity.
Qed.

Lemma decodeFrame_cases (frameData : Buffer) :
  (exists frame, decodeFrame frameData = Ok frame)
  \/ (exists e, decodeFrame frameData = Err e).
Proof. destruct (decodeFrame frameData); eauto. Qed.

(** A property of the run of the loop that does not look at the buffer of
    the starting client and that every turn preserves holds of the loop. *)
Lemma process_frames_invariant (Q : MiniTelClient -> Run -> Prop) :
  (forall c, Q c (c, [])) ->
  (forall c b r, Q (set_incomingBuffer b c) r -> Q c r) ->
  (forall c frameData continue,
      (forall c', Q c' (continue c')) ->
      Q c (process_frame c frameData continue)) ->
  forall fuel c, Q c (process_frames fuel c).
Proof.
  intros Stop Buf Turn. induction fuel as [|fuel IH]; intros c;
    cbn [process_frames].
  - destruct (_ <? _)%nat; apply Stop.
  - destruct (_ <? _)%nat; [apply Stop|].
    destruct (getExpectedFrameLength (incomingBuffer c)) as [len|];
      [|apply Stop].
    destruct (_ <? len); [apply Stop|].
    eapply Buf. apply Turn. exact IH.
Qed.

Lemma handleIncomingData_invariant (Q : MiniTelClient -> Run -> Prop) :
  (forall c, Q c (c, [])) ->
  (forall c b r, Q (set_incomingBuffer b c) r -> Q c r) ->
  (forall c frameData continue,
      (forall c', Q c' (continue c')) ->
      Q c (process_frame c frameData continue)) ->
  forall c data, Q c (_handleIncomingData c data).
Proof.
  intros Stop Buf Turn c data. unfold _handleIncomingData.
  eapply Buf. apply process_frames_invariant; assumption.
Qed.

Lemma received_cons_quiet (e : Effect) (effects : list Effect) :
  (forall f, e <> Emit (frameReceived f)) ->
  received (e :: effects) = received effects.
Proof.
  intros H. unfold received. cbn [flat_map].
  destruct e as [[| | | |f]| | | | | | | | | |]; try reflexivity.
  exfalso. apply (H f). reflexivity.
Qed.

Lemma received_map_reject (xs : list Exchange) (e : error) :
  received (map (fun x => Reject (promise x) e) xs) = [].
Proof. apply (received_rejects [] xs e). reflexivity. Qed.

Lemma received_map_resolve (xs : list Exchange) (f : Frame) :
  received (map (fun x => Resolve (promise x) f) xs) = [].
Proof. induction xs as [|x xs IH]; [reflexivity | exact IH]. Qed.

Lemma received_error_run (c : MiniTelClient) (e : error) (trail : list Effect) :
  received trail = [] ->
  received (Emit (error_event e)
            :: map (fun x => Reject (promise x) e) (exchanges c) ++ trail) = [].
Proof.
  intros T. rewrite received_cons_quiet by discriminate.
  rewrite received_app, received_map_reject, T. reflexivity.
Qed.

Lemma received_accepted (frame : Frame) (xs : list Exchange)
    (trail : list Effect) (t : string) (name : string) :
  received (Emit (frameTransmitted t name (nonce frame) (payloadString frame))
            :: Emit (frameReceived frame)
            :: map (fun x => Resolve (promise x) frame) xs ++ trail)
  = frame :: received trail.
Proof.
  rewrite received_cons_quiet by discriminate.
  change (received (Emit (frameReceived frame) :: ?l)) with (frame :: received l).
  rewrite received_app, received_map_resolve. reflexivity.
Qed.

Lemma process_frame_received (c : MiniTelClient) (frameData : Buffer)
    (continue : MiniTelClient -> Run) :
  (received (snd (process_frame c frameData continue)) = []
   /\ dumpCounter (fst (process_frame c frameData continue)) = dumpCounter c
   /\ existsb is_error_event (snd (process_frame c frameData continue)) = true)
  \/ (exists frame,
        decodeFrame frameData = Ok frame
        /\ nonce frame = currentNonce c - 1
        /\ process_frame c frameData continue
           = (fst (continue (after_frame c frame)),
              Emit (frameTransmitted "response" (response_name (cmd frame))
                      (nonce frame) (payloadString frame))
              :: Emit (frameReceived frame)
              :: map (fun x => Resolve (promise x) frame)
                     (accepting frame (exchanges c))
              ++ snd (continue (after_frame c frame)))).
Proof.
  destruct (decodeFrame_cases frameData) as [[frame D] | [e D]].
  - destruct (Z.eq_dec (nonce frame) (currentNonce c - 1)) as [N|N].
    + right. exists frame. split; [exact D|]. split; [exact N|].
      apply process_frame_accepted; assumption.
    + left. rewrite (process_frame_wrong_nonce c frameData continue frame D N).
      cbn [fst snd]. split; [|split; reflexivity].
      apply received_error_run. destruct (has_error_listener c); reflexivity.
  - left. rewrite (process_frame_decode_error c frameData continue e D).
    cbn [fst snd]. split; [|split; reflexivity].
    apply received_error_run. destruct (has_error_listener c); reflexivity.
Qed.

Lemma after_frame_fields (c : MiniTelClient) (frame : Frame) :
  currentNonce (after_frame c frame) = currentNonce c
  /\ incomingBuffer (after_frame c frame) = incomingBuffer c
  /\ dumpCounter (after_frame c frame)
     = dumpCounter c + (if cmd frame =? RESPONSES.DUMP_OK then 1 else 0)
  /\ exchanges (after_frame c frame)
     = filter (fun x => negb (includes (expectedCodes x) (cmd frame)))
              (exchanges c).
Proof.
  unfold after_frame, emit_frameReceived. cbn [fst].
  destruct (cmd frame =? RESPONSES.DUMP_OK); cbn; repeat split; lia.
Qed.

Lemma decodeFrame_Ok_checked (frameData : Buffer) (frame : Frame) :
  decodeFrame frameData = Ok frame ->
  isValid frame = true
  /\ hash frame
     = sha256 (frame_content (cmd frame) (nonce frame) (payload frame)).
Proof.
  intros D. apply decodeFrame_Ok_inv in D. destruct D as (V & -> & S).
  split; [reflexivity|]. cbn [hash cmd nonce payload parsed_frame].
  rewrite frame_content_parsed; [exact S|].
  unfold structurally_valid in V. rewrite !andb_true_iff in V.
  destruct V as [_ V]. apply Nat.leb_le in V. exact V.
Qed.

(** ** What reaches the listeners *)

(** X11. Every frame handed to the ['frameReceived'] listeners while a
    chunk is processed has passed both checks: it carries the nonce the
    client expects (its counter minus one), its validity flag is set and
    its hash is the SHA-256 of its command, nonce and payload. *)
Theorem received_frames_are_checked
    (c : MiniTelClient) (data : Buffer) (frame : Frame) :
  In frame (received (snd (_handleIncomingData c data))) ->
  nonce frame = currentNonce c - 1
  /\ isValid frame = true
  /\ hash frame
     = sha256 (frame_content (cmd frame) (nonce frame) (payload frame)).
Proof.
  revert frame.
  apply (handleIncomingData_invariant
           (fun c r => forall frame, In frame (received (snd r)) ->
              nonce frame = currentNonce c - 1
              /\ isValid frame = true
              /\ hash frame
                 = sha256 (frame_content (cmd frame) (nonce frame)
                                         (payload frame)))).
  - intros c0 frame [].
  - intros c0 b r H. exact H.
  - intros c0 fd k K frame.
    destruct (process_frame_received c0 fd k) as [(R & _) | (f & D & N & E)].
    + rewrite R. intros [].
    + rewrite E. cbn [snd]. rewrite received_accepted. intros [<- | I].
      * split; [exact N|].
        apply (decodeFrame_Ok_checked fd f D).
      * destruct (K (after_frame c0 f) frame I) as (N' & V & H).
        rewrite (proj1 (after_frame_fields c0 f)) in N'. auto.
Qed.

Lemma received_frames_are_checked_witness :
  nonce (frame_of RESPONSES.HELLO_ACK 1 []) = currentNonce (pending_hello false) - 1
  /\ isValid (frame_of RESPONSES.HELLO_ACK 1 []) = true
  /\ hash (frame_of RESPONSES.HELLO_ACK 1 [])
     = sha256 (frame_content (cmd (frame_of RESPONSES.HELLO_ACK 1 []))
                             (nonce (frame_of RESPONSES.HELLO_ACK 1 []))
                             (payload (frame_of RESPONSES.HELLO_ACK 1 []))).
Proof.
  apply (received_frames_are_checked (pending_hello false) hello_ack_1
           (frame_of RESPONSES.HELLO_ACK 1 [])).
  vm_compute. left. reflexivity.
Defined.

(** X12. Processing a chunk raises the dump counter by exactly the number
    of DUMP_OK frames handed to the listeners, whether or not a DUMP was
    pending. *)
Theorem dumpCounter_counts_dump_ok (c : MiniTelClient) (data : Buffer) :
  dumpCounter (fst (_handleIncomingData c data))
  = dumpCounter c
    + count_dump_ok (received (snd (_handleIncomingData c data))).
Proof.
  apply (handleIncomingData_invariant
           (fun c r => dumpCounter (fst r)
                       = dumpCounter c + count_dump_ok (received (snd r)))).
  - intros c0. cbn. lia.
  - intros c0 b r H. exact H.
  - intros c0 fd k K.
    destruct (process_frame_received c0 fd k) as [(R & Dc & _) | (f & D & N & E)].
    + rewrite R, Dc. cbn. lia.
    + rewrite E. cbn [fst snd]. rewrite received_accepted.
      rewrite (K (after_frame c0 f)).
      destruct (after_frame_fields c0 f) as (_ & _ & Dc & _). rewrite Dc.
      unfold count_dump_ok. cbn [filter].
      destruct (cmd f =? RESPONSES.DUMP_OK); cbn [length]; lia.
Qed.

Lemma existsb_error_accepted (frame : Frame) (xs : list Exchange)
    (trail : list Effect) (t name : string) :
  existsb is_error_event
    (Emit (frameTransmitted t name (nonce frame) (payloadString frame))
     :: Emit (frameReceived frame)
     :: map (fun x => Resolve (promise x) frame) xs ++ trail)
  = existsb is_error_event trail.
Proof.
  cbn [existsb is_error_event orb]. rewrite existsb_app.
  replace (existsb is_error_event (map _ xs)) with false; [reflexivity|].
  induction xs as [|x xs IH]; [reflexivity | exact IH].
Qed.

Lemma process_frames_exhausts (fuel : nat) : forall c,
  (length (incomingBuffer c) <= fuel)%nat ->
  existsb is_error_event (snd (process_frames fuel c)) = false ->
  incomplete (incomingBuffer (fst (process_frames fuel c))) = true.
Proof.
  induction fuel as [|fuel IH]; intros c Hf; cbn [process_frames];
    change PROTOCOL_CONSTANTS.LENGTH_PREFIX_SIZE with 2%nat.
  - destruct (Nat.ltb_spec (length (incomingBuffer c)) 2) as [L|L]; [|lia].
    intros _. apply incomplete_spec. left. exact L.
  - destruct (Nat.ltb_spec (length (incomingBuffer c)) 2) as [L|L].
    { intros _. apply incomplete_spec. left. exact L. }
    rewrite getExpectedFrameLength_closed_form.
    destruct (Nat.ltb_spec (length (incomingBuffer c)) 2); [lia|].
    destruct (Z.ltb_spec (Z.of_nat (length (incomingBuffer c)))
                         (2 + declared_length (incomingBuffer c))) as [D|D].
    { intros _. apply incomplete_spec. right. exact D. }
    set (c1 := set_incomingBuffer _ c).
    set (fd := subarray _ _ _).
    destruct (process_frame_received c1 fd (process_frames fuel))
      as [(_ & _ & Er) | (f & _ & _ & E)].
    + rewrite Er. discriminate.
    + rewrite E. cbn [fst snd]. rewrite existsb_error_accepted.
      apply IH.
      rewrite (proj1 (proj2 (after_frame_fields c1 f))).
      unfold c1, subarray_from. cbn [incomingBuffer set_incomingBuffer].
      pose proof (declared_length_range (incomingBuffer c)).
      rewrite length_skipn. lia.
Qed.

(** X13. The loop takes every complete envelope: unless it emitted an
    ['error'] event, the buffer it leaves holds no complete envelope. *)
Theorem loop_leaves_no_complete_envelope (c : MiniTelClient) (data : Buffer) :
  existsb is_error_event (snd (_handleIncomingData c data)) = false ->
  incomplete (incomingBuffer (fst (_handleIncomingData c data))) = true.
Proof.
  unfold _handleIncomingData. apply process_frames_exhausts.
  apply Nat.le_refl.
Qed.

Lemma loop_leaves_no_complete_envelope_witness :
  incomplete (incomingBuffer
                (fst (_handleIncomingData (pending_hello false)
                        (hello_ack_1 ++ [x00; x04; x41])))) = true.
Proof.
  apply (loop_leaves_no_complete_envelope (pending_hello false)
           (hello_ack_1 ++ [x00; x04; x41])).
  vm_compute. reflexivity.
Defined.

(** ** A response to a command *)

Lemma handleIncomingData_single (c : MiniTelClient)
    (data envelope rest : Buffer) :
  incomingBuffer c ++ data = envelope ++ rest ->
  is_envelope envelope = true -> incomplete rest = true ->
  _handleIncomingData c data
  = process_frame (set_incomingBuffer rest c) envelope (fun c' => (c', [])).
Proof.
  intros B E I. unfold _handleIncomingData. rewrite B.
  cbn [incomingBuffer set_incomingBuffer].
  pose proof (proj1 (is_envelope_spec envelope) E) as [E2 _].
  destruct (length (envelope ++ rest)) as [|fuel] eqn:L;
    [rewrite length_app in L; lia|].
  rewrite (process_frames_envelope fuel
             (set_incomingBuffer (envelope ++ rest) c) envelope rest E eq_refl).
  rewrite set_incomingBuffer_twice.
  apply process_frame_ext. intros c' Bc'.
  apply process_frames_incomplete. rewrite Bc'. exact I.
Qed.

Lemma handleIncomingData_head (c : MiniTelClient)
    (data envelope rest : Buffer) :
  incomingBuffer c ++ data = envelope ++ rest ->
  is_envelope envelope = true ->
  exists continue,
    _handleIncomingData c data
    = process_frame (set_incomingBuffer rest c) envelope continue.
Proof.
  intros B E. unfold _handleIncomingData. rewrite B.
  cbn [incomingBuffer set_incomingBuffer].
  pose proof (proj1 (is_envelope_spec envelope) E) as [E2 _].
  destruct (length (envelope ++ rest)) as [|fuel] eqn:L;
    [rewrite length_app in L; lia|].
  exists (process_frames fuel).
  rewrite (process_frames_envelope fuel
             (set_incomingBuffer (envelope ++ rest) c) envelope rest E eq_refl).
  rewrite set_incomingBuffer_twice. reflexivity.
Qed.

Lemma includes_spec (codes : list Z) (code : Z) :
  includes codes code = true <-> In code codes.
Proof.
  unfold includes. rewrite existsb_exists. split.
  - intros (x & I & E). apply Z.eqb_eq in E. subst. exact I.
  - intros I. exists code. split; [exact I | apply Z.eqb_refl].
Qed.

Lemma handle_accepted_response
    (c : MiniTelClient) (a : Action) (data envelope rest : Buffer)
    (frame : Frame) :
  is_send a = true -> can_transmit c a = true ->
  incomingBuffer c ++ data = envelope ++ rest ->
  is_envelope envelope = true -> incomplete rest = true ->
  decodeFrame envelope = Ok frame ->
  nonce frame = currentNonce c + 1 ->
  includes (accepted_codes a) (cmd frame) = true ->
  let c1 := fst (step c a) in
  let r := _handleIncomingData c1 data in
  snd r
  = Emit (frameTransmitted "response" (response_name (cmd frame))
            (nonce frame) (payloadString frame))
    :: Emit (frameReceived frame)
    :: map (fun x => Resolve (promise x) frame)
           (accepting frame (exchanges c1))
  /\ In (Resolve (nextPromise c) frame) (snd r)
  /\ ~ In (mkExchange (nextPromise c) (accepted_codes a)) (exchanges (fst r))
  /\ currentNonce (fst r) = currentNonce c + 2
  /\ dumpCounter (fst r)
     = dumpCounter c + (if cmd frame =? RESPONSES.DUMP_OK then 1 else 0)
  /\ incomingBuffer (fst r) = rest.
Proof.
  intros Hs T B E I D N A c1 r.
  destruct (send_transmits c a Hs T) as (sent & _ & St).
  assert (C1 : c1 = set_currentNonce (currentNonce c + 2) (with_exchange c a))
    by (unfold c1; rewrite St; reflexivity).
  assert (X1 : exchanges c1
               = exchanges c ++ [mkExchange (nextPromise c) (accepted_codes a)])
    by (rewrite C1; reflexivity).
  assert (R : r = process_frame (set_incomingBuffer rest c1) envelope
                    (fun c' => (c', []))).
  { unfold r. apply handleIncomingData_single; try assumption.
    rewrite C1. exact B. }
  rewrite (process_frame_accepted _ _ _ frame D) in R
    by (rewrite C1; cbn; lia).
  rewrite R. cbn [fst snd]. rewrite app_nil_r.
  destruct (after_frame_fields (set_incomingBuffer rest c1) frame)
    as (Fn & Fb & Fd & Fx).
  cbn [exchanges set_incomingBuffer] in *.
  split; [reflexivity|]. split; [|split; [|split; [|split]]].
  - right. right. apply in_map_iff.
    exists (mkExchange (nextPromise c) (accepted_codes a)). split; [reflexivity|].
    unfold accepting. apply filter_In. split; [|exact A].
    rewrite X1. apply in_or_app. right. left. reflexivity.
  - rewrite Fx. intros H. apply filter_In in H. destruct H as [_ H].
    cbn [expectedCodes] in H. rewrite A in H. discriminate.
  - rewrite Fn. rewrite C1. reflexivity.
  - rewrite Fd. rewrite C1. reflexivity.
  - rewrite Fb. reflexivity.
Qed.

(** X14. A command answered as the protocol says: after a command was
    transmitted with nonce N, an envelope decoding to a frame with nonce
    N+1 and a response code the command accepts makes the client emit
    ['frameTransmitted'], carrying the name of the response and the
    [payloadString] of the frame, then ['frameReceived'], and resolve the
    call with that frame; the call is no longer pending, nothing is rejected,
    the nonce counter stays at N+2, and the dump counter grows by one
    exactly for DUMP_OK. *)
Theorem response_resolves_call
    (c : MiniTelClient) (a : Action) (data envelope rest : Buffer)
    (frame : Frame) :
  is_send a = true -> can_transmit c a = true ->
  incomingBuffer c ++ data = envelope ++ rest ->
  is_envelope envelope = true -> incomplete rest = true ->
  decodeFrame envelope = Ok frame ->
  nonce frame = currentNonce c + 1 ->
  includes (accepted_codes a) (cmd frame) = true ->
  let c1 := fst (step c a) in
  let r := _handleIncomingData c1 data in
  snd r
  = Emit (frameTransmitted "response" (response_name (cmd frame))
            (nonce frame) (payloadString frame))
    :: Emit (frameReceived frame)
    :: map (fun x => Resolve (promise x) frame)
           (accepting frame (exchanges c1))
  /\ In (Resolve (nextPromise c) frame) (snd r)
  /\ ~ In (mkExchange (nextPromise c) (accepted_codes a)) (exchanges (fst r))
  /\ currentNonce (fst r) = currentNonce c + 2
  /\ dumpCounter (fst r)
     = dumpCounter c + (if cmd frame =? RESPONSES.DUMP_OK then 1 else 0)
  /\ incomingBuffer (fst r) = rest.
Proof. apply handle_accepted_response. Qed.

Lemma response_resolves_call_witness :
  snd (_handleIncomingData (fst (step (connected_client false) CallSendHello))
         hello_ack_1_raw)
  = Emit (frameTransmitted "response"
            (response_name (cmd (frame_of RESPONSES.HELLO_ACK 1 [xff; xfe])))
            (nonce (frame_of RESPONSES.HELLO_ACK 1 [xff; xfe]))
            (payloadString (frame_of RESPONSES.HELLO_ACK 1 [xff; xfe])))
    :: Emit (frameReceived (frame_of RESPONSES.HELLO_ACK 1 [xff; xfe]))
    :: map (fun x => Resolve (promise x)
                       (frame_of RESPONSES.HELLO_ACK 1 [xff; xfe]))
           (accepting (frame_of RESPONSES.HELLO_ACK 1 [xff; xfe])
              (exchanges (fst (step (connected_client false) CallSendHello)))).
Proof.
  assert (T : can_transmit (connected_client false) CallSendHello = true)
    by (vm_compute; reflexivity).
  assert (B : incomingBuffer (connected_client false) ++ hello_ack_1_raw
              = hello_ack_1_raw ++ [])
    by (vm_compute; reflexivity).
  assert (E : is_envelope hello_ack_1_raw = true) by (vm_compute; reflexivity).
  assert (D : decodeFrame hello_ack_1_raw
              = Ok (frame_of RESPONSES.HELLO_ACK 1 [xff; xfe]))
    by (vm_compute; reflexivity).
  assert (N : nonce (frame_of RESPONSES.HELLO_ACK 1 [xff; xfe])
              = currentNonce (connected_client false) + 1)
    by (vm_compute; reflexivity).
  exact (proj1 (response_resolves_call (connected_client false) CallSendHello
                  hello_ack_1_raw hello_ack_1_raw []
                  (frame_of RESPONSES.HELLO_ACK 1 [xff; xfe])
                  eq_refl T B E eq_refl D N eq_refl)).
Defined.

(** X15. A frame with the expected nonce but a response code the only
    pending call does not accept is announced by ['frameTransmitted'], with
    its [payloadString], and handed to the listeners, yet the call is
    neither resolved nor rejected: it stays pending. *)
Theorem unexpected_code_leaves_call_pending
    (c : MiniTelClient) (a : Action) (data envelope rest : Buffer)
    (frame : Frame) :
  is_send a = true -> can_transmit c a = true -> exchanges c = [] ->
  incomingBuffer c ++ data = envelope ++ rest ->
  is_envelope envelope = true -> incomplete rest = true ->
  decodeFrame envelope = Ok frame ->
  nonce frame = currentNonce c + 1 ->
  includes (accepted_codes a) (cmd frame) = false ->
  let c1 := fst (step c a) in
  let r := _handleIncomingData c1 data in
  snd r
  = [Emit (frameTransmitted "response" (response_name (cmd frame))
             (nonce frame) (payloadString frame));
     Emit (frameReceived frame)]
  /\ exchanges (fst r) = [mkExchange (nextPromise c) (accepted_codes a)].
Proof.
  intros Hs T X0 B E I D N A c1 r.
  destruct (send_transmits c a Hs T) as (sent & _ & St).
  assert (C1 : c1 = set_currentNonce (currentNonce c + 2) (with_exchange c a))
    by (unfold c1; rewrite St; reflexivity).
  assert (X1 : exchanges c1 = [mkExchange (nextPromise c) (accepted_codes a)])
    by (rewrite C1; cbn; rewrite X0; reflexivity).
  assert (R : r = process_frame (set_incomingBuffer rest c1) envelope
                    (fun c' => (c', []))).
  { unfold r. apply handleIncomingData_single; try assumption.
    rewrite C1. exact B. }
  rewrite (process_frame_accepted _ _ _ frame D) in R
    by (rewrite C1; cbn; lia).
  rewrite R. cbn [fst snd]. rewrite app_nil_r.
  destruct (after_frame_fields (set_incomingBuffer rest c1) frame)
    as (_ & _ & _ & Fx).
  cbn [exchanges set_incomingBuffer] in *.
  rewrite Fx, X1. unfold accepting. cbn [filter expectedCodes].
  rewrite A. cbn [negb map]. split; reflexivity.
Qed.

Lemma unexpected_code_leaves_call_pending_witness :
  snd (_handleIncomingData (fst (step (connected_client false) CallSendHello))
         dump_ok_1)
  = [Emit (frameTransmitted "response"
             (response_name (cmd (frame_of RESPONSES.DUMP_OK 1 [x41])))
             (nonce (frame_of RESPONSES.DUMP_OK 1 [x41]))
             (payloadString (frame_of RESPONSES.DUMP_OK 1 [x41])));
     Emit (frameReceived (frame_of RESPONSES.DUMP_OK 1 [x41]))]
  /\ exchanges (fst (_handleIncomingData
                       (fst (step (connected_client false) CallSendHello))
                       dump_ok_1))
     = [mkExchange (nextPromise (connected_client false))
                   (accepted_codes CallSendHello)].
Proof.
  assert (T : can_transmit (connected_client false) CallSendHello = true)
    by (vm_compute; reflexivity).
  assert (B : incomingBuffer (connected_client false) ++ dump_ok_1
              = dump_ok_1 ++ [])
    by (vm_compute; reflexivity).
  assert (E : is_envelope dump_ok_1 = true) by (vm_compute; reflexivity).
  assert (D : decodeFrame dump_ok_1 = Ok (frame_of RESPONSES.DUMP_OK 1 [x41]))
    by (vm_compute; reflexivity).
  assert (N : nonce (frame_of RESPONSES.DUMP_OK 1 [x41])
              = currentNonce (connected_client false) + 1)
    by (vm_compute; reflexivity).
  exact (unexpected_code_leaves_call_pending (connected_client false)
           CallSendHello dump_ok_1 dump_ok_1 [] (frame_of RESPONSES.DUMP_OK 1 [x41])
           eq_refl T eq_refl B E eq_refl D N eq_refl).
Defined.

(** X16. Two commands sent back to back defeat each other: when a second
    command is transmitted before the first is answered, the server's
    correct answer to the first (nonce N+1) no longer matches the counter
    (now N+4), so it is treated as a nonce violation and both calls are
    rejected with INVALID_NONCE. *)
Theorem pipelined_commands_are_rejected
    (c : MiniTelClient) (a b : Action) (data envelope rest : Buffer)
    (frame : Frame) :
  is_send a = true -> can_transmit c a = true ->
  is_send b = true -> can_transmit (fst (step c a)) b = true ->
  incomingBuffer c ++ data = envelope ++ rest ->
  is_envelope envelope = true ->
  decodeFrame envelope = Ok frame ->
  nonce frame = currentNonce c + 1 ->
  let c2 := fst (step (fst (step c a)) b) in
  let effects := snd (_handleIncomingData c2 data) in
  effects
  = Emit (error_event (Protocol INVALID_NONCE))
    :: map (fun x => Reject (promise x) (Protocol INVALID_NONCE)) (exchanges c2)
  /\ In (Reject (nextPromise c) (Protocol INVALID_NONCE)) effects
  /\ In (Reject (S (nextPromise c)) (Protocol INVALID_NONCE)) effects
  /\ resolved effects = [].
Proof.
  intros Ha Ta Hb Tb B E D N c2 effects.
  destruct (send_transmits c a Ha Ta) as (sent & _ & St).
  set (c1 := fst (step c a)) in *.
  assert (C1 : c1 = set_currentNonce (currentNonce c + 2) (with_exchange c a))
    by (unfold c1; rewrite St; reflexivity).
  destruct (send_transmits c1 b Hb Tb) as (sent' & _ & St').
  assert (C2 : c2 = set_currentNonce (currentNonce c1 + 2) (with_exchange c1 b))
    by (unfold c2; rewrite St'; reflexivity).
  assert (X2 : exchanges c2
               = exchanges c ++ [mkExchange (nextPromise c) (accepted_codes a);
                                 mkExchange (S (nextPromise c)) (accepted_codes b)]).
  { rewrite C2, C1. cbn. rewrite <- app_assoc. reflexivity. }
  assert (N2 : currentNonce c2 = currentNonce c + 4)
    by (rewrite C2, C1; cbn; lia).
  assert (B2 : incomingBuffer c2 = incomingBuffer c)
    by (rewrite C2, C1; reflexivity).
  destruct (handleIncomingData_head c2 data envelope rest) as [k Hk];
    [rewrite B2; exact B | exact E |].
  assert (L : has_error_listener (set_incomingBuffer rest c2) = true).
  { unfold has_error_listener. cbn [exchanges set_incomingBuffer].
    rewrite X2, length_app. cbn [length].
    replace (length (exchanges c) + 2 =? 0)%nat with false
      by (symmetry; apply Nat.eqb_neq; lia).
    apply orb_true_r. }
  unfold effects. rewrite Hk.
  rewrite (process_frame_wrong_nonce _ _ _ frame D)
    by (cbn [currentNonce set_incomingBuffer]; lia).
  rewrite L, app_nil_r. cbn [fst snd exchanges set_incomingBuffer].
  split; [reflexivity|]. split; [|split].
  - right. rewrite X2, map_app. apply in_or_app. right. left. reflexivity.
  - right. rewrite X2, map_app. apply in_or_app. right. right. left.
    reflexivity.
  - apply (resolved_rejects [Emit _]). reflexivity.
Qed.

Lemma pipelined_commands_are_rejected_witness :
  snd (_handleIncomingData
         (fst (step (fst (step (connected_client false) CallSendHello))
                    CallSendDump))
         hello_ack_1)
  = Emit (error_event (Protocol INVALID_NONCE))
    :: map (fun x => Reject (promise x) (Protocol INVALID_NONCE))
           (exchanges (fst (step (fst (step (connected_client false)
                                            CallSendHello))
                                 CallSendDump))).
Proof.
  assert (Ta : can_transmit (connected_client false) CallSendHello = true)
    by (vm_compute; reflexivity).
  assert (Tb : can_transmit (fst (step (connected_client false) CallSendHello))
                            CallSendDump = true)
    by (vm_compute; reflexivity).
  assert (B : incomingBuffer (connected_client false) ++ hello_ack_1
              = hello_ack_1 ++ [])
    by (vm_compute; reflexivity).
  assert (E : is_envelope hello_ack_1 = true) by (vm_compute; reflexivity).
  assert (D : decodeFrame hello_ack_1 = Ok (frame_of RESPONSES.HELLO_ACK 1 []))
    by (vm_compute; reflexivity).
  assert (N : nonce (frame_of RESPONSES.HELLO_ACK 1 [])
              = currentNonce (connected_client false) + 1)
    by (vm_compute; reflexivity).
  exact (proj1 (pipelined_commands_are_rejected (connected_client false)
                  CallSendHello CallSendDump hello_ack_1 hello_ack_1 []
                  (frame_of RESPONSES.HELLO_ACK 1 [])
                  eq_refl Ta eq_refl Tb B E D N)).
Defined.

(** ** Histories *)

Lemma step_written_cases (c : MiniTelClient) (a : Action) :
  is_reconnect a = false ->
  (written (snd (step c a)) = []
   /\ currentNonce (fst (step c a)) = currentNonce c)
  \/ (exists frame,
        is_send a = true
        /\ encodeFrame (command_code a) (currentNonce c) [] = Ok frame
        /\ written (snd (step c a)) = [frame]
        /\ currentNonce (fst (step c a)) = currentNonce c + 2).
Proof.
  intros R.
  destruct (is_send a) eqn:Hs.
  - destruct (can_transmit c a) eqn:T.
    + right. destruct (send_transmits c a Hs T) as (frame & E & St).
      exists frame. rewrite St. auto.
    + left. apply send_not_transmitted; assumption.
  - left. pose proof (step_nonce c a R) as N.
    assert (W : written (snd (step c a)) = []).
    { destruct a; try discriminate; cbn [step].
      - reflexivity.
      - unfold disconnect. destruct (socket c); reflexivity.
      - apply quiet_not_written, handleIncomingData_session.
      - unfold onClose, emit_disconnected. cbn [snd].
        apply (quiet_not_written (Emit disconnected :: map _ _)).
        apply quiet_map_reject.
      - unfold onError.
        pose proof (emit_error_session
                      (set_connectionTimer false (set_isConnected false c)) e)
          as [_ Q].
        destruct (emit_error _ e) as [[c' effects] [e'|]]; cbn [fst snd] in *;
          rewrite written_app, (quiet_not_written _ Q); reflexivity.
      - unfold onTimeout. destruct (socket c); cbn [negb]; [|reflexivity].
        pose proof (emit_error_session c (Protocol CONNECTION_TIMEOUT)) as [_ Q].
        destruct (emit_error c _) as [[c' effects] [e'|]]; cbn [fst snd] in *;
          change (written (SocketDestroy :: ?l)) with (written l);
          rewrite written_app, (quiet_not_written _ Q); reflexivity. }
    rewrite W in N |- *. cbn in N. split; [reflexivity | lia].
Qed.

Lemma command_code_known (a : Action) :
  In (command_code a) [COMMANDS.HELLO; COMMANDS.DUMP; COMMANDS.STOP_CMD].
Proof. destruct a; cbn; auto. Qed.

Lemma run_written_nonces (actions : list Action) : forall c i w,
  existsb is_reconnect actions = false ->
  nth_error (written (snd (run c actions))) i = Some w ->
  exists code,
    In code [COMMANDS.HELLO; COMMANDS.DUMP; COMMANDS.STOP_CMD]
    /\ encodeFrame code (currentNonce c + 2 * Z.of_nat i) [] = Ok w.
Proof.
  induction actions as [|a actions IH]; intros c i w H Hn.
  - destruct i; discriminate.
  - cbn [existsb] in H. apply orb_false_iff in H. destruct H as [Ha H].
    rewrite run_cons in Hn. cbn [snd] in Hn. rewrite written_app in Hn.
    destruct (step_written_cases c a Ha) as [[W N] | (frame & _ & E & W & N)];
      rewrite W in Hn; cbn [app] in Hn.
    + destruct (IH _ i w H Hn) as (code & I & En). exists code.
      rewrite N in En. auto.
    + destruct i as [|i]; cbn [nth_error] in Hn.
      * injection Hn as <-. exists (command_code a).
        split; [apply command_code_known|].
        replace (currentNonce c + 2 * Z.of_nat 0) with (currentNonce c) by lia.
        exact E.
      * destruct (IH _ i w H Hn) as (code & I & En). exists code.
        rewrite N in En. split; [exact I|].
        replace (currentNonce c + 2 * Z.of_nat (S i))
          with (currentNonce c + 2 + 2 * Z.of_nat i) by lia.
        exact En.
Qed.

(** X17. The frames written to the socket over a history without a
    reconnect carry consecutive even steps of the nonce: the frame number
    i (from 0) is a HELLO, DUMP or STOP frame with an empty payload and
    nonce N + 2i, where N is the counter at the start; after a connect
    these are the nonces 0, 2, 4, ... *)
Theorem written_frames_nonces
    (c : MiniTelClient) (actions : list Action) (i : nat) (w : Buffer) :
  existsb is_reconnect actions = false ->
  nth_error (written (snd (run c actions))) i = Some w ->
  exists code,
    In code [COMMANDS.HELLO; COMMANDS.DUMP; COMMANDS.STOP_CMD]
    /\ encodeFrame code (currentNonce c + 2 * Z.of_nat i) [] = Ok w
    /\ decodeFrame w
       = Ok (frame_of code (currentNonce c + 2 * Z.of_nat i) []).
Proof.
  intros H Hn.
  destruct (run_written_nonces actions c i w H Hn) as (code & I & E).
  exists code. split; [exact I|]. split; [exact E|].
  pose proof (encodeFrame_Ok_inv _ _ _ _ E) as (Hc & Hr & Hp & _).
  destruct (decode_encode_roundtrip code _ [] Hc Hr Hp) as (w' & E' & D).
  assert (w' = w) by congruence. subst w'. exact D.
Qed.

Lemma written_frames_nonces_witness :
  exists code,
    In code [COMMANDS.HELLO; COMMANDS.DUMP; COMMANDS.STOP_CMD]
    /\ encodeFrame code (currentNonce (connected_client false)
                         + 2 * Z.of_nat 1) [] = Ok (envelope_of COMMANDS.DUMP 2 [])
    /\ decodeFrame (envelope_of COMMANDS.DUMP 2 [])
       = Ok (frame_of code (currentNonce (connected_client false)
                            + 2 * Z.of_nat 1) []).
Proof.
  apply (written_frames_nonces (connected_client false) hello_then_failed_dump
           1 (envelope_of COMMANDS.DUMP 2 [])).
  - reflexivity.
  - vm_compute. reflexivity.
Defined.

Lemma step_stays_disconnected (c : MiniTelClient) (a : Action) :
  is_reconnect a = false -> isConnected c = false ->
  isConnected (fst (step c a)) = false.
Proof.
  intros R D.
  destruct (is_send a) eqn:Hs.
  { rewrite send_closed_form by assumption. rewrite D. exact D. }
  destruct a; try discriminate; cbn [step].
  - exact D.
  - unfold disconnect. destruct (socket c); reflexivity.
  - pose proof (handleIncomingData_session c data) as [(_ & E & _) _].
    rewrite E. exact D.
  - reflexivity.
  - unfold onError.
    pose proof (emit_error_session
                  (set_connectionTimer false (set_isConnected false c)) e)
      as [(_ & E & _) _].
    destruct (emit_error _ e) as [[c' effects] [e'|]]; cbn [fst snd] in *;
      rewrite E; reflexivity.
  - unfold onTimeout. destruct (socket c); cbn [negb]; [|exact D].
    pose proof (emit_error_session c (Protocol CONNECTION_TIMEOUT))
      as [(_ & E & _) _].
    destruct (emit_error c _) as [[c' effects] [e'|]]; cbn [fst snd] in *;
      rewrite E; exact D.
Qed.

(** X18. A client that is not connected writes nothing: from a state with
    [isConnected] false, over any history without the connect callback,
    no frame reaches the socket, the client stays disconnected, and each
    of [sendHello], [sendDump] and [sendStop] is rejected with
    'Not connected to server' and changes nothing. *)
Theorem disconnected_client_never_writes
    (c : MiniTelClient) (actions : list Action) (a : Action) :
  isConnected c = false -> existsb is_reconnect actions = false ->
  written (snd (run c actions)) = []
  /\ isConnected (fst (run c actions)) = false
  /\ (is_send a = true ->
      step (fst (run c actions)) a
      = (fst (run c actions), [CallRejected NotConnected])).
Proof.
  revert c. induction actions as [|b actions IH]; intros c D H.
  - cbn [run fst snd]. split; [reflexivity|]. split; [exact D|].
    intros Hs. rewrite send_closed_form by assumption. rewrite D. reflexivity.
  - cbn [existsb] in H. apply orb_false_iff in H. destruct H as [Hb H].
    rewrite run_cons. cbn [fst snd].
    pose proof (step_stays_disconnected c b Hb D) as D'.
    destruct (IH _ D' H) as (W & I & Sd).
    split; [|split; assumption].
    rewrite written_app, W, app_nil_r.
    destruct (step_written_cases c b Hb) as [[Wb _] | (frame & Hs & _ & Wb & _)];
      [exact Wb|].
    rewrite send_closed_form in Wb by assumption. rewrite D in Wb.
    discriminate.
Qed.

Lemma disconnected_client_never_writes_witness :
  written (snd (run (constructor false)
                  [CallSendHello; OnData hello_ack_1; CallDisconnect])) = []
  /\ isConnected (fst (run (constructor false)
                         [CallSendHello; OnData hello_ack_1; CallDisconnect]))
     = false
  /\ (is_send CallSendDump = true ->
      step (fst (run (constructor false)
                   [CallSendHello; OnData hello_ack_1; CallDisconnect]))
           CallSendDump
      = (fst (run (constructor false)
                [CallSendHello; OnData hello_ack_1; CallDisconnect]),
         [CallRejected NotConnected])).
Proof.
  exact (disconnected_client_never_writes (constructor false)
           [CallSendHello; OnData hello_ack_1; CallDisconnect] CallSendDump
           eq_refl eq_refl).
Defined.

(** X19. Losing the connection with a call pending: the ['close'] event
    rejects every pending call with UNEXPECTED_DISCONNECTION, the one just
    made included, leaves none pending and clears [isConnected], after
    which every send is rejected as not connected. [disconnect()] itself
    only ends the socket: it settles no call and keeps the listeners, and
    the calls are rejected when the ['close'] event follows. *)
Theorem close_rejects_pending_calls (c : MiniTelClient) (a b : Action) :
  is_send a = true -> can_transmit c a = true -> is_send b = true ->
  let c1 := fst (step c a) in
  (snd (onClose c1)
   = Emit disconnected
     :: map (fun x => Reject (promise x) (Protocol UNEXPECTED_DISCONNECTION))
            (exchanges c1)
   /\ In (Reject (nextPromise c) (Protocol UNEXPECTED_DISCONNECTION))
         (snd (onClose c1))
   /\ exchanges (fst (onClose c1)) = []
   /\ isConnected (fst (onClose c1)) = false
   /\ step (fst (onClose c1)) b
      = (fst (onClose c1), [CallRejected NotConnected]))
  /\ (snd (disconnect c1) = [SocketEnd]
      /\ exchanges (fst (disconnect c1)) = exchanges c1
      /\ isConnected (fst (disconnect c1)) = false
      /\ In (Reject (nextPromise c) (Protocol UNEXPECTED_DISCONNECTION))
            (snd (onClose (fst (disconnect c1))))).
Proof.
  intros Ha T Hb c1.
  destruct (send_transmits c a Ha T) as (sent & _ & St).
  assert (C1 : c1 = set_currentNonce (currentNonce c + 2) (with_exchange c a))
    by (unfold c1; rewrite St; reflexivity).
  assert (X1 : exchanges c1
               = exchanges c ++ [mkExchange (nextPromise c) (accepted_codes a)])
    by (rewrite C1; reflexivity).
  assert (S1 : socket c1 = true).
  { rewrite C1. cbn. unfold can_transmit in T. rewrite !andb_true_iff in T.
    tauto. }
  assert (I : In (Reject (nextPromise c) (Protocol UNEXPECTED_DISCONNECTION))
                (map (fun x => Reject (promise x)
                                 (Protocol UNEXPECTED_DISCONNECTION))
                     (exchanges c1))).
  { rewrite X1, map_app. apply in_or_app. right. left. reflexivity. }
  split.
  - unfold onClose, emit_disconnected. cbn [fst snd exchanges
      set_connectionTimer set_isConnected set_exchanges isConnected].
    split; [reflexivity|]. split; [right; exact I|].
    split; [reflexivity|]. split; [reflexivity|].
    rewrite send_closed_form by assumption. reflexivity.
  - unfold disconnect. rewrite S1. cbn [fst snd].
    split; [reflexivity|]. split; [reflexivity|]. split; [reflexivity|].
    unfold onClose, emit_disconnected. cbn [fst snd exchanges
      set_connectionTimer set_isConnected set_exchanges set_socket].
    right. exact I.
Qed.

Lemma close_rejects_pending_calls_witness :
  snd (onClose (fst (step (connected_client false) CallSendHello)))
  = Emit disconnected
    :: map (fun x => Reject (promise x) (Protocol UNEXPECTED_DISCONNECTION))
           (exchanges (fst (step (connected_client false) CallSendHello))).
Proof.
  assert (T : can_transmit (connected_client false) CallSendHello = true)
    by (vm_compute; reflexivity).
  exact (proj1 (proj1 (close_rejects_pending_calls (connected_client false)
                         CallSendHello CallSendDump eq_refl T eq_refl))).
Defined.

(** X20. The connect callback starts a fresh session on the same client:
    connected, nonce 0, no last command, dump counter 0, empty buffer;
    what was pending stays registered. So [sendDump] is then rejected with
    HelloRequired and changes nothing, and, with a socket, [sendHello]
    writes the HELLO frame with nonce 0. *)
Theorem connect_callback_starts_session (c : MiniTelClient) :
  let c' := fst (onConnect c) in
  getState c' = mkState true 0 None 0
  /\ incomingBuffer c' = []
  /\ exchanges c' = exchanges c
  /\ sendDump c' = (c', [CallRejected HelloRequired])
  /\ (socket c = true ->
      exists frame,
        snd (sendHello c')
        = [Emit (frameTransmitted "request" "HELLO" 0 []); SocketWrite frame]
        /\ decodeFrame frame = Ok (frame_of COMMANDS.HELLO 0 [])).
Proof.
  intros c'.
  split; [reflexivity|]. split; [reflexivity|]. split; [reflexivity|].
  split; [reflexivity|].
  intros Sk.
  assert (T : can_transmit c' CallSendHello = true).
  { unfold can_transmit, c'. cbn. rewrite Sk. reflexivity. }
  destruct (send_transmits c' CallSendHello eq_refl T) as (frame & E & St).
  exists frame. cbn [step] in St. rewrite St. split; [reflexivity|].
  destruct (decode_encode_roundtrip COMMANDS.HELLO 0 [])
    as (w & Ew & D); [cbv; split; discriminate | lia | simpl; lia |].
  change (encodeFrame COMMANDS.HELLO 0 [] = Ok frame) in E.
  assert (w = frame) by congruence. subst w. exact D.
Qed.

Lemma connect_callback_starts_session_witness :
  exists frame,
    snd (sendHello (fst (onConnect (fst (connect (constructor false))))))
    = [Emit (frameTransmitted "request" "HELLO" 0 []); SocketWrite frame]
    /\ decodeFrame frame = Ok (frame_of COMMANDS.HELLO 0 []).
Proof.
  apply (proj2 (proj2 (proj2 (proj2
           (connect_callback_starts_session (fst (connect (constructor false)))))))).
  reflexivity.
Defined.

(** ** A whole session *)

(** One command and its answer, on an idle client. *)
Lemma exchange_round (c : MiniTelClient) (a : Action) (answer : Buffer)
    (frame : Frame) :
  idle c -> is_send a = true -> hello_missing c a = false ->
  0 <= currentNonce c <= 4294967295 ->
  is_envelope answer = true -> decodeFrame answer = Ok frame ->
  nonce frame = currentNonce c + 1 ->
  includes (accepted_codes a) (cmd frame) = true ->
  let r := andThen (step c a) (fun c' => _handleIncomingData c' answer) in
  idle (fst r)
  /\ currentNonce (fst r) = currentNonce c + 2
  /\ nextPromise (fst r) = S (nextPromise c)
  /\ lastCommand (fst r) = Some (command_name a)
  /\ dumpCounter (fst r)
     = dumpCounter c + (if cmd frame =? RESPONSES.DUMP_OK then 1 else 0)
  /\ resolved (snd r) = [(nextPromise c, frame)]
  /\ received (snd r) = [frame]
  /\ length (written (snd r)) = 1%nat
  /\ existsb is_error_event (snd r) = false.
Proof.
  intros (IC & SK & X0 & B0) Hs HM NR E D N A r.
  assert (T : can_transmit c a = true).
  { unfold can_transmit. rewrite IC, SK, HM.
    rewrite (proj2 (in_range_iff _ _ _) NR). reflexivity. }
  destruct (send_transmits c a Hs T) as (sent & _ & St).
  set (c1 := set_currentNonce (currentNonce c + 2) (with_exchange c a)) in *.
  assert (H : _handleIncomingData c1 answer
              = process_frame (set_incomingBuffer [] c1) answer
                  (fun c' => (c', []))).
  { apply handleIncomingData_single; [|exact E|reflexivity].
    unfold c1. cbn [incomingBuffer set_currentNonce with_exchange
                    set_exchanges set_nextPromise set_lastCommand].
    rewrite B0, app_nil_r. reflexivity. }
  rewrite (process_frame_accepted _ _ _ frame D) in H
    by (unfold c1; cbn; lia).
  unfold r. rewrite andThen_fst_snd, St. cbn [fst snd]. rewrite H.
  cbn [fst snd]. rewrite app_nil_r.
  destruct (after_frame_fields (set_incomingBuffer [] c1) frame)
    as (Fn & Fb & Fd & Fx).
  assert (X1 : exchanges (set_incomingBuffer [] c1)
               = [mkExchange (nextPromise c) (accepted_codes a)])
    by (unfold c1; cbn; rewrite X0; reflexivity).
  rewrite X1 in Fx. cbn [filter expectedCodes] in Fx. rewrite A in Fx.
  cbn [negb] in Fx.
  assert (Ac : accepting frame (exchanges (set_incomingBuffer [] c1))
               = [mkExchange (nextPromise c) (accepted_codes a)]).
  { rewrite X1. unfold accepting. cbn [filter expectedCodes]. rewrite A.
    reflexivity. }
  rewrite Ac. cbn [map promise].
  split; [|split; [|split; [|split; [|split]]]].
  - unfold idle. rewrite Fx, Fb.
    unfold after_frame, emit_frameReceived. cbn [fst].
    destruct (cmd frame =? RESPONSES.DUMP_OK); cbn; auto.
  - rewrite Fn. reflexivity.
  - unfold after_frame, emit_frameReceived. cbn [fst].
    destruct (cmd frame =? RESPONSES.DUMP_OK); reflexivity.
  - unfold after_frame, emit_frameReceived. cbn [fst].
    destruct (cmd frame =? RESPONSES.DUMP_OK); reflexivity.
  - rewrite Fd. reflexivity.
  - repeat split; reflexivity.
Qed.

Lemma andThen_assoc_run (c : MiniTelClient) (a : Action) (data : Buffer)
    (actions : list Action) :
  run c (a :: OnData data :: actions)
  = andThen (andThen (step c a) (fun c' => _handleIncomingData c' data))
            (fun c' => run c' actions).
Proof.
  rewrite !run_cons, !andThen_fst_snd. cbn [fst snd step].
  rewrite app_assoc. reflexivity.
Qed.

Lemma resolved_app (l1 l2 : list Effect) :
  resolved (l1 ++ l2) = resolved l1 ++ resolved l2.
Proof. apply flat_map_app. Qed.

(** X21. The session of the application on a responsive server. On a
    freshly connected, idle client, HELLO answered by HELLO_ACK at nonce
    1, DUMP answered by DUMP_OK or DUMP_FAILED at nonce 3 and DUMP
    answered likewise at nonce 5 resolve the three calls, in order, with
    the three frames; exactly three frames are written; no error is
    emitted; the counter ends at 6 and the dump counter has grown by the
    number of DUMP_OK answers; the client is idle again. *)
Theorem hello_dump_dump_session
    (c : MiniTelClient) (answer1 answer2 answer3 : Buffer)
    (frame1 frame2 frame3 : Frame) :
  idle c -> currentNonce c = 0 ->
  is_envelope answer1 = true -> decodeFrame answer1 = Ok frame1 ->
  is_envelope answer2 = true -> decodeFrame answer2 = Ok frame2 ->
  is_envelope answer3 = true -> decodeFrame answer3 = Ok frame3 ->
  nonce frame1 = 1 -> nonce frame2 = 3 -> nonce frame3 = 5 ->
  cmd frame1 = RESPONSES.HELLO_ACK ->
  includes [RESPONSES.DUMP_OK; RESPONSES.DUMP_FAILED] (cmd frame2) = true ->
  includes [RESPONSES.DUMP_OK; RESPONSES.DUMP_FAILED] (cmd frame3) = true ->
  let r := run c (hello_dump_dump answer1 answer2 answer3) in
  resolved (snd r)
  = [(nextPromise c, frame1); (S (nextPromise c), frame2);
     (S (S (nextPromise c)), frame3)]
  /\ received (snd r) = [frame1; frame2; frame3]
  /\ length (written (snd r)) = 3%nat
  /\ existsb is_error_event (snd r) = false
  /\ currentNonce (fst r) = 6
  /\ dumpCounter (fst r) = dumpCounter c + count_dump_ok [frame2; frame3]
  /\ idle (fst r).
Proof.
  intros I0 N0 E1 D1 E2 D2 E3 D3 Nf1 Nf2 Nf3 C1 A2 A3 r.
  unfold r, hello_dump_dump.
  rewrite andThen_assoc_run.
  set (r1 := andThen (step c CallSendHello)
                     (fun c' => _handleIncomingData c' answer1)).
  destruct (exchange_round c CallSendHello answer1 frame1)
    as (I1 & Nn1 & P1 & L1 & Dc1 & Rs1 & Rc1 & W1 & Er1);
    try assumption; try reflexivity; try lia.
  { cbn [accepted_codes]. rewrite C1. reflexivity. }
  fold r1 in I1, Nn1, P1, L1, Dc1, Rs1, Rc1, W1, Er1.
  rewrite andThen_fst_snd, andThen_assoc_run.
  set (r2 := andThen (step (fst r1) CallSendDump)
                     (fun c' => _handleIncomingData c' answer2)).
  destruct (exchange_round (fst r1) CallSendDump answer2 frame2)
    as (I2 & Nn2 & P2 & L2 & Dc2 & Rs2 & Rc2 & W2 & Er2);
    try assumption; try reflexivity; try lia.
  { unfold hello_missing. rewrite L1. reflexivity. }
  fold r2 in I2, Nn2, P2, L2, Dc2, Rs2, Rc2, W2, Er2.
  rewrite andThen_fst_snd, andThen_assoc_run.
  set (r3 := andThen (step (fst r2) CallSendDump)
                     (fun c' => _handleIncomingData c' answer3)).
  destruct (exchange_round (fst r2) CallSendDump answer3 frame3)
    as (I3 & Nn3 & P3 & L3 & Dc3 & Rs3 & Rc3 & W3 & Er3);
    try assumption; try reflexivity; try lia.
  { unfold hello_missing. rewrite L2. reflexivity. }
  fold r3 in I3, Nn3, P3, L3, Dc3, Rs3, Rc3, W3, Er3.
  rewrite andThen_fst_snd. cbn [run fst snd]. rewrite app_nil_r.
  rewrite !resolved_app, !received_app, !written_app, !length_app,
    !existsb_app.
  rewrite Rs1, Rs2, Rs3, Rc1, Rc2, Rc3, W1, W2, W3, Er1, Er2, Er3, P2, P1.
  split; [reflexivity|]. split; [reflexivity|]. split; [reflexivity|].
  split; [reflexivity|]. split; [lia|]. split; [|exact I3].
  rewrite Dc3, Dc2, Dc1. rewrite C1. unfold count_dump_ok. cbn [filter].
  change (RESPONSES.HELLO_ACK =? RESPONSES.DUMP_OK) with false.
  destruct (cmd frame2 =? RESPONSES.DUMP_OK);
    destruct (cmd frame3 =? RESPONSES.DUMP_OK); cbn [length]; lia.
Qed.

(** X22. An error with nobody listening is thrown: on a client with no
    pending call and no ['error'] listener of the application, an envelope
    that fails to decode makes the ['data'] callback emit ['error'] and
    let the error escape; a frame with the wrong nonce does the same after
    emitting twice (in the [try] and again in the [catch]). *)
Theorem error_without_listener_is_thrown
    (c : MiniTelClient) (data envelope rest : Buffer) :
  exchanges c = [] -> errorObserver c = false ->
  incomingBuffer c ++ data = envelope ++ rest ->
  is_envelope envelope = true ->
  (forall e, decodeFrame envelope = Err e ->
     snd (_handleIncomingData c data) = [Emit (error_event e); Uncaught e])
  /\ (forall frame, decodeFrame envelope = Ok frame ->
        nonce frame <> currentNonce c - 1 ->
        snd (_handleIncomingData c data)
        = [Emit (error_event (Protocol INVALID_NONCE));
           Emit (error_event (Protocol INVALID_NONCE));
           Uncaught (Protocol INVALID_NONCE)]).
Proof.
  intros X0 EO B E.
  destruct (handleIncomingData_head c data envelope rest B E) as [k Hk].
  assert (L : has_error_listener (set_incomingBuffer rest c) = false).
  { unfold has_error_listener. cbn [errorObserver exchanges set_incomingBuffer].
    rewrite X0, EO. reflexivity. }
  split.
  - intros e D. rewrite Hk, (process_frame_decode_error _ _ _ e D), L.
    cbn [snd exchanges set_incomingBuffer]. rewrite X0. reflexivity.
  - intros frame D N. rewrite Hk, (process_frame_wrong_nonce _ _ _ frame D), L
      by exact N.
    cbn [snd exchanges set_incomingBuffer]. rewrite X0. reflexivity.
Qed.

Lemma error_without_listener_is_thrown_witness :
  snd (_handleIncomingData (connected_client false) short_frame)
  = [Emit (error_event (Protocol MALFORMED_FRAME));
     Uncaught (Protocol MALFORMED_FRAME)].
Proof.
  assert (B : incomingBuffer (connected_client false) ++ short_frame
              = short_frame ++ [])
    by (vm_compute; reflexivity).
  assert (E : is_envelope short_frame = true) by (vm_compute; reflexivity).
  assert (D : decodeFrame short_frame = Err (Protocol MALFORMED_FRAME))
    by (vm_compute; reflexivity).
  exact (proj1 (error_without_listener_is_thrown (connected_client false)
                  short_frame short_frame [] eq_refl eq_refl B E)
           (Protocol MALFORMED_FRAME) D).
Defined.

Lemma hello_dump_dump_session_witness :
  let r := run (connected_client false)
               (hello_dump_dump hello_ack_1 dump_failed_3 dump_ok_5) in
  resolved (snd r)
  = [(nextPromise (connected_client false), frame_of RESPONSES.HELLO_ACK 1 []);
     (S (nextPromise (connected_client false)),
      frame_of RESPONSES.DUMP_FAILED 3 []);
     (S (S (nextPromise (connected_client false))),
      frame_of RESPONSES.DUMP_OK 5 [x43; x4f; x44; x45])]
  /\ received (snd r)
     = [frame_of RESPONSES.HELLO_ACK 1 []; frame_of RESPONSES.DUMP_FAILED 3 [];
        frame_of RESPONSES.DUMP_OK 5 [x43; x4f; x44; x45]]
  /\ length (written (snd r)) = 3%nat
  /\ existsb is_error_event (snd r) = false
  /\ currentNonce (fst r) = 6
  /\ dumpCounter (fst r)
     = dumpCounter (connected_client false)
       + count_dump_ok [frame_of RESPONSES.DUMP_FAILED 3 [];
                        frame_of RESPONSES.DUMP_OK 5 [x43; x4f; x44; x45]]
  /\ idle (fst r).
Proof.
  assert (I : idle (connected_client false))
    by (unfold idle; repeat split; reflexivity).
  assert (E1 : is_envelope hello_ack_1 = true) by (vm_compute; reflexivity).
  assert (E2 : is_envelope dump_failed_3 = true) by (vm_compute; reflexivity).
  assert (E3 : is_envelope dump_ok_5 = true) by (vm_compute; reflexivity).
  assert (D1 : decodeFrame hello_ack_1 = Ok (frame_of RESPONSES.HELLO_ACK 1 []))
    by (vm_compute; reflexivity).
  assert (D2 : decodeFrame dump_failed_3
               = Ok (frame_of RESPONSES.DUMP_FAILED 3 []))
    by (vm_compute; reflexivity).
  assert (D3 : decodeFrame dump_ok_5
               = Ok (frame_of RESPONSES.DUMP_OK 5 [x43; x4f; x44; x45]))
    by (vm_compute; reflexivity).
  exact (hello_dump_dump_session (connected_client false)
           hello_ack_1 dump_failed_3 dump_ok_5 _ _ _
           I eq_refl E1 D1 E2 D2 E3 D3 eq_refl eq_refl eq_refl eq_refl
           eq_refl eq_refl).
Defined.

(* ================================================================== *)
(** * The nonce check and the calls it settles *)

Lemma resolved_map_reject (xs : list Exchange) (e : error) :
  resolved (map (fun x => Reject (promise x) e) xs) = [].
Proof. apply (resolved_rejects [] xs e). reflexivity. Qed.

Lemma handleIncomingData_resolved (c : MiniTelClient) (data : Buffer)
    (p : nat) (frame : Frame) :
  In (p, frame) (resolved (snd (_handleIncomingData c data))) ->
  nonce frame = currentNonce c - 1.
Proof.
  revert p frame.
  apply (handleIncomingData_invariant
           (fun c r => forall p frame,
                In (p, frame) (resolved (snd r)) ->
                nonce frame = currentNonce c - 1)).
  - intros c0 p frame H. destruct H.
  - intros c0 b r H. exact H.
  - intros c0 fd k K p frame H.
    destruct (decodeFrame fd) as [f|e] eqn:D.
    + destruct (Z.eq_dec (nonce f) (currentNonce c0 - 1)) as [N|N].
      * rewrite (process_frame_accepted c0 fd k f D N) in H. cbn [snd] in H.
        change (resolved (Emit ?e1 :: Emit ?e2 :: ?l)) with (resolved l) in H.
        rewrite resolved_app in H. apply in_app_or in H. destruct H as [H|H].
        -- assert (F : frame = f).
           { clear - H. induction (accepting f (exchanges c0)) as [|x xs IH];
               [destruct H|].
             cbn in H. destruct H as [H|H]; [congruence | exact (IH H)]. }
           rewrite F. exact N.
        -- rewrite (K _ p frame H).
           destruct (after_frame_fields c0 f) as (-> & _). reflexivity.
      * rewrite (process_frame_wrong_nonce c0 fd k f D N) in H. cbn [snd] in H.
        change (resolved (Emit ?e1 :: ?l)) with (resolved l) in H.
        rewrite resolved_app, resolved_map_reject in H.
        destruct (has_error_listener c0); destruct H.
    + rewrite (process_frame_decode_error c0 fd k e D) in H. cbn [snd] in H.
      change (resolved (Emit ?e1 :: ?l)) with (resolved l) in H.
      rewrite resolved_app, resolved_map_reject in H.
      destruct (has_error_listener c0); destruct H.
Qed.

(** A step that is neither a send nor the connect callback keeps the
    counter and resolves calls with frames that carry the expected nonce
    only. *)
Lemma step_resolved (c : MiniTelClient) (a : Action) (p : nat) (frame : Frame) :
  is_send a = false -> is_reconnect a = false ->
  currentNonce (fst (step c a)) = currentNonce c
  /\ (In (p, frame) (resolved (snd (step c a))) ->
      nonce frame = currentNonce c - 1).
Proof.
  intros Hs Hr. destruct a; try discriminate; cbn [step].
  - split; [reflexivity | intros []].
  - unfold disconnect. destruct (socket c); split;
      solve [reflexivity | intros [] ].
  - split.
    + destruct (handleIncomingData_session c data) as [(_ & _ & N & _) _].
      exact N.
    + apply handleIncomingData_resolved.
  - unfold onClose, emit_disconnected. cbn [fst snd]. split; [reflexivity|].
    change (resolved (Emit ?e1 :: ?l)) with (resolved l).
    rewrite resolved_map_reject. intros [].
  - unfold onError, emit_error.
    cbn [exchanges errorObserver set_connectionTimer set_isConnected].
    destruct (errorObserver c || negb (length (exchanges c) =? 0)%nat);
      cbn [fst snd]; (split; [reflexivity|]);
      change (resolved ((Emit ?e1 :: ?l) ++ ?t)) with (resolved (l ++ t));
      rewrite resolved_app, resolved_map_reject; intros [].
  - unfold onTimeout. destruct (socket c); cbn [negb];
      [|split; [reflexivity | intros []]].
    unfold emit_error.
    destruct (errorObserver c || negb (length (exchanges c) =? 0)%nat);
      cbn [fst snd]; (split; [reflexivity|]);
      change (resolved (SocketDestroy :: (Emit ?e1 :: ?l) ++ ?t))
        with (resolved (l ++ t));
      rewrite resolved_app, resolved_map_reject; intros [].
Qed.

Lemma run_resolved (actions : list Action) : forall c p frame,
  existsb is_send actions = false -> existsb is_reconnect actions = false ->
  In (p, frame) (resolved (snd (run c actions))) ->
  nonce frame = currentNonce c - 1.
Proof.
  induction actions as [|a actions IH]; intros c p frame Hs Hr H.
  - destruct H.
  - cbn [existsb] in Hs, Hr. apply orb_false_iff in Hs, Hr.
    destruct Hs as [Hs Hs'], Hr as [Hr Hr'].
    rewrite run_cons in H. cbn [snd] in H.
    rewrite resolved_app in H.
    destruct (step_resolved c a p frame Hs Hr) as [N R].
    apply in_app_or in H. destruct H as [H|H]; [exact (R H)|].
    rewrite (IH _ p frame Hs' Hr' H), N. reflexivity.
Qed.

(** C3, as stated, fails. On a connected client [sendHello] is called
    twice: the first HELLO is written with nonce 0, the second with nonce
    2, and both calls are pending. HELLO_ACK with nonce 3 then decodes and
    passes the hash check. Its nonce is not 0+1, yet no error is emitted
    and the call sent with nonce 0 (promise 0) is resolved with it. *)
Theorem later_nonce_resolves_earlier_call :
  let first := sendHello (connected_client true) in
  let second := sendHello (fst first) in
  let answer := frame_of RESPONSES.HELLO_ACK 3 [] in
  map decodeFrame (written (snd first)) = [Ok (frame_of COMMANDS.HELLO 0 [])]
  /\ map decodeFrame (written (snd second))
     = [Ok (frame_of COMMANDS.HELLO 2 [])]
  /\ exchanges (fst second)
     = [mkExchange 0 [RESPONSES.HELLO_ACK]; mkExchange 1 [RESPONSES.HELLO_ACK]]
  /\ decodeFrame hello_ack_3 = Ok answer
  /\ nonce answer <> 0 + 1
  /\ snd (_handleIncomingData (fst second) hello_ack_3)
     = [Emit (frameTransmitted "response" "HELLO_ACK" 3 []);
        Emit (frameReceived answer);
        Resolve 0 answer; Resolve 1 answer].
Proof.
  cbv zeta.
  split; [vm_compute; reflexivity|].
  split; [vm_compute; reflexivity|].
  split; [vm_compute; reflexivity|].
  split; [vm_compute; reflexivity|].
  split; [vm_compute; discriminate|].
  vm_compute; reflexivity.
Qed.

(** C3, amended. The client keeps no nonce per pending call: it compares
    every decoded frame with its counter minus one. After a command has
    been transmitted with nonce N the counter is N+2, so the nonce
    expected is N+1, and
    - when the next complete envelope decodes to a frame whose nonce is
      not N+1, the client emits INVALID_NONCE, rejects every pending call
      with it, the one just made and the older ones, resolves none and
      hands no frame to the listeners;
    - at every turn of the loop while the counter is N+2, a frame that
      decodes with a nonce other than N+1 ends the loop in the same way;
      with no ['error'] listener left the error is emitted again by the
      [catch] and escapes;
    - until another command is sent or the connect callback runs, no call
      is resolved with a frame whose nonce is not N+1. *)
Theorem nonce_checked_against_latest_send (c : MiniTelClient) (a : Action) :
  is_send a = true -> can_transmit c a = true ->
  let N := currentNonce c in
  let c1 := fst (step c a) in
  currentNonce c1 - 1 = N + 1
  /\ (forall (data frameData rest : Buffer) (frame : Frame),
        incomingBuffer c ++ data = frameData ++ rest ->
        is_envelope frameData = true ->
        decodeFrame frameData = Ok frame ->
        nonce frame <> N + 1 ->
        snd (_handleIncomingData c1 data)
        = Emit (error_event (Protocol INVALID_NONCE))
          :: map (fun x => Reject (promise x) (Protocol INVALID_NONCE))
                 (exchanges c1)
        /\ In (Reject (nextPromise c) (Protocol INVALID_NONCE))
              (snd (_handleIncomingData c1 data))
        /\ resolved (snd (_handleIncomingData c1 data)) = []
        /\ received (snd (_handleIncomingData c1 data)) = []
        /\ exchanges (fst (_handleIncomingData c1 data)) = [])
  /\ (forall (c' : MiniTelClient) (frameData : Buffer) (frame : Frame)
             (continue : MiniTelClient -> Run),
        currentNonce c' = N + 2 ->
        decodeFrame frameData = Ok frame ->
        nonce frame <> N + 1 ->
        process_frame c' frameData continue
        = (set_exchanges [] c',
           Emit (error_event (Protocol INVALID_NONCE))
           :: map (fun x => Reject (promise x) (Protocol INVALID_NONCE))
                  (exchanges c')
           ++ if has_error_listener c' then []
              else [Emit (error_event (Protocol INVALID_NONCE));
                    Uncaught (Protocol INVALID_NONCE)]))
  /\ (forall (actions : list Action) (p : nat) (frame : Frame),
        existsb is_send actions = false ->
        existsb is_reconnect actions = false ->
        In (p, frame) (resolved (snd (run c1 actions))) ->
        nonce frame = N + 1).
Proof.
  intros Hs T N c1.
  destruct (send_transmits c a Hs T) as (sent & _ & St).
  assert (C1 : currentNonce c1 = N + 2) by (unfold c1; rewrite St; reflexivity).
  split; [lia|]. split; [|split].
  - intros data frameData rest frame B E D W.
    exact (wrong_nonce_rejects_pending c a data frameData rest frame
             Hs T B E D W).
  - intros c' frameData frame continue C' D W.
    apply (process_frame_wrong_nonce c' frameData continue frame D). lia.
  - intros actions p frame Ha Hr H.
    rewrite (run_resolved actions c1 p frame Ha Hr H). lia.
Qed.

Lemma nonce_checked_against_latest_send_witness :
  snd (_handleIncomingData (fst (step (connected_client false) CallSendHello))
         hello_ack_999)
  = Emit (error_event (Protocol INVALID_NONCE))
    :: map (fun x => Reject (promise x) (Protocol INVALID_NONCE))
           (exchanges (fst (step (connected_client false) CallSendHello))).
Proof.
  assert (T : can_transmit (connected_client false) CallSendHello = true)
    by (vm_compute; reflexivity).
  assert (B : incomingBuffer (connected_client false) ++ hello_ack_999
              = hello_ack_999 ++ [])
    by (vm_compute; reflexivity).
  assert (E : is_envelope hello_ack_999 = true) by (vm_compute; reflexivity).
  assert (D : decodeFrame hello_ack_999
              = Ok (frame_of RESPONSES.HELLO_ACK 999 []))
    by (vm_compute; reflexivity).
  assert (N : nonce (frame_of RESPONSES.HELLO_ACK 999 [])
              <> currentNonce (connected_client false) + 1)
    by (vm_compute; discriminate).
  exact (proj1 (proj1 (proj2 (nonce_checked_against_latest_send
                                (connected_client false) CallSendHello
                                eq_refl T))
                  hello_ack_999 hello_ack_999 []
                  (frame_of RESPONSES.HELLO_ACK 999 []) B E D N)).
Defined.
